(** * Pippa (rippa.py): a shallow embedding and its verified properties

    The development follows [src/rippa.py] top to bottom:

    - [Text]: the pieces of Python's [str] API that the program uses
      ([str.split], [str.strip], [int], [hex], [str.endswith]) and the one
      regular expression of [parse_blkid_params], run by a small
      backtracking matcher;
    - the pure parsers [parse_blkid_params], [parse_blkid],
      [cdparanoia_hash];
    - [Effects]: a state-and-error monad over an explicit world (the
      history of the calls made to the operating system and the
      process-wide mount registry [_mounts]); every answer of the
      operating system is chosen by an arbitrary environment;
    - [execute], [eject], [mount], [unmount], [mount_cleanup];
    - the thread classes: [StoppableThread], [LoopThread],
      [TranscodeThread], [RipThread];
    - the theorems.

    Python strings are modelled by [string] (8-bit characters): the
    character classes below are the ASCII restrictions of Python's. *)

From Stdlib Require Import ZArith Lia Bool List Ascii String.
From Stdlib Require Import DecimalString HexadecimalString.
From stdpp Require Import base option list gmap strings fin_maps.

Local Open Scope string_scope.
Local Open Scope Z_scope.

(** ** Exceptions *)

(** The exception classes that the program raises or that reach it from the
    library calls it makes.  All of them derive from [Exception]. *)
Inductive exn : Type :=
| AttributeError (name : string)   (* [obj.name] with no such attribute     *)
| KeyError (key : string)          (* [d[key]] with no such key             *)
| IndexError                       (* [l[i]] out of range                   *)
| ValueError (arg : string)        (* [int(arg)] on a non-numeric literal   *)
| CalledProcessError (code : Z)    (* [subprocess.check_output], exit <> 0  *)
| PyException (code : Z)           (* [raise Exception(exitcode)]           *)
| OSError (msg : string)           (* FileNotFoundError, PermissionError... *)
| UnicodeDecodeError               (* [bytes.decode] on invalid UTF-8       *)
| TypeError.                       (* an ill-typed answer of the environment *)

(** Result of a computation that may raise. *)
Inductive res (A : Type) : Type :=
| Ok (a : A)
| Raise (e : exn).
Arguments Ok {A} a.
Arguments Raise {A} e.

Definition res_bind {A B} (r : res A) (k : A -> res B) : res B :=
  match r with
  | Ok a => k a
  | Raise e => Raise e
  end.

Definition is_CalledProcessError (e : exn) : bool :=
  match e with CalledProcessError _ => true | _ => false end.

(** ** Text: the fragment of Python's [str] that the program relies on *)

Module Text.

Definition chr (n : nat) : ascii := ascii_of_nat n.
Definition LF : string := String (chr 10) "".
Definition DQUOTE : string := String (chr 34) "".

(** A character of the model is a code point below 256.

    [str.isspace] on one character, which is what [str.split()] cuts at:
    TAB, LF, VT, FF, CR, the four separators FS, GS, RS, US, the space,
    NEL (U+0085) and the no-break space (U+00A0). *)
Definition is_space (c : ascii) : bool :=
  let n := nat_of_ascii c in
  ((9 <=? n) && (n <=? 13) || (28 <=? n) && (n <=? 32)
   || (n =? 133) || (n =? 160))%nat.

(** The white space that [int] ignores around a literal: TAB, LF, VT, FF,
    CR, the space, NEL and the no-break space; the four separators FS, GS,
    RS, US are not among them. *)
Definition is_int_space (c : ascii) : bool :=
  let n := nat_of_ascii c in
  ((9 <=? n) && (n <=? 13) || (n =? 32) || (n =? 133) || (n =? 160))%nat.

(** The whitespace that [bytes.strip] removes: TAB, LF, VT, FF, CR, space. *)
Definition is_bytes_space (c : ascii) : bool :=
  let n := nat_of_ascii c in
  ((9 <=? n) && (n <=? 13) || (n =? 32))%nat.

Definition is_digit (c : ascii) : bool :=
  let n := nat_of_ascii c in ((48 <=? n) && (n <=? 57))%nat.

(** The class [\w] of a [str] pattern: the underscore and the
    alphanumeric characters, which below 256 are the ASCII letters and
    digits, the ordinal indicators, the superscripts 1 to 3, the micro
    sign, the three vulgar fractions, and the Latin-1 letters (U+00C0 to
    U+00FF without the multiplication and the division sign). *)
Definition is_word (c : ascii) : bool :=
  let n := nat_of_ascii c in
  ((48 <=? n) && (n <=? 57) || (65 <=? n) && (n <=? 90)
   || (97 <=? n) && (n <=? 122) || (n =? 95)
   || (n =? 170) || (n =? 178) || (n =? 179) || (n =? 181)
   || (n =? 185) || (n =? 186) || (188 <=? n) && (n <=? 190)
   || (192 <=? n) && (n <=? 214) || (216 <=? n) && (n <=? 246)
   || (248 <=? n) && (n <=? 255))%nat.

(** The class of every character but the double quote. *)
Definition not_dquote (c : ascii) : bool :=
  negb (nat_of_ascii c =? 34)%nat.

Definition digit_val (c : ascii) : Z := Z.of_nat (nat_of_ascii c) - 48.

Fixpoint drop_str (n : nat) (s : string) : string :=
  match n, s with
  | O, _ => s
  | S _, "" => ""
  | S k, String _ s' => drop_str k s'
  end.

Fixpoint take_str (n : nat) (s : string) : string :=
  match n, s with
  | O, _ => ""
  | S _, "" => ""
  | S k, String c s' => String c (take_str k s')
  end.

Fixpoint rev_str_onto (s acc : string) : string :=
  match s with
  | "" => acc
  | String c s' => rev_str_onto s' (String c acc)
  end.
Definition rev_str (s : string) : string := rev_str_onto s "".

(** [s.startswith(p)] and [s.endswith(p)]. *)
Definition startswith (s p : string) : bool := String.prefix p s.
Definition endswith (s p : string) : bool :=
  String.prefix (rev_str p) (rev_str s).

(** [s.split(sep)] for a non-empty separator: the text is cut at every
    occurrence of [sep], found from left to right without overlap; the
    result always has at least one element.  [skip] counts the characters
    of a separator that was just recognised and is still to be passed. *)
Fixpoint split_go (sep s : string) (skip : nat) (cur : string)
  : list string :=
  match s with
  | "" => [cur]
  | String c s' =>
      match skip with
      | S k => split_go sep s' k cur
      | O =>
          if String.prefix sep s
          then cur :: split_go sep s' (String.length sep - 1) ""
          else split_go sep s' 0 (cur ++ String c "")
      end
  end.
Definition split (s sep : string) : list string := split_go sep s 0 "".

(** [s.split()]: the maximal runs of non-space characters. *)
Fixpoint split_ws_go (s cur : string) : list string :=
  match s with
  | "" => if String.eqb cur "" then [] else [cur]
  | String c s' =>
      if is_space c
      then (if String.eqb cur "" then split_ws_go s' ""
            else cur :: split_ws_go s' "")
      else split_ws_go s' (cur ++ String c "")
  end.
Definition split_ws (s : string) : list string := split_ws_go s "".

(** [bytes.strip()]. *)
Fixpoint lstrip (s : string) : string :=
  match s with
  | "" => ""
  | String c s' => if is_bytes_space c then lstrip s' else s
  end.
Definition strip (s : string) : string :=
  rev_str (lstrip (rev_str (lstrip s))).

(** [l[6:-2]]: the elements of index 6 up to, and without, the last two. *)
Definition slice_6_m2 {A} (l : list A) : list A :=
  skipn 6 (firstn (List.length l - 2) l).

(** [int(s)] on a string: surrounding whitespace is ignored, then an
    optional sign, then decimal digits that single underscores may
    separate; a literal of more than [max_str_digits] digits is refused
    (the limit of [sys.set_int_max_str_digits], 4300 unless it is
    changed).  [None] stands for [ValueError]. *)
Definition max_str_digits : nat := 4300.

Fixpoint count_digits (s : string) : nat :=
  match s with
  | "" => 0
  | String c s' => if is_digit c then S (count_digits s') else count_digits s'
  end.

Fixpoint int_digits (s : string) (acc : Z) (after_digit : bool) : option Z :=
  match s with
  | "" => if after_digit then Some acc else None
  | String c s' =>
      if is_digit c then int_digits s' (10 * acc + digit_val c) true
      else if (nat_of_ascii c =? 95)%nat
           then (if after_digit then int_digits s' acc false else None)
           else None
  end.

Fixpoint lstrip_ws (s : string) : string :=
  match s with
  | "" => ""
  | String c s' => if is_int_space c then lstrip_ws s' else s
  end.
Definition strip_ws (s : string) : string :=
  rev_str (lstrip_ws (rev_str (lstrip_ws s))).

Definition py_int (s : string) : option Z :=
  let literal := strip_ws s in
  if (max_str_digits <? count_digits literal)%nat then None
  else
    match literal with
    | "" => None
    | String c s' =>
        if (nat_of_ascii c =? 45)%nat then Z.opp <$> int_digits s' 0 false
        else if (nat_of_ascii c =? 43)%nat then int_digits s' 0 false
        else int_digits (String c s') 0 false
    end.

(** [str(n)] for an integer. *)
Definition str_of_Z (z : Z) : string :=
  DecimalString.NilZero.string_of_int (Z.to_int z).

(** [hex(abs(n))[2:]]: the lowercase hexadecimal digits of [|n|]. *)
Definition hex_of_abs (z : Z) : string :=
  HexadecimalString.NilZero.string_of_uint (N.to_hex_uint (Z.abs_N z)).

(** [' '.join(l)]. *)
Fixpoint join (sep : string) (l : list string) : string :=
  match l with
  | [] => ""
  | [x] => x
  | x :: l' => x ++ sep ++ join sep l'
  end.

(** *** The regular expressions of the program

    Only the constructs that occur in the source: a literal, a greedy
    [+] over a character class, a capturing group, concatenation. *)
Inductive regex : Type :=
| RLit (s : string)
| RPlus (cls : ascii -> bool)
| RGroup (r : regex)
| RSeq (r1 r2 : regex).

(** Greedy [cls+] with backtracking: take one more character when that
    leads to a match, stop here otherwise. *)
Fixpoint match_plus {R} (cls : ascii -> bool) (s : string)
         (k : string -> option R) : option R :=
  match s with
  | "" => None
  | String c s' =>
      if cls c then
        match match_plus cls s' k with
        | Some r => Some r
        | None => k s'
        end
      else None
  end.

(** Backtracking match of [r] at the start of [s]; the continuation gets
    the rest of the text and the groups captured so far. *)
Fixpoint rmatch {R} (r : regex) (s : string) (caps : list string)
         (k : string -> list string -> option R) : option R :=
  match r with
  | RLit l =>
      if String.prefix l s then k (drop_str (String.length l) s) caps
      else None
  | RPlus cls => match_plus cls s (fun rest => k rest caps)
  | RGroup r1 =>
      rmatch r1 s caps (fun rest caps' =>
        k rest (caps' ++ [take_str (String.length s - String.length rest) s])%list)
  | RSeq r1 r2 =>
      rmatch r1 s caps (fun rest caps' => rmatch r2 rest caps' k)
  end.

Definition match_at (r : regex) (s : string) : option (string * list string) :=
  rmatch r s [] (fun rest caps => Some (rest, caps)).

(** [re.finditer(r, s)]: the leftmost matches, without overlap; each
    match is given by its groups.  None of the program's patterns
    matches the empty string. *)
Fixpoint finditer_go (r : regex) (s : string) (skip : nat)
  : list (list string) :=
  match s with
  | "" => []
  | String _ s' =>
      match skip with
      | S k => finditer_go r s' k
      | O =>
          match match_at r s with
          | Some (rest, caps) =>
              caps :: finditer_go r s'
                        (String.length s - String.length rest - 1)
          | None => finditer_go r s' 0
          end
      end
  end.
Definition finditer (r : regex) (s : string) : list (list string) :=
  finditer_go r s 0.

(** [re.search(r'\d+', s).group(0)]: the first maximal run of digits. *)
Fixpoint take_digits (s : string) : string :=
  match s with
  | "" => ""
  | String c s' => if is_digit c then String c (take_digits s') else ""
  end.
Fixpoint search_digits (s : string) : option string :=
  match s with
  | "" => None
  | String c s' => if is_digit c then Some (take_digits s) else search_digits s'
  end.

End Text.

(** ** The parsers of the block-device probe (rippa.py, lines 41-62) *)

(** The pattern of [parse_blkid_params]: a group of one or more word
    characters, an equals sign, a double quote, a group of one or more
    characters other than the double quote, a double quote. *)
Definition blkid_param_re : Text.regex :=
  Text.RSeq (Text.RGroup (Text.RPlus Text.is_word))
    (Text.RSeq (Text.RLit ("=" ++ Text.DQUOTE))
       (Text.RSeq (Text.RGroup (Text.RPlus Text.not_dquote))
          (Text.RLit Text.DQUOTE))).

(** [parse_blkid_params]: every match stores [group(2)] under [group(1)]. *)
Definition parse_blkid_params (params_str : string) : gmap string string :=
  fold_left
    (fun (params : gmap string string) (m : list string) =>
       match m with
       | [key; value] => <[key := value]> params
       | _ => params
       end)
    (Text.finditer blkid_param_re params_str) ∅.

(** [parse_blkid]: one entry per non-empty line; [parts[1]] raises
    [IndexError] on a line without the separator. *)
Fixpoint parse_blkid_lines (lines : list string)
         (blkid : gmap string (gmap string string))
  : res (gmap string (gmap string string)) :=
  match lines with
  | [] => Ok blkid
  | line :: rest =>
      if String.eqb line "" then parse_blkid_lines rest blkid
      else
        let parts := Text.split line ": " in
        match parts with
        | blk :: params_str :: _ =>
            let params := parse_blkid_params params_str in
            parse_blkid_lines rest (<[blk := params]> blkid)
        | _ => Raise IndexError
        end
  end.

Definition parse_blkid (blkid_str : string)
  : res (gmap string (gmap string string)) :=
  parse_blkid_lines (Text.split blkid_str Text.LF) ∅.

(** ** The fingerprint of an audio disc (rippa.py, lines 64-74) *)

(** CPython's hash of a tuple of integers (64-bit build, version 3.8 and
    later): the xxHash-style mix of [Objects/tupleobject.c] over the
    hashes of the items, an integer [n] hashing to [n] modulo [2^61 - 1]
    with its sign, [-1] being replaced by [-2].  Hash randomisation does
    not apply to integers or tuples.  The program below takes [hash] as a
    parameter; this definition is the instance used to run it. *)
Module CPython.

Definition two64 : Z := 2 ^ 64.
Definition wrap (z : Z) : Z := z mod two64.
Definition XXPRIME_1 : Z := 11400714785074694791.
Definition XXPRIME_2 : Z := 14029467366897019727.
Definition XXPRIME_5 : Z := 2870177450012600261.
Definition rotl31 (x : Z) : Z :=
  wrap (Z.lor (Z.shiftl x 31) (Z.shiftr x 33)).

Definition long_hash (n : Z) : Z :=
  let h := Z.sgn n * (Z.abs n mod (2 ^ 61 - 1)) in
  if h =? -1 then -2 else h.

Definition to_signed (u : Z) : Z :=
  if u <? 2 ^ 63 then u else u - two64.

Definition tuplehash (items : list Z) : Z :=
  let acc :=
    fold_left
      (fun acc n =>
         let lane := wrap (long_hash n) in
         let acc := wrap (acc + lane * XXPRIME_2) in
         let acc := rotl31 acc in
         wrap (acc * XXPRIME_1))
      items XXPRIME_5 in
  let acc :=
    wrap (acc + Z.lxor (Z.of_nat (List.length items))
                       (Z.lxor XXPRIME_5 3527539)) in
  if acc =? two64 - 1 then 1546275796 else to_signed acc.

End CPython.

Section Fingerprint.

(** Python's built-in [hash] on a tuple of integers. *)
Variable py_hash : list Z -> Z.

(** The loop of [cdparanoia_hash]: a line that does not split into
    exactly 8 fields is skipped; [int(split[1])] raises [ValueError]
    when the second field is not an integer literal. *)
Fixpoint track_lengths (lines : list string) : res (list Z) :=
  match lines with
  | [] => Ok []
  | line :: rest =>
      let split := Text.split_ws line in
      if negb (List.length split =? 8)%nat then track_lengths rest
      else
        match split !! 1%nat with
        | None => Raise IndexError
        | Some field =>
            match Text.py_int field with
            | None => Raise (ValueError field)
            | Some n =>
                res_bind (track_lengths rest) (fun lengths => Ok (n :: lengths))
            end
        end
  end.

(** The lines that remain after the 6 lines of header and the 2 lines of
    footer are cut off. *)
Definition table_rows (cdp_str : string) : list string :=
  Text.slice_6_m2 (Text.split cdp_str Text.LF).

Definition cdparanoia_hash (cdp_str : string) : res Z :=
  res_bind (track_lengths (table_rows cdp_str))
           (fun lengths => Ok (py_hash lengths)).

End Fingerprint.

(** ** Effects: the world, the environment and the monad of the program *)

(** Python values that are stored in objects or handed to the logger. *)
Inductive pyval : Type :=
| VStr (s : string)
| VInt (z : Z)
| VBool (b : bool)
| VNone
| VList (l : list string)
| VDict (d : gmap string string)
| VExn (e : exn).

(** Truth value of [if v:]. *)
Definition truthy (v : pyval) : bool :=
  match v with
  | VStr s => negb (String.eqb s "")
  | VInt z => negb (z =? 0)
  | VBool b => b
  | VNone => false
  | VList l => negb (List.length l =? 0)%nat
  | VDict d => negb (size d =? 0)%nat
  | VExn _ => true
  end.

Inductive level : Type := DEBUG | INFO.

(** The calls that leave the program. *)
Inductive call : Type :=
| CCheckOutput (cmd : list string) (cwd : option string)
    (* subprocess.check_output(cmd, cwd=cwd, stderr=STDOUT), decoded *)
| CPopen (cmd : list string) (cwd : option string)
    (* subprocess.Popen(cmd, cwd=cwd, ...), its output read and decoded
       line by line, then process.wait() *)
| CGetsize (path : string)               (* os.path.getsize *)
| CSleep (seconds : Z)                   (* time.sleep *)
| CMakedirs (path : string)              (* os.makedirs(path, exist_ok=True) *)
| CRemove (path : string)                (* os.remove *)
| CListdir (path : string)               (* os.listdir *)
| CExists (path : string)                (* pathlib.Path(path).exists() *)
| CRmtree (path : string)                (* shutil.rmtree(path, ignore_errors=True) *)
| CMove (src dst : string)               (* shutil.move *)
| CChdir (path : string)                 (* os.chdir *)
| CGetcwd                                (* os.getcwd *)
| CAbspath (path : string)               (* os.path.abspath *)
| CUpdateMakeMkvKey (settings_path : pyval) (* makemkvkey.updateMakeMkvKey *)
| CStopped                               (* self._stop_event.is_set() *)
| CLog (lvl : level) (fmt : string) (args : list pyval). (* logging.debug/info *)

(** What a call answers. *)
Inductive resp : Type :=
| RUnit
| RStr (s : string)
| RInt (z : Z)
| RBool (b : bool)
| RList (l : list string)
| RProc (lines : list string) (exitcode : Z)
    (* the process wrote [lines], all of them valid UTF-8, and its exit
       code is [exitcode] *)
| RProcUndecodable (lines : list string) (exitcode : Z)
    (* the process wrote [lines] and then a line that is not valid UTF-8 *)
| RExn (e : exn).

Record event : Type := Ev { ev_call : call; ev_resp : resp }.

(** The environment answers each call from the history of all earlier
    calls and their answers: the file system, the drive, the external
    tools and the other threads are all behind it. *)
Definition env : Type := list event -> call -> resp.

(** The world as the program sees it: the calls made so far, oldest first,
    and the module-level list [_mounts]. *)
Record world : Type := World { history : list event; mounts : list string }.

Definition M (A : Type) : Type := env -> world -> world * res A.

Definition ret {A} (a : A) : M A := fun _ w => (w, Ok a).
Definition raise {A} (e : exn) : M A := fun _ w => (w, Raise e).
Definition bind {A B} (m : M A) (k : A -> M B) : M B :=
  fun E w =>
    match m E w with
    | (w', Ok a) => k a E w'
    | (w', Raise e) => (w', Raise e)
    end.
Definition lift {A} (r : res A) : M A := fun _ w => (w, r).

Declare Scope eff_scope.
Delimit Scope eff_scope with eff.
Notation "x <- m ;; k" := (bind m (fun x => k))
  (at level 100, m at next level, right associativity) : eff_scope.
Notation "m ;; k" := (bind m (fun _ => k))
  (at level 100, right associativity) : eff_scope.
Local Open Scope eff_scope.

(** [try: m except Exception as e: h e]. *)
Definition try_except {A} (m : M A) (h : exn -> M A) : M A :=
  fun E w =>
    match m E w with
    | (w', Ok a) => (w', Ok a)
    | (w', Raise e) => h e E w'
    end.

(** [try: m except <class> as e: h e], for the exceptions that [catches]
    selects; the others go on. *)
Definition try_except_only {A} (catches : exn -> bool) (m : M A)
           (h : exn -> M A) : M A :=
  try_except m (fun e => if catches e then h e else raise e).

(** [for x in l: body x]. *)
Fixpoint for_each {A} (l : list A) (body : A -> M unit) : M unit :=
  match l with
  | [] => ret tt
  | x :: l' => body x ;; for_each l' body
  end.

(** A call is appended to the history with the answer that the environment
    gives to it. *)
Definition perform (c : call) : M resp :=
  fun E w =>
    let r := E (history w) c in
    ({| history := (history w ++ [Ev c r])%list; mounts := mounts w |}, Ok r).

(** A call that has no answer to wait for. *)
Definition emit (c : call) : M unit :=
  fun _ w =>
    ({| history := (history w ++ [Ev c RUnit])%list; mounts := mounts w |},
     Ok tt).

(** The answer that a call expects; the exception that the answer carries
    is raised, an answer of another kind is refused. *)
Definition as_unit (r : resp) : res unit :=
  match r with RUnit => Ok tt | RExn e => Raise e | _ => Raise TypeError end.
Definition as_str (r : resp) : res string :=
  match r with RStr s => Ok s | RExn e => Raise e | _ => Raise TypeError end.
Definition as_int (r : resp) : res Z :=
  match r with RInt z => Ok z | RExn e => Raise e | _ => Raise TypeError end.
Definition as_bool (r : resp) : res bool :=
  match r with RBool b => Ok b | RExn e => Raise e | _ => Raise TypeError end.
Definition as_list (r : resp) : res (list string) :=
  match r with RList l => Ok l | RExn e => Raise e | _ => Raise TypeError end.
(** The standard output of a started process, as the program reads it:
    the lines that decode as UTF-8, in order, and whether a line that
    does not decode follows them. *)
Definition pipe : Type := (list string * bool)%type.

Definition as_proc (r : resp) : res (pipe * Z) :=
  match r with
  | RProc lines code => Ok ((lines, false), code)
  | RProcUndecodable lines code => Ok ((lines, true), code)
  | RExn e => Raise e
  | _ => Raise TypeError
  end.

Definition expect_unit (r : resp) : M unit := lift (as_unit r).
Definition expect_str (r : resp) : M string := lift (as_str r).
Definition expect_int (r : resp) : M Z := lift (as_int r).
Definition expect_bool (r : resp) : M bool := lift (as_bool r).
Definition expect_list (r : resp) : M (list string) := lift (as_list r).
Definition expect_proc (r : resp) : M (pipe * Z) := lift (as_proc r).

Definition logging (lvl : level) (fmt : string) (args : list pyval) : M unit :=
  emit (CLog lvl fmt args).
Definition time_sleep (seconds : Z) : M unit := emit (CSleep seconds).

Definition os_path_getsize (p : string) : M Z :=
  r <- perform (CGetsize p) ;; expect_int r.
Definition os_makedirs (p : string) : M unit :=
  r <- perform (CMakedirs p) ;; expect_unit r.
Definition os_remove (p : string) : M unit :=
  r <- perform (CRemove p) ;; expect_unit r.
Definition os_listdir (p : string) : M (list string) :=
  r <- perform (CListdir p) ;; expect_list r.
Definition path_exists (p : string) : M bool :=
  r <- perform (CExists p) ;; expect_bool r.
Definition shutil_rmtree_ignore_errors (p : string) : M unit :=
  _ <- perform (CRmtree p) ;; ret tt.
Definition shutil_move (src dst : string) : M unit :=
  r <- perform (CMove src dst) ;; expect_unit r.
Definition os_chdir (p : string) : M unit :=
  r <- perform (CChdir p) ;; expect_unit r.
Definition os_getcwd : M string :=
  r <- perform CGetcwd ;; expect_str r.
Definition os_path_abspath (p : string) : M string :=
  r <- perform (CAbspath p) ;; expect_str r.
Definition updateMakeMkvKey (settings_path : pyval) : M unit :=
  r <- perform (CUpdateMakeMkvKey settings_path) ;; expect_unit r.

(** The registry [_mounts]. *)
Definition mounts_append (mnt_path : string) : M unit :=
  fun _ w =>
    ({| history := history w; mounts := (mounts w ++ [mnt_path])%list |}, Ok tt).
Definition mounts_read : M (list string) := fun _ w => (w, Ok (mounts w)).

(** [os.path.basename] and [os.path.splitext(name)[0]]. *)
Fixpoint basename_go (s cur : string) : string :=
  match s with
  | "" => cur
  | String c s' =>
      if (nat_of_ascii c =? 47)%nat then basename_go s' ""
      else basename_go s' (cur ++ String c "")
  end.
Definition os_path_basename (p : string) : string := basename_go p "".

Fixpoint all_dots (s : string) : bool :=
  match s with
  | "" => true
  | String c s' => (nat_of_ascii c =? 46)%nat && all_dots s'
  end.

(** The root of a file name that holds no slash: the name up to its last
    dot, unless only dots come before that dot. *)
Fixpoint splitext_root_go (s : string) : option string :=
  match s with
  | "" => None
  | String c s' =>
      match splitext_root_go s' with
      | Some root => Some (String c root)
      | None => if (nat_of_ascii c =? 46)%nat then Some "" else None
      end
  end.
Definition splitext_root (name : string) : string :=
  match splitext_root_go name with
  | Some root => if all_dots root then name else root
  | None => name
  end.

(** ** Process Runner and Mount Manager (rippa.py, lines 17-91) *)

(** [log_subprocess_output(pipe)]: each line is decoded and logged; the
    line that does not decode raises [UnicodeDecodeError] from inside the
    loop. *)
Definition log_subprocess_output (stdout : pipe) : M unit :=
  for_each (fst stdout)
    (fun line => logging INFO "SUBPROCESS: %r" [VStr line]) ;;
  if snd stdout then raise UnicodeDecodeError else ret tt.

(** [execute(cmd, capture, cwd)].  With [capture] the stripped output is
    returned and a non-zero exit raises [CalledProcessError]; without it
    the output goes to the log line by line and, when all of it has been
    logged, a non-zero exit raises [Exception(exitcode)]. *)
Definition execute (cmd : list string) (capture : bool) (cwd : option string)
  : M (option string) :=
  if capture then
    r <- perform (CCheckOutput cmd cwd) ;;
    out <- expect_str r ;;
    ret (Some (Text.strip out))
  else
    r <- perform (CPopen cmd cwd) ;;
    p <- expect_proc r ;;
    log_subprocess_output (fst p) ;;
    if negb (snd p =? 0) then raise (PyException (snd p))
    else ret None.

Definition eject (drive : string) : M unit :=
  execute ["sudo"; "eject"; "-F"; drive] true None ;; ret tt.

Definition mount (drive mnt_path : string) : M unit :=
  os_makedirs mnt_path ;;
  execute ["sudo"; "mount"; drive; mnt_path] true None ;;
  mounts_append mnt_path.

Definition unmount (mnt_path : string) : M unit :=
  execute ["sudo"; "umount"; mnt_path] true None ;; ret tt.

Definition mount_cleanup : M unit :=
  ms <- mounts_read ;;
  for_each ms unmount.

(** ** Objects and classes (rippa.py, lines 94-217) *)

(** An instance is its attribute dictionary.  Reading an attribute that no
    constructor has set raises [AttributeError]: none of the classes below
    has class-level data attributes. *)
Abbreviation object := (gmap string pyval).

Definition getattr (self : object) (name : string) : M pyval :=
  match self !! name with
  | Some v => ret v
  | None => raise (AttributeError name)
  end.

(** The path attributes are strings (the constructors annotate them
    [str]); another value is refused with [TypeError]. *)
Definition attr_str (self : object) (name : string) : M string :=
  v <- getattr self name ;;
  match v with
  | VStr s => ret s
  | _ => raise TypeError
  end.

Definition attr_list (self : object) (name : string) : M (list string) :=
  v <- getattr self name ;;
  match v with
  | VList l => ret l
  | _ => raise TypeError
  end.

Definition attr_int (self : object) (name : string) : M Z :=
  v <- getattr self name ;;
  match v with
  | VInt z => ret z
  | _ => raise TypeError
  end.

(** [d[key]] on a dictionary. *)
Definition dict_get {V} (d : gmap string V) (key : string) : M V :=
  match d !! key with
  | Some v => ret v
  | None => raise (KeyError key)
  end.

Inductive class : Type :=
| C_Thread            (* threading.Thread *)
| C_StoppableThread
| C_LoopThread
| C_TranscodeThread
| C_RipThread.

(** The class statements of the source: [class StoppableThread(threading.Thread)],
    [class LoopThread(StoppableThread)], [class TranscodeThread(LoopThread)],
    [class RipThread(StoppableThread)]. *)
Definition base (c : class) : option class :=
  match c with
  | C_Thread => None
  | C_StoppableThread => Some C_Thread
  | C_LoopThread => Some C_StoppableThread
  | C_TranscodeThread => Some C_LoopThread
  | C_RipThread => Some C_StoppableThread
  end.

Inductive method : Type := m_run | m_loop_step.

(** Which class body defines which of the two methods. *)
Definition defines (c : class) (m : method) : bool :=
  match c, m with
  | C_Thread, m_run => true
  | C_LoopThread, m_run => true
  | C_LoopThread, m_loop_step => true
  | C_TranscodeThread, m_loop_step => true
  | C_RipThread, m_loop_step => true
  | _, _ => false
  end.

(** Method resolution: the class itself, then its bases, nearest first
    (single inheritance, at most four levels). *)
Fixpoint mro_from (depth : nat) (c : class) : list class :=
  match depth with
  | O => []
  | S d => c :: match base c with
                | Some b => mro_from d b
                | None => []
                end
  end.
Definition mro (c : class) : list class := mro_from 4 c.

Definition resolve (c : class) (m : method) : option class :=
  List.find (fun k => defines k m) (mro c).

(** [threading.Thread.__init__()] without arguments leaves the target
    unset; [StoppableThread.__init__] adds nothing that the run loop reads
    but the stop event, which lives behind [CStopped]. *)
Definition Thread_init : object := {[ "_target" := VNone ]}.

(** [threading.Thread.run]: call the target if there is one.  The program
    never passes a target; a target that is not [None] is outside the model. *)
Definition Thread_run (self : object) : M unit :=
  target <- getattr self "_target" ;;
  match target with
  | VNone => ret tt
  | _ => raise TypeError
  end.

Module StoppableThread.
Definition init : object := Thread_init.
Definition stopped : M bool :=
  r <- perform CStopped ;; expect_bool r.
End StoppableThread.

Module LoopThread.

(** [__init__(self, interval=5)]. *)
Definition init (interval : Z) : object :=
  <[ "_interval" := VInt interval ]> StoppableThread.init.

Definition loop_step : M unit := ret tt.

(** [run]: [while not self.stopped(): self.loop_step(); time.sleep(self._interval)].
    [fuel] bounds the number of cycles that are followed; the answer is
    [true] when the loop was left because the stop signal was seen, and
    [false] when it was still running after [fuel] cycles. *)
Fixpoint run (fuel : nat) (self : object) (step : M unit) : M bool :=
  match fuel with
  | O => ret false
  | S n =>
      stop <- StoppableThread.stopped ;;
      if stop then ret true
      else
        step ;;
        interval <- attr_int self "_interval" ;;
        time_sleep interval ;;
        run n self step
  end.

End LoopThread.

(** ** The Transcode Watcher (rippa.py, lines 120-193) *)

Module TranscodeThread.

Definition default_ffmpeg_args : list string :=
  ["-c:v"; "libx264"; "-crf"; "18"; "-map"; "0";
   "-c:a"; "copy"; "-c:s"; "copy"].

Definition init (wip_root out_root : string)
           (ffmpeg_args : option (list string)) : object :=
  <[ "ffmpeg_args" := VList (default default_ffmpeg_args ffmpeg_args) ]>
    (<[ "out_root" := VStr out_root ]>
       (<[ "wip_root" := VStr wip_root ]> (LoopThread.init 5))).

Definition out_file_path_of (file_path out_path : string) : string :=
  let file_name := os_path_basename file_path in
  let file_no_ext := splitext_root file_name in
  out_path ++ "/" ++ file_no_ext ++ ".mp4".

Definition ffmpeg_cmd (ffmpeg_args : list string) (file_path out_path : string)
  : list string :=
  (["ffmpeg"; "-i"; file_path] ++ ffmpeg_args
     ++ [out_file_path_of file_path out_path])%list.

Definition transcode_file (self : object) (file_path out_path : string)
  : M unit :=
  size1 <- os_path_getsize file_path ;;
  logging DEBUG "size1: {size1}" [VInt size1] ;;
  if size1 <? 1024 * 1024 then
    logging DEBUG "File {file_path} is less than 1MB" [VStr file_path]
  else
    time_sleep 30 ;;
    size2 <- os_path_getsize file_path ;;
    logging DEBUG "size2: {size2}" [VInt size2] ;;
    if negb (size1 =? size2) then
      logging DEBUG
        "File {file_path} is not done being written (file size changed)"
        [VStr file_path]
    else
      os_makedirs out_path ;;
      ffmpeg_args <- attr_list self "ffmpeg_args" ;;
      let cmd := ffmpeg_cmd ffmpeg_args file_path out_path in
      logging DEBUG "Executing: {' '.join(cmd)}" [VStr (Text.join " " cmd)] ;;
      execute cmd false None ;;
      logging DEBUG "Removing file: {file_path}" [VStr file_path] ;;
      os_remove file_path.

(** The body of the [for file in files] loop, with its [try]. *)
Definition try_transcode_file (self : object) (wip_path out_path file : string)
  : M unit :=
  let file_path := wip_path ++ "/" ++ file in
  try_except (transcode_file self file_path out_path)
    (fun e =>
       logging DEBUG "transcode_file error: {e}" [VExn e] ;;
       logging DEBUG "Maybe MakeMKV is still ripping the disc?" []).

Definition transcode_disc (self : object) (disc_name : string) : M unit :=
  wip_root <- attr_str self "wip_root" ;;
  let wip_dvd_root := wip_root ++ "/dvd" in
  let wip_path := wip_dvd_root ++ "/" ++ disc_name in
  out_root <- attr_str self "out_root" ;;
  let out_path := out_root ++ "/" ++ disc_name in
  files <- os_listdir wip_path ;;
  logging DEBUG "Files: {files}" [VList files] ;;
  for_each files (try_transcode_file self wip_path out_path).

Definition loop_step (self : object) : M unit :=
  logging DEBUG "Transcode loop step" [] ;;
  wip_root <- attr_str self "wip_root" ;;
  let wip_dvd_root := wip_root ++ "/dvd" in
  discs <- os_listdir wip_dvd_root ;;
  for_each discs (fun disc_name =>
    logging DEBUG "Transcoding disc: {disc_name}" [VStr disc_name] ;;
    transcode_disc self disc_name).

End TranscodeThread.

(** ** The Rip Orchestrator (rippa.py, lines 196-357) *)

Module RipThread.

Definition opt_str (o : option string) : pyval :=
  match o with
  | Some s => VStr s
  | None => VNone
  end.

(** [__init__]: the nine assignments of the constructor, after
    [super().__init__()]. *)
Definition init (drive wip_path dvd_path redbook_path iso_path bluray_path
                   : string)
           (skip_eject makemkv_update_key : bool)
           (makemkv_settings_path : option string) : object :=
  <[ "makemkv_settings_path" := opt_str makemkv_settings_path ]>
    (<[ "makemkv_update_key" := VBool makemkv_update_key ]>
       (<[ "skip_eject" := VBool skip_eject ]>
          (<[ "bluray_path" := VStr bluray_path ]>
             (<[ "iso_path" := VStr iso_path ]>
                (<[ "redbook_path" := VStr redbook_path ]>
                   (<[ "dvd_path" := VStr dvd_path ]>
                      (<[ "wip_path" := VStr wip_path ]>
                         (<[ "drive" := VStr drive ]>
                            StoppableThread.init)))))))).

(** [int(re.search(r'\d+', drive).group(0))]: without a digit in the
    device path, [re.search] gives [None], which has no [group]. *)
Definition drive_id_of (drive : string) : M Z :=
  match Text.search_digits drive with
  | None => raise (AttributeError "group")
  | Some digits =>
      match Text.py_int digits with
      | Some n => ret n
      | None => raise (ValueError digits)
      end
  end.

Definition makemkv_cmd (drive_id : Z) (o_path_abs : string) : list string :=
  ["makemkvcon"; "mkv"; "disc:" ++ Text.str_of_Z drive_id; "all"; o_path_abs].

Definition rip_dvd (self : object) (blkid_params : gmap string string)
  : M unit :=
  label <- dict_get blkid_params "LABEL" ;;
  uuid <- dict_get blkid_params "UUID" ;;
  let disc_name := label ++ "-" ++ uuid in
  wip_root <- attr_str self "wip_root" ;;
  let wip_path := wip_root ++ "/dvd/" ++ disc_name in
  out_root <- attr_str self "out_root" ;;
  let out_path := out_root ++ "/" ++ disc_name in
  out_exists <- path_exists out_path ;;
  if out_exists then
    logging INFO "Output path exists: {out_path}" [VStr out_path]
  else
    update_key <- getattr self "makemkv_update_key" ;;
    (if truthy update_key then
       settings_path <- getattr self "makemkv_settings_path" ;;
       updateMakeMkvKey settings_path
     else ret tt) ;;
    logging INFO "Ripping DVD: {disc_name}" [VStr disc_name] ;;
    shutil_rmtree_ignore_errors wip_path ;;
    os_makedirs wip_path ;;
    os_makedirs out_path ;;
    drive <- attr_str self "drive" ;;
    drive_id <- drive_id_of drive ;;
    o_path_abs <- os_path_abspath wip_path ;;
    let cmd := makemkv_cmd drive_id o_path_abs in
    logging DEBUG "Executing: {' '.join(cmd)}" [VStr (Text.join " " cmd)] ;;
    execute cmd false None ;;
    ret tt.

Definition abcde_cmd (drive : string) : list string :=
  ["abcde"; "-d"; drive; "-o"; "flac"; "-B"; "-N"].

(** The command list of [rip_data_disc] as the source writes it: no
    comma stands between the literal [dd] and the f-string that follows
    it, so the two are one list element. *)
Definition dd_cmd (drive out_path : string) : list string :=
  ["dd" ++ "if=" ++ drive; "of=" ++ out_path; "status=progress"].

Definition rip_data_disc (self : object) (blkid_params : gmap string string)
  : M unit :=
  label <- dict_get blkid_params "LABEL" ;;
  uuid <- dict_get blkid_params "UUID" ;;
  let file_name := label ++ "-" ++ uuid ++ ".iso" in
  wip_root <- attr_str self "wip_root" ;;
  let wip_dir_path := wip_root ++ "/iso" in
  out_dir_path <- attr_str self "out_root" ;;
  let wip_path := wip_dir_path ++ "/" ++ file_name in
  let out_path := out_dir_path ++ "/" ++ file_name in
  out_exists <- path_exists out_path ;;
  if out_exists then
    logging INFO "Output path exists: {out_path}" [VStr out_path]
  else
    logging INFO "Ripping data disc: {file_name}" [VStr file_name] ;;
    os_makedirs wip_dir_path ;;
    os_makedirs out_dir_path ;;
    drive <- attr_str self "drive" ;;
    let cmd := dd_cmd drive out_path in
    logging DEBUG "Executing: {' '.join(cmd)}" [VStr (Text.join " " cmd)] ;;
    cwd <- os_getcwd ;;
    execute cmd false (Some cwd) ;;
    shutil_move wip_path out_path.

(** [rip_bluray]: declared, does nothing. *)
Definition rip_bluray (blkid_params : gmap string string) : M unit := ret tt.

Section WithHash.

Variable py_hash : list Z -> Z.

Definition rip_redbook (self : object) (cdp_str : string) : M unit :=
  cdp_hash <- lift (cdparanoia_hash py_hash cdp_str) ;;
  let cdp_hash := Text.hex_of_abs cdp_hash in
  out_dir_path <- attr_str self "out_root" ;;
  os_makedirs out_dir_path ;;
  folders <- os_listdir out_dir_path ;;
  match List.find (fun folder => Text.endswith folder cdp_hash) folders with
  | Some folder =>
      logging INFO "Redbook already ripped: {folder}" [VStr folder]
  | None =>
      logging INFO "Ripping redbook: {cdp_hash}" [VStr cdp_hash] ;;
      wip_root <- attr_str self "wip_root" ;;
      let wip_dir_path := wip_root ++ "/redbook" in
      os_makedirs wip_dir_path ;;
      pwd <- os_getcwd ;;
      os_chdir wip_dir_path ;;
      drive <- attr_str self "drive" ;;
      execute (abcde_cmd drive) false None ;;
      os_chdir pwd ;;
      albums <- os_listdir wip_dir_path ;;
      match albums with
      | [] => raise IndexError
      | album_name :: _ =>
          let out_path := out_dir_path ++ "/" ++ album_name ++ "-" ++ cdp_hash in
          shutil_move (wip_dir_path ++ "/" ++ album_name) out_path
      end
  end.

(** [if not self.skip_eject: eject(self.drive)]. *)
Definition eject_unless_skipped (self : object) : M unit :=
  skip_eject <- getattr self "skip_eject" ;;
  if negb (truthy skip_eject) then
    drive <- attr_str self "drive" ;;
    eject drive
  else ret tt.

(** The first [try] of [loop_step]: [blkid_str] stays [None] when the
    probe raises. *)
Definition probe_blkid (self : object) : M (option string) :=
  try_except
    (drive <- attr_str self "drive" ;;
     execute ["blkid"; drive] true None)
    (fun e => logging DEBUG "blkid error: %s" [VExn e] ;; ret None).

Definition no_blkid_output (blkid_str : option string) : bool :=
  match blkid_str with
  | None => true
  | Some s => (String.length s =? 0)%nat
  end.

Definition loop_step (self : object) : M unit :=
  blkid_str <- probe_blkid self ;;
  if no_blkid_output blkid_str then
    logging DEBUG "No blkid output" [] ;;
    try_except_only is_CalledProcessError
      (cdp_text <- execute ["cdparanoia"; "-sQ"] true None ;;
       logging INFO "Redbook disc detected" [] ;;
       match cdp_text with
       | Some cdp_text => rip_redbook self cdp_text
       | None => raise (AttributeError "split")
       end ;;
       eject_unless_skipped self)
      (fun e => logging DEBUG "No disc detected" [])
  else
    let blkid_str := default "" blkid_str in
    logging DEBUG "blkid_str: {blkid_str}" [VStr blkid_str] ;;
    blkid <- lift (parse_blkid blkid_str) ;;
    drive <- attr_str self "drive" ;;
    blkid_params <- dict_get blkid drive ;;
    logging DEBUG "params: {blkid_params}" [VDict blkid_params] ;;
    let mnt_path := "./mnt" ++ drive in
    try_except (mount drive mnt_path)
      (fun e => logging DEBUG "mount error: %s" [VExn e]) ;;
    is_dvd <- path_exists (mnt_path ++ "/VIDEO_TS") ;;
    (if is_dvd then rip_dvd self blkid_params
     else rip_data_disc self blkid_params) ;;
    eject_unless_skipped self.

End WithHash.

End RipThread.

(** ** Starting a thread *)

Section Threads.

Variable py_hash : list Z -> Z.

(** [self.loop_step()], by the class of [self]. *)
Definition call_loop_step (c : class) (self : object) : M unit :=
  match resolve c m_loop_step with
  | Some C_TranscodeThread => TranscodeThread.loop_step self
  | Some C_RipThread => RipThread.loop_step py_hash self
  | Some C_LoopThread => LoopThread.loop_step
  | _ => raise (AttributeError "loop_step")
  end.

(** [self.run()], by the class of [self]: what the new thread executes
    after [start()].  [fuel] is the bound of [LoopThread.run]. *)
Definition call_run (fuel : nat) (c : class) (self : object) : M bool :=
  match resolve c m_run with
  | Some C_LoopThread => LoopThread.run fuel self (call_loop_step c self)
  | Some C_Thread => Thread_run self ;; ret true
  | _ => raise (AttributeError "run")
  end.

End Threads.

(** * Properties *)

(** ** Block-probe parsing *)

Module BlkidExamples.

(** [/dev/sr0: LABEL=<q>MY_DVD<q> UUID=<q>1234-5678<q>], where [<q>] is
    the double quote. *)
Definition sr0_line : string :=
  "/dev/sr0: LABEL=" ++ Text.DQUOTE ++ "MY_DVD" ++ Text.DQUOTE
    ++ " UUID=" ++ Text.DQUOTE ++ "1234-5678" ++ Text.DQUOTE.

(** The same line for a disc whose label is [A: B]: the value holds a
    space, as the comment above [parse_blkid_params] allows, and no
    double quote. *)
Definition colon_label_line : string :=
  "/dev/sr0: LABEL=" ++ Text.DQUOTE ++ "A: B" ++ Text.DQUOTE
    ++ " UUID=" ++ Text.DQUOTE ++ "1234-5678" ++ Text.DQUOTE.

(** The part of [colon_label_line] after the device. *)
Definition colon_label_params : string :=
  "LABEL=" ++ Text.DQUOTE ++ "A: B" ++ Text.DQUOTE
    ++ " UUID=" ++ Text.DQUOTE ++ "1234-5678" ++ Text.DQUOTE.

End BlkidExamples.

(** The example of the specification parses to exactly the expected map. *)
Lemma parse_blkid_sr0_example :
  parse_blkid BlkidExamples.sr0_line
  = Ok {[ "/dev/sr0" := {[ "LABEL" := "MY_DVD"; "UUID" := "1234-5678" ]} ]}.
Proof. vm_compute. reflexivity. Qed.

(** Values with spaces are read whole by [parse_blkid_params]. *)
Lemma parse_blkid_params_colon_label :
  parse_blkid_params BlkidExamples.colon_label_params
  = {[ "LABEL" := "A: B"; "UUID" := "1234-5678" ]}.
Proof. vm_compute. reflexivity. Qed.

(** Beside that, a value that holds a colon followed by a space is lost:
    on the line whose label is [A: B], [parse_blkid] cuts the line at both
    occurrences of colon-space and keeps only the piece between them, in
    which the regular expression finds no complete pair, so the device is
    mapped to the empty map and not to the two pairs [LABEL], [UUID] that
    [parse_blkid_params] reads from the text after the device. *)
Lemma parse_blkid_loses_value_with_colon_space :
  Text.split BlkidExamples.colon_label_line ": "
  = ["/dev/sr0"; "LABEL=" ++ Text.DQUOTE ++ "A";
     "B" ++ Text.DQUOTE ++ " UUID=" ++ Text.DQUOTE ++ "1234-5678" ++ Text.DQUOTE]
  /\ parse_blkid BlkidExamples.colon_label_line = Ok {[ "/dev/sr0" := ∅ ]}
  /\ parse_blkid BlkidExamples.colon_label_line
     <> Ok {[ "/dev/sr0" := {[ "LABEL" := "A: B"; "UUID" := "1234-5678" ]} ]}.
Proof.
  split; [vm_compute; reflexivity|].
  assert (H : parse_blkid BlkidExamples.colon_label_line = Ok {[ "/dev/sr0" := ∅ ]})
    by (vm_compute; reflexivity).
  split; [exact H|].
  rewrite H. intros Heq.
  apply (f_equal (fun r : res (gmap string (gmap string string)) =>
                    match r with
                    | Ok m => m !! "/dev/sr0" ≫=
                                (fun p : gmap string string => p !! "LABEL")
                    | Raise _ => None
                    end)) in Heq.
  vm_compute in Heq. discriminate Heq.
Qed.

(** ** Strings *)

Lemma str_app_cons (c : ascii) (s t : string) :
  String c s ++ t = String c (s ++ t).
Proof. reflexivity. Qed.

Lemma str_app_nil_l (t : string) : "" ++ t = t.
Proof. reflexivity. Qed.

Lemma str_app_nil_r (s : string) : s ++ "" = s.
Proof.
  induction s as [|c s IH]; [reflexivity|].
  rewrite str_app_cons, IH. reflexivity.
Qed.

Lemma str_app_assoc (a b c : string) : (a ++ b) ++ c = a ++ b ++ c.
Proof.
  induction a as [|x a IH]; [reflexivity|].
  rewrite !str_app_cons, IH. reflexivity.
Qed.

Lemma str_length_app (a b : string) :
  String.length (a ++ b) = (String.length a + String.length b)%nat.
Proof.
  induction a as [|x a IH]; [reflexivity|].
  rewrite str_app_cons. cbn [String.length]. rewrite IH. reflexivity.
Qed.

Lemma prefix_app (p s : string) : String.prefix p (p ++ s) = true.
Proof.
  induction p as [|c p IH]; [destruct s; reflexivity|].
  rewrite str_app_cons. cbn [String.prefix].
  destruct (ascii_dec c c); [exact IH|congruence].
Qed.

Lemma drop_str_app (p s : string) : Text.drop_str (String.length p) (p ++ s) = s.
Proof.
  induction p as [|c p IH]; [reflexivity|].
  rewrite str_app_cons. exact IH.
Qed.

Lemma take_str_app (p s : string) : Text.take_str (String.length p) (p ++ s) = p.
Proof.
  induction p as [|c p IH]; [reflexivity|].
  rewrite str_app_cons. cbn [String.length Text.take_str]. rewrite IH.
  reflexivity.
Qed.

(** Every character of [s] is in the class [cls]. *)
Fixpoint all_in (cls : ascii -> bool) (s : string) : bool :=
  match s with
  | "" => true
  | String c s' => cls c && all_in cls s'
  end.

(** [s] starts with a character of the class. *)
Definition starts_in (cls : ascii -> bool) (s : string) : bool :=
  match s with
  | "" => false
  | String c _ => cls c
  end.

(** [sep] occurs in [s]. *)
Fixpoint occurs (sep s : string) : bool :=
  match s with
  | "" => String.prefix sep ""
  | String _ s' => String.prefix sep s || occurs sep s'
  end.

(** ** The matcher on one pair *)

Lemma match_plus_greedy {R} (cls : ascii -> bool) (x rest : string)
      (k : string -> option R) (r : R) :
  x <> "" -> all_in cls x = true -> starts_in cls rest = false ->
  k rest = Some r ->
  Text.match_plus cls (x ++ rest) k = Some r.
Proof.
  intros Hne Hall Hrest Hk. induction x as [|c x IH]; [congruence|].
  cbn in Hall. apply andb_true_iff in Hall as [Hc Hall].
  rewrite str_app_cons. cbn [Text.match_plus]. rewrite Hc.
  destruct x as [|c' x].
  - rewrite str_app_nil_l. destruct rest as [|c0 rest].
    + exact Hk.
    + cbn [Text.match_plus]. cbn [starts_in] in Hrest. rewrite Hrest. exact Hk.
  - rewrite IH; [reflexivity|discriminate|exact Hall].
Qed.

Definition key_ok (k : string) : bool :=
  negb (String.eqb k "") && all_in Text.is_word k.
Definition value_ok (v : string) : bool :=
  negb (String.eqb v "") && all_in Text.not_dquote v.

Definition render_pair (p : string * string) : string :=
  p.1 ++ "=" ++ Text.DQUOTE ++ p.2 ++ Text.DQUOTE.

Lemma match_at_pair (k v rest : string) :
  key_ok k = true -> value_ok v = true ->
  Text.match_at blkid_param_re (render_pair (k, v) ++ rest)
  = Some (rest, [k; v]).
Proof.
  unfold key_ok, value_ok. intros Hk Hv.
  apply andb_true_iff in Hk as [Hk1 Hk2]. apply andb_true_iff in Hv as [Hv1 Hv2].
  apply negb_true_iff, String.eqb_neq in Hk1, Hv1.
  unfold Text.match_at, blkid_param_re, render_pair. cbn [fst snd].
  cbn [Text.rmatch].
  rewrite !str_app_assoc.
  apply match_plus_greedy; [exact Hk1|exact Hk2|reflexivity|].
  cbn [app].
  replace (String.length (k ++ "=" ++ Text.DQUOTE ++ v ++ Text.DQUOTE ++ rest)
           - String.length ("=" ++ Text.DQUOTE ++ v ++ Text.DQUOTE ++ rest))%nat
    with (String.length k) by (rewrite str_length_app; lia).
  rewrite take_str_app.
  change ("=" ++ Text.DQUOTE ++ v ++ Text.DQUOTE ++ rest)
    with (("=" ++ Text.DQUOTE) ++ v ++ Text.DQUOTE ++ rest).
  rewrite prefix_app, drop_str_app.
  apply match_plus_greedy; [exact Hv1|exact Hv2|reflexivity|].
  replace (String.length (v ++ Text.DQUOTE ++ rest)
           - String.length (Text.DQUOTE ++ rest))%nat
    with (String.length v) by (rewrite str_length_app; lia).
  rewrite take_str_app, prefix_app, drop_str_app. reflexivity.
Qed.

(** ** [finditer] on a rendered parameter list *)

Definition render_params (pairs : list (string * string)) : string :=
  Text.join " " (map render_pair pairs).

Definition pair_ok (p : string * string) : bool := key_ok p.1 && value_ok p.2.

Lemma finditer_go_skip (r : Text.regex) (y rest : string) :
  Text.finditer_go r (y ++ rest) (String.length y) = Text.finditer_go r rest 0.
Proof.
  induction y as [|c y IH]; [reflexivity|].
  rewrite str_app_cons. exact IH.
Qed.

Lemma finditer_go_pair (k v rest : string) :
  key_ok k = true -> value_ok v = true ->
  Text.finditer_go blkid_param_re (render_pair (k, v) ++ rest) 0
  = [k; v] :: Text.finditer_go blkid_param_re rest 0.
Proof.
  intros Hk Hv.
  pose proof (match_at_pair k v rest Hk Hv) as Hm.
  assert (Hlen : String.length (render_pair (k, v) ++ rest)
                 = (String.length (render_pair (k, v)) + String.length rest)%nat)
    by apply str_length_app.
  destruct (render_pair (k, v)) as [|c y] eqn:Hy.
  { unfold render_pair, key_ok in *. cbn [fst snd] in Hy.
    destruct k; [discriminate Hk|discriminate Hy]. }
  rewrite str_app_cons in *. cbn [Text.finditer_go]. rewrite Hm. f_equal.
  rewrite Hlen. cbn [String.length].
  replace (S (String.length y) + String.length rest - String.length rest - 1)%nat
    with (String.length y) by lia.
  apply finditer_go_skip.
Qed.

Lemma join_one (sep x : string) : Text.join sep [x] = x.
Proof. reflexivity. Qed.

Lemma join_more (sep x y : string) (l : list string) :
  Text.join sep (x :: y :: l) = x ++ sep ++ Text.join sep (y :: l).
Proof. reflexivity. Qed.

Lemma finditer_params (pairs : list (string * string)) :
  forallb pair_ok pairs = true ->
  Text.finditer blkid_param_re (render_params pairs)
  = map (fun p => [p.1; p.2]) pairs.
Proof.
  unfold Text.finditer, render_params.
  induction pairs as [|[k v] pairs IH]; intros Hok; [reflexivity|].
  cbn [forallb] in Hok. apply andb_true_iff in Hok as [Hp Hok].
  unfold pair_ok in Hp. cbn [fst snd] in Hp.
  apply andb_true_iff in Hp as [Hk Hv].
  specialize (IH Hok).
  destruct pairs as [|p pairs].
  - change (map render_pair [(k, v)]) with [render_pair (k, v)].
    rewrite join_one, <- (str_app_nil_r (render_pair (k, v))).
    rewrite finditer_go_pair by assumption. reflexivity.
  - change (map render_pair ((k, v) :: p :: pairs))
      with (render_pair (k, v) :: render_pair p :: map render_pair pairs).
    rewrite join_more, finditer_go_pair by assumption.
    change (map (fun q : string * string => [q.1; q.2]) ((k, v) :: p :: pairs))
      with ([k; v] :: map (fun q : string * string => [q.1; q.2]) (p :: pairs)).
    f_equal. rewrite <- IH.
    change (" " ++ Text.join " " (render_pair p :: map render_pair pairs))
      with (String " " (Text.join " " (map render_pair (p :: pairs)))).
    reflexivity.
Qed.

Lemma fold_left_insert_pairs (pairs : list (string * string))
      (m : gmap string string) :
  fold_left (fun (params : gmap string string) (g : list string) =>
               match g with
               | [key; value] => <[key := value]> params
               | _ => params
               end)
            (map (fun p => [p.1; p.2]) pairs) m
  = list_to_map (reverse pairs) ∪ m.
Proof.
  revert m. induction pairs as [|[k v] pairs IH]; intros m.
  - cbn. rewrite (left_id_L ∅ (∪)). reflexivity.
  - cbn [map fold_left fst snd]. rewrite IH.
    rewrite reverse_cons, list_to_map_app, list_to_map_cons, list_to_map_nil.
    rewrite insert_empty, (insert_union_singleton_l m), (assoc_L (∪)).
    reflexivity.
Qed.

Lemma parse_blkid_params_rendered (pairs : list (string * string)) :
  forallb pair_ok pairs = true ->
  parse_blkid_params (render_params pairs) = list_to_map (reverse pairs).
Proof.
  intros Hok. unfold parse_blkid_params.
  rewrite (finditer_params pairs Hok), fold_left_insert_pairs.
  apply (right_id_L ∅ (∪)).
Qed.

(** ** [split] on a text with known separators *)

(** No occurrence of [sep] starts within [x] in the text [x ++ tail]. *)
Fixpoint no_match_within (sep x tail : string) : bool :=
  match x with
  | "" => true
  | String _ x' =>
      negb (String.prefix sep (x ++ tail)) && no_match_within sep x' tail
  end.

Lemma split_go_skip (sep y rest cur : string) :
  Text.split_go sep (y ++ rest) (String.length y) cur
  = Text.split_go sep rest 0 cur.
Proof.
  induction y as [|c y IH]; [reflexivity|].
  rewrite str_app_cons. exact IH.
Qed.

Lemma split_go_none (sep x cur : string) :
  occurs sep x = false -> Text.split_go sep x 0 cur = [cur ++ x].
Proof.
  revert cur. induction x as [|c x IH]; intros cur Hno.
  - cbn. rewrite str_app_nil_r. reflexivity.
  - cbn [occurs] in Hno. apply orb_false_iff in Hno as [Hp Hno].
    cbn [Text.split_go]. rewrite Hp, (IH _ Hno), str_app_assoc. reflexivity.
Qed.

Lemma split_go_cut (sep x rest cur : string) :
  sep <> "" ->
  no_match_within sep x (sep ++ rest) = true ->
  Text.split_go sep (x ++ sep ++ rest) 0 cur
  = (cur ++ x) :: Text.split_go sep rest 0 "".
Proof.
  intros Hsep. revert cur. induction x as [|c x IH]; intros cur Hno.
  - rewrite str_app_nil_l, str_app_nil_r.
    destruct sep as [|c0 sep']; [congruence|].
    rewrite str_app_cons. cbn [Text.split_go].
    replace (String.length (String c0 sep') - 1)%nat with (String.length sep')
      by (cbn [String.length]; lia).
    rewrite <- str_app_cons, prefix_app. f_equal. apply split_go_skip.
  - cbn [no_match_within] in Hno. apply andb_true_iff in Hno as [Hp Hno].
    apply negb_true_iff in Hp.
    rewrite str_app_cons in *. cbn [Text.split_go]. rewrite Hp.
    rewrite (IH _ Hno), str_app_assoc. reflexivity.
Qed.

Lemma no_match_within_lf (x tail : string) :
  occurs Text.LF x = false ->
  no_match_within Text.LF x (Text.LF ++ tail) = true.
Proof.
  induction x as [|c x IH]; intros Hno; [reflexivity|].
  cbn [occurs] in Hno. apply orb_false_iff in Hno as [Hp Hno].
  cbn [no_match_within]. rewrite (IH Hno), andb_true_r.
  apply negb_true_iff. rewrite str_app_cons.
  revert Hp. unfold Text.LF. cbn [String.prefix].
  destruct (ascii_dec (Text.chr 10) c); [|reflexivity].
  destruct x; discriminate.
Qed.

Lemma no_match_within_colon_space (x tail : string) :
  occurs ": " x = false ->
  no_match_within ": " x (": " ++ tail) = true.
Proof.
  induction x as [|c x IH]; intros Hno; [reflexivity|].
  cbn [occurs] in Hno. apply orb_false_iff in Hno as [Hp Hno].
  cbn [no_match_within]. rewrite (IH Hno), andb_true_r.
  apply negb_true_iff. rewrite str_app_cons.
  revert Hp. cbn [String.prefix].
  destruct (ascii_dec ":" c); [|reflexivity].
  destruct x as [|c' x].
  - intros _. reflexivity.
  - rewrite str_app_cons. cbn [String.prefix].
    destruct (ascii_dec " " c'); [|reflexivity].
    destruct x; discriminate.
Qed.

Lemma split_join_lines (lines : list string) :
  lines <> [] ->
  forallb (fun line => negb (occurs Text.LF line)) lines = true ->
  Text.split (Text.join Text.LF lines) Text.LF = lines.
Proof.
  unfold Text.split. induction lines as [|x lines IH]; [congruence|].
  intros _ Hok. cbn [forallb] in Hok. apply andb_true_iff in Hok as [Hx Hok].
  apply negb_true_iff in Hx.
  destruct lines as [|y lines].
  - rewrite join_one. apply (split_go_none _ _ "" Hx).
  - rewrite join_more, split_go_cut;
      [|discriminate|apply no_match_within_lf, Hx].
    rewrite str_app_nil_l, IH; [reflexivity|discriminate|exact Hok].
Qed.

(** ** [parse_blkid] on a rendered probe output *)

Definition render_line (e : string * list (string * string)) : string :=
  e.1 ++ ": " ++ render_params e.2.

Definition render_blkid (entries : list (string * list (string * string)))
  : string :=
  Text.join Text.LF (map render_line entries).

Definition entry_ok (e : string * list (string * string)) : bool :=
  negb (occurs Text.LF (render_line e))
  && negb (occurs ": " e.1)
  && negb (occurs ": " (render_params e.2))
  && forallb pair_ok e.2.

(** The mapping that the text stands for; of two lines for one device, or
    two pairs for one key, the later one counts. *)
Definition params_of (pairs : list (string * string)) : gmap string string :=
  list_to_map (reverse pairs).
Definition blkid_of (entries : list (string * list (string * string)))
  : gmap string (gmap string string) :=
  list_to_map (reverse (map (fun e => (e.1, params_of e.2)) entries)).

Lemma split_rendered_line (e : string * list (string * string)) :
  entry_ok e = true ->
  Text.split (render_line e) ": " = [e.1; render_params e.2].
Proof.
  unfold entry_ok. intros Hok.
  apply andb_true_iff in Hok as [Hok _].
  apply andb_true_iff in Hok as [Hok Hparams].
  apply andb_true_iff in Hok as [_ Hdev].
  apply negb_true_iff in Hdev, Hparams.
  unfold Text.split, render_line.
  rewrite split_go_cut;
    [|discriminate|apply no_match_within_colon_space, Hdev].
  rewrite str_app_nil_l, (split_go_none _ _ "" Hparams), str_app_nil_l.
  reflexivity.
Qed.

Lemma rendered_line_not_empty (e : string * list (string * string)) :
  String.eqb (render_line e) "" = false.
Proof. unfold render_line. destruct e as [[|c dev] pairs]; reflexivity. Qed.

Lemma parse_blkid_lines_rendered
      (entries : list (string * list (string * string)))
      (blkid : gmap string (gmap string string)) :
  forallb entry_ok entries = true ->
  parse_blkid_lines (map render_line entries) blkid
  = Ok (blkid_of entries ∪ blkid).
Proof.
  unfold blkid_of. revert blkid.
  induction entries as [|e entries IH]; intros blkid Hok.
  - cbn. rewrite (left_id_L ∅ (∪)). reflexivity.
  - cbn [forallb] in Hok. apply andb_true_iff in Hok as [He Hok].
    change (map render_line (e :: entries))
      with (render_line e :: map render_line entries).
    cbn [parse_blkid_lines].
    rewrite rendered_line_not_empty, (split_rendered_line e He).
    rewrite (IH _ Hok). f_equal.
    assert (Hpairs : forallb pair_ok e.2 = true).
    { unfold entry_ok in He. apply andb_true_iff in He as [_ He]. exact He. }
    rewrite (parse_blkid_params_rendered _ Hpairs).
    change (map (fun e0 : string * list (string * string) =>
                   (e0.1, params_of e0.2)) (e :: entries))
      with ((e.1, params_of e.2)
              :: map (fun e0 : string * list (string * string) =>
                        (e0.1, params_of e0.2)) entries).
    rewrite reverse_cons, list_to_map_app, list_to_map_cons, list_to_map_nil.
    rewrite insert_empty, (insert_union_singleton_l blkid), (assoc_L (∪)).
    reflexivity.
Qed.

(** C6, amended.  For every probe output made of lines
    [device: KEY=<q>value<q> KEY2=<q>value2<q>] joined by newlines, with
    keys of one or more word characters, values that are not empty and
    hold no double quote (spaces are fine), one space between the pairs,
    and no colon-space and no newline inside the device or the text after
    it, [parse_blkid] returns the mapping from each device to its
    key-to-value map. *)
Theorem parse_blkid_rendered
        (entries : list (string * list (string * string))) :
  forallb entry_ok entries = true ->
  parse_blkid (render_blkid entries) = Ok (blkid_of entries).
Proof.
  intros Hok. unfold parse_blkid, render_blkid.
  destruct entries as [|e entries]; [reflexivity|].
  rewrite split_join_lines.
  - rewrite (parse_blkid_lines_rendered _ _ Hok).
    rewrite (right_id_L ∅ (∪)). reflexivity.
  - discriminate.
  - rewrite forallb_forall in Hok. apply forallb_forall.
    intros line Hin. apply in_map_iff in Hin as (e' & <- & Hin).
    specialize (Hok e' Hin). unfold entry_ok in Hok.
    apply andb_true_iff in Hok as [Hok _].
    apply andb_true_iff in Hok as [Hok _].
    apply andb_true_iff in Hok as [Hok _]. exact Hok.
Qed.

Module BlkidCases.

(** A line with an empty label: [LABEL=<q><q>]. *)
Definition empty_label_line : string :=
"/dev/sr0: LABEL=" ++ Text.DQUOTE ++ Text.DQUOTE
  ++ " UUID=" ++ Text.DQUOTE ++ "1234-5678" ++ Text.DQUOTE.

Definition BACKSLASH : string := String (Text.chr 92) "".

(** A line whose label holds an escaped double quote, as [blkid] prints
  the label [a<q>b]: [LABEL=<q>a\<q>b<q>]. *)
Definition escaped_quote_line : string :=
"/dev/sr0: LABEL=" ++ Text.DQUOTE ++ "a" ++ BACKSLASH ++ Text.DQUOTE ++ "b"
  ++ Text.DQUOTE ++ " UUID=" ++ Text.DQUOTE ++ "1234-5678" ++ Text.DQUOTE.

Definition sr0_entries : list (string * list (string * string)) :=
[("/dev/sr0", [("LABEL", "MY_DVD"); ("UUID", "1234-5678")])].

End BlkidCases.

(** C6, as stated, fails on values that the stated form allows: a pair
    with an empty value is dropped, because the pattern asks for one
    character at least, and a value with an escaped double quote is cut
    at the backslash, because the pattern knows no escape. *)
Lemma parse_blkid_drops_empty_and_escaped_values :
  (parse_blkid BlkidCases.empty_label_line
   = Ok {[ "/dev/sr0" := {[ "UUID" := "1234-5678" ]} ]}
   /\ parse_blkid BlkidCases.empty_label_line
      <> Ok {[ "/dev/sr0" := {[ "LABEL" := ""; "UUID" := "1234-5678" ]} ]})
  /\ (parse_blkid BlkidCases.escaped_quote_line
      = Ok {[ "/dev/sr0" := {[ "LABEL" := "a" ++ BlkidCases.BACKSLASH;
                               "UUID" := "1234-5678" ]} ]}).
Proof.
  assert (H : parse_blkid BlkidCases.empty_label_line
              = Ok {[ "/dev/sr0" := {[ "UUID" := "1234-5678" ]} ]})
    by (vm_compute; reflexivity).
  split; [split; [exact H|]|vm_compute; reflexivity].
  rewrite H. intros Heq.
  apply (f_equal (fun r : res (gmap string (gmap string string)) =>
                    match r with
                    | Ok m => m !! "/dev/sr0" ≫=
                                (fun p : gmap string string => p !! "LABEL")
                    | Raise _ => None
                    end)) in Heq.
  vm_compute in Heq. discriminate Heq.
Qed.

(** The example of the specification is such an output. *)
Lemma parse_blkid_rendered_witness :
  render_blkid BlkidCases.sr0_entries = BlkidExamples.sr0_line
  /\ parse_blkid BlkidExamples.sr0_line
     = Ok {[ "/dev/sr0" := {[ "LABEL" := "MY_DVD"; "UUID" := "1234-5678" ]} ]}.
Proof.
  split; [vm_compute; reflexivity|].
  change BlkidExamples.sr0_line with (render_blkid BlkidCases.sr0_entries).
  rewrite (parse_blkid_rendered BlkidCases.sr0_entries);
    [|vm_compute; reflexivity].
  vm_compute. reflexivity.
Defined.

(** ** Fingerprinting *)

(** A row counts as a track row when it has exactly 8 fields; its length
    is the integer written in the field of index 1. *)
Definition is_track_row (row : string) : bool :=
  (List.length (Text.split_ws row) =? 8)%nat.

Definition row_length (row : string) : option Z :=
  Text.split_ws row !! 1%nat ≫= Text.py_int.

(** A row that the loop gets through: either it is skipped, or its length
    field is an integer literal. *)
Definition row_ok (row : string) : Prop :=
  is_track_row row = true -> is_Some (row_length row).

(** The track lengths in the words of the specification: the lengths of
    the well-formed rows, in order, every other row being discarded. *)
Definition spec_track_lengths (rows : list string) : list Z :=
  omap (fun row => if is_track_row row then row_length row else None) rows.

Lemma spec_track_lengths_cons (row : string) (rows : list string) :
  spec_track_lengths (row :: rows)
  = match (if is_track_row row then row_length row else None) with
    | Some n => n :: spec_track_lengths rows
    | None => spec_track_lengths rows
    end.
Proof. reflexivity. Qed.

Lemma track_lengths_cons (row : string) (rows : list string) :
  track_lengths (row :: rows)
  = if negb (is_track_row row) then track_lengths rows
    else match Text.split_ws row !! 1%nat with
         | None => Raise IndexError
         | Some field =>
             match Text.py_int field with
             | None => Raise (ValueError field)
             | Some n =>
                 res_bind (track_lengths rows) (fun lengths => Ok (n :: lengths))
             end
         end.
Proof. reflexivity. Qed.

Lemma track_lengths_ok (rows : list string) :
  Forall row_ok rows -> track_lengths rows = Ok (spec_track_lengths rows).
Proof.
  induction 1 as [|row rows Hrow _ IH]; [reflexivity|].
  rewrite track_lengths_cons, spec_track_lengths_cons.
  unfold row_ok in Hrow.
  destruct (is_track_row row); cbn [negb]; [|exact IH].
  destruct (Hrow eq_refl) as [n Hn]. rewrite Hn.
  unfold row_length in Hn.
  destruct (Text.split_ws row !! 1%nat) as [field|]; [|discriminate Hn].
  cbn in Hn. rewrite Hn, IH. reflexivity.
Qed.

Lemma track_lengths_raises (rows : list string) :
  ~ Forall row_ok rows -> exists field, track_lengths rows = Raise (ValueError field).
Proof.
  induction rows as [|row rows IH]; intros Hbad.
  - destruct Hbad. constructor.
  - rewrite track_lengths_cons.
    destruct (is_track_row row) eqn:Hrow; cbn [negb].
    + destruct (Text.split_ws row !! 1%nat) as [field|] eqn:Hfield.
      * destruct (Text.py_int field) as [n|] eqn:Hint; [|eauto].
        destruct IH as [f Hf].
        { intros Hall. apply Hbad. constructor; [|exact Hall].
          intros _. unfold row_length. rewrite Hfield. cbn. rewrite Hint. eauto. }
        rewrite Hf. cbn. eauto.
      * unfold is_track_row in Hrow. apply Nat.eqb_eq in Hrow.
        apply lookup_ge_None in Hfield. rewrite Hrow in Hfield. lia.
    + apply IH. intros Hall. apply Hbad. constructor; [|exact Hall].
      intros Hrow'. congruence.
Qed.

(** The slice [[6:-2]] cuts off a header of 6 lines and a footer of 2. *)
Lemma table_rows_strips (cdp_str : string) (header rows footer : list string) :
  Text.split cdp_str Text.LF = (header ++ rows ++ footer)%list ->
  List.length header = 6%nat -> List.length footer = 2%nat ->
  table_rows cdp_str = rows.
Proof.
  intros Hsplit Hh Hf. unfold table_rows, Text.slice_6_m2. rewrite Hsplit.
  rewrite !length_app, Hh, Hf.
  replace (6 + (List.length rows + 2) - 2)%nat
    with (List.length header + List.length rows)%nat by lia.
  rewrite app_assoc, <- length_app.
  rewrite firstn_app, firstn_all, Nat.sub_diag. cbn [firstn].
  rewrite app_nil_r.
  rewrite <- Hh. rewrite skipn_app, skipn_all, Nat.sub_diag. reflexivity.
Qed.

Module TocExamples.

Definition header : list string :=
  ["cdparanoia III release 10.2 (September 11, 2008)"; ""; " ";
   "Table of contents (audio tracks only):";
   "track        length               begin        copy pre ch";
   "==========================================================="].

Definition footer : list string :=
  ["TOTAL   22018 [04:53.43]    (audio only)"; ""].

Definition toc_of (rows : list string) : string :=
  Text.join Text.LF (header ++ rows ++ footer)%list.

(** Three tracks of lengths 150, 12045 and 9823. *)
Definition three_tracks : string :=
  toc_of ["  1.      150 [00:02.00]        0 [00:00.00]    no   no  2";
          "  2.    12045 [02:40.45]      150 [00:02.00]    no   no  2";
          "  3.     9823 [02:10.73]    12195 [02:42.45]    no   no  2"].

(** The same lengths on a disc that differs in everything else: another
    pre-gap, other flags, and one line that is no track row. *)
Definition three_tracks_other : string :=
  toc_of ["  1.      150 [00:02.00]       32 [00:00.32]    OK   no  2";
          "  (a note between the rows)";
          "  2.    12045 [02:40.45]      182 [00:02.32]    OK   no  2";
          "  3.     9823 [02:10.73]    12227 [02:43.02]    OK  yes  4"].


(** The same track, and a row of 8 fields whose second field is no
    integer. *)
Definition bad_length : string :=
  toc_of ["  1.      150 [00:02.00]        0 [00:00.00]    no   no  2";
          "  2.       ?? [02:40.45]      150 [00:02.00]    no   no  2"].


End TocExamples.

(** *** The extraction in the words of the specification *)

(** The header occupies the first 6 lines of the table text and the footer
    the last 2 lines; both are discarded.  The rows are what is left of
    the lines of the text when the first 6 are dropped and then the last
    2. *)
Definition spec_strip (lines : list string) : list string :=
  rev (skipn 2 (rev (skipn 6 lines))).

Definition spec_rows (table_text : string) : list string :=
  spec_strip (Text.split table_text Text.LF).

(** The ordered track-length sequence of a table text. *)
Definition spec_lengths (table_text : string) : list Z :=
  spec_track_lengths (spec_rows table_text).

(** The slice of the code keeps the rows of the specification. *)
Lemma slice_6_m2_spec_strip (lines : list string) :
  Text.slice_6_m2 lines = spec_strip lines.
Proof.
  unfold Text.slice_6_m2, spec_strip.
  rewrite List.skipn_rev, rev_involutive, length_skipn.
  destruct (Nat.le_gt_cases 8 (List.length lines)) as [Hlong|Hshort].
  - rewrite List.firstn_skipn_comm. f_equal. f_equal. lia.
  - replace (List.length lines - 6 - 2)%nat with 0%nat by lia.
    cbn [firstn]. apply skipn_all2. rewrite length_firstn. lia.
Qed.

Lemma table_rows_spec_rows (cdp_str : string) :
  table_rows cdp_str = spec_rows cdp_str.
Proof. apply slice_6_m2_spec_strip. Qed.

(** On a text whose rows of 8 fields all have an integer literal as field
    of index 1, the code returns the hash of the sequence that the
    specification extracts. *)
Lemma cdparanoia_hash_on_integer_rows (py_hash : list Z -> Z) (cdp_str : string) :
  Forall row_ok (spec_rows cdp_str) ->
  cdparanoia_hash py_hash cdp_str = Ok (py_hash (spec_lengths cdp_str)).
Proof.
  intros Hrows. unfold cdparanoia_hash, spec_lengths.
  rewrite table_rows_spec_rows, (track_lengths_ok _ Hrows). reflexivity.
Qed.

Lemma cdparanoia_hash_on_other_rows (py_hash : list Z -> Z) (cdp_str : string) :
  ~ Forall row_ok (spec_rows cdp_str) ->
  exists field, cdparanoia_hash py_hash cdp_str = Raise (ValueError field).
Proof.
  intros Hbad. unfold cdparanoia_hash. rewrite table_rows_spec_rows.
  destruct (track_lengths_raises _ Hbad) as [field Hf].
  rewrite Hf. eauto.
Qed.

(** A text is well formed when each of its rows is. *)
Ltac rows_ok :=
  lazymatch goal with
  | |- Forall row_ok ?rows =>
      let rows' := eval vm_compute in rows in
      change (Forall row_ok rows');
      repeat (constructor;
              [intros Hrow; vm_compute in Hrow;
               first [discriminate Hrow|vm_compute; eexists; reflexivity]|]);
      constructor
  end.




(** C8, as stated, fails: a row of 8 fields whose second field is not an
    integer literal makes [int] raise [ValueError]; no integer is returned. *)
Lemma cdparanoia_hash_not_total :
  cdparanoia_hash CPython.tuplehash TocExamples.bad_length
  = Raise (ValueError "??")
  /\ ~ (forall cdp_str : string,
          exists n : Z, cdparanoia_hash CPython.tuplehash cdp_str = Ok n).
Proof.
  assert (H : cdparanoia_hash CPython.tuplehash TocExamples.bad_length
              = Raise (ValueError "??")) by (vm_compute; reflexivity).
  split; [exact H|].
  intros Hall. destruct (Hall TocExamples.bad_length) as [n Hn].
  rewrite H in Hn. discriminate Hn.
Qed.

(** C8, amended.  The function strips the 6 header lines and the 2 footer
    lines, discards the rows that do not have exactly 8 fields and reads
    the length of each other row from its field of index 1.  It returns
    an integer, the hash of these lengths in order, for every text in
    which that field is an integer literal in each row of 8 fields; on
    every other text it raises [ValueError]. *)
Theorem cdparanoia_hash_total_on_integer_rows
        (py_hash : list Z -> Z) (cdp_str : string) :
  (Forall row_ok (spec_rows cdp_str) ->
   cdparanoia_hash py_hash cdp_str = Ok (py_hash (spec_lengths cdp_str)))
  /\ (~ Forall row_ok (spec_rows cdp_str) ->
      exists field,
        cdparanoia_hash py_hash cdp_str = Raise (ValueError field)).
Proof.
  split.
  - apply cdparanoia_hash_on_integer_rows.
  - apply cdparanoia_hash_on_other_rows.
Qed.

Lemma cdparanoia_hash_total_on_integer_rows_witness :
  spec_rows TocExamples.three_tracks_other
  = ["  1.      150 [00:02.00]       32 [00:00.32]    OK   no  2";
     "  (a note between the rows)";
     "  2.    12045 [02:40.45]      182 [00:02.32]    OK   no  2";
     "  3.     9823 [02:10.73]    12227 [02:43.02]    OK  yes  4"]
  /\ cdparanoia_hash CPython.tuplehash TocExamples.three_tracks_other
     = Ok (CPython.tuplehash [150; 12045; 9823]).
Proof.
  split; [vm_compute; reflexivity|].
  apply (proj1 (cdparanoia_hash_total_on_integer_rows CPython.tuplehash
                  TocExamples.three_tracks_other)).
  rows_ok.
Defined.

(** X6.  The other rows make it raise: the function returns an integer exactly
    on the texts of the amended claim. *)
Lemma cdparanoia_hash_raises_otherwise
      (py_hash : list Z -> Z) (cdp_str : string) :
  ~ Forall row_ok (table_rows cdp_str) ->
  exists field, cdparanoia_hash py_hash cdp_str = Raise (ValueError field).
Proof.
  intros Hbad. unfold cdparanoia_hash.
  destruct (track_lengths_raises _ Hbad) as [field Hf].
  rewrite Hf. eauto.
Qed.

(** ** A program logic for traces *)

Section TraceLogic.

Context (E : env) (P : event -> Prop).

(** [emits m Q]: under the environment [E] and from any world, [m] keeps
    the history and appends to it only events that satisfy [P], and its
    result satisfies [Q]. *)
Definition emits {A} (m : M A) (Q : res A -> Prop) : Prop :=
  forall w, exists t,
    history (m E w).1 = (history w ++ t)%list
    /\ Forall P t
    /\ Q (m E w).2.

Lemma emits_ret {A} (a : A) (Q : res A -> Prop) :
  Q (Ok a) -> emits (ret a) Q.
Proof.
  intros HQ w. exists []. cbn. rewrite app_nil_r. auto.
Qed.

Lemma emits_raise {A} (e : exn) (Q : res A -> Prop) :
  Q (Raise e) -> emits (raise e) Q.
Proof.
  intros HQ w. exists []. cbn. rewrite app_nil_r. auto.
Qed.

Lemma emits_lift {A} (r : res A) (Q : res A -> Prop) :
  Q r -> emits (lift r) Q.
Proof.
  intros HQ w. exists []. cbn. rewrite app_nil_r. auto.
Qed.

Lemma emits_bind {A B} (m : M A) (k : A -> M B)
      (Q1 : res A -> Prop) (Q : res B -> Prop) :
  emits m Q1 ->
  (forall a, Q1 (Ok a) -> emits (k a) Q) ->
  (forall e, Q1 (Raise e) -> Q (Raise e)) ->
  emits (bind m k) Q.
Proof.
  intros Hm Hk He w. destruct (Hm w) as (t1 & Hh1 & Ht1 & HQ1).
  unfold bind. destruct (m E w) as [w1 [a|e]]; cbn in *.
  - destruct (Hk a HQ1 w1) as (t2 & Hh2 & Ht2 & HQ2).
    exists (t1 ++ t2)%list. rewrite Hh2, Hh1, app_assoc.
    split; [reflexivity|]. split; [apply Forall_app; auto|exact HQ2].
  - exists t1. auto.
Qed.

Lemma emits_try_except {A} (m : M A) (h : exn -> M A)
      (Q1 Q : res A -> Prop) :
  emits m Q1 ->
  (forall a, Q1 (Ok a) -> Q (Ok a)) ->
  (forall e, Q1 (Raise e) -> emits (h e) Q) ->
  emits (try_except m h) Q.
Proof.
  intros Hm Hok Hh w. destruct (Hm w) as (t1 & Hh1 & Ht1 & HQ1).
  unfold try_except. destruct (m E w) as [w1 [a|e]]; cbn in *.
  - exists t1. auto.
  - destruct (Hh e HQ1 w1) as (t2 & Hh2 & Ht2 & HQ2).
    exists (t1 ++ t2)%list. rewrite Hh2, Hh1, app_assoc.
    split; [reflexivity|]. split; [apply Forall_app; auto|exact HQ2].
Qed.

Lemma emits_weaken {A} (m : M A) (Q1 Q : res A -> Prop) :
  emits m Q1 -> (forall r, Q1 r -> Q r) -> emits m Q.
Proof.
  intros Hm HQ w. destruct (Hm w) as (t & Hh & Ht & HQ1). exists t. auto.
Qed.

(** The answer to a call is the one that the environment gives at some
    history. *)
Lemma emits_perform (c : call) :
  (forall r, P (Ev c r)) ->
  emits (perform c) (fun r => exists h, r = Ok (E h c)).
Proof.
  intros HP w. exists [Ev c (E (history w) c)]. cbn.
  split; [reflexivity|]. split; [auto|eauto].
Qed.

Lemma emits_emit (c : call) (Q : res unit -> Prop) :
  P (Ev c RUnit) -> Q (Ok tt) -> emits (emit c) Q.
Proof.
  intros HP HQ w. exists [Ev c RUnit]. cbn. auto.
Qed.

(** A call whose answer is read by [conv]. *)
Lemma emits_ask {A} (c : call) (conv : resp -> res A) :
  (forall r, P (Ev c r)) ->
  emits (bind (perform c) (fun r => lift (conv r)))
        (fun r => exists h, r = conv (E h c)).
Proof.
  intros HP w. exists [Ev c (E (history w) c)]. cbn.
  split; [reflexivity|]. split; [auto|eauto].
Qed.

Lemma emits_for_each {A} (l : list A) (body : A -> M unit) :
  (forall x, emits (body x) (fun _ => True)) ->
  emits (for_each l body) (fun _ => True).
Proof.
  intros Hbody. induction l as [|x l IH]; cbn [for_each].
  - apply emits_ret. exact I.
  - eapply emits_bind; [apply Hbody|intros; apply IH|auto].
Qed.

Lemma emits_for_each_ok {A} (l : list A) (body : A -> M unit) :
  (forall x, emits (body x) (fun r => r = Ok tt)) ->
  emits (for_each l body) (fun r => r = Ok tt).
Proof.
  intros Hbody. induction l as [|x l IH]; cbn [for_each].
  - apply emits_ret. reflexivity.
  - eapply emits_bind; [apply Hbody|intros; apply IH|].
    intros e He. discriminate He.
Qed.

(** Reading an attribute or a key adds no event. *)
Lemma emits_getattr (self : object) (name : string) :
  emits (getattr self name)
        (fun r => match r with
                  | Ok v => self !! name = Some v
                  | Raise _ => True
                  end).
Proof.
  unfold getattr. destruct (self !! name) eqn:Hv.
  - apply emits_ret. reflexivity.
  - apply emits_raise. exact I.
Qed.

Lemma emits_attr_str (self : object) (name : string) :
  emits (attr_str self name)
        (fun r => match r with
                  | Ok s => self !! name = Some (VStr s)
                  | Raise _ => True
                  end).
Proof.
  unfold attr_str. eapply emits_bind; [apply emits_getattr| |auto].
  intros v Hv. destruct v; try (apply emits_raise; exact I).
  apply emits_ret. exact Hv.
Qed.

Lemma emits_dict_get {V} (d : gmap string V) (key : string) :
  emits (dict_get d key)
        (fun r => match r with
                  | Ok v => d !! key = Some v
                  | Raise _ => True
                  end).
Proof.
  unfold dict_get. destruct (d !! key) eqn:Hv.
  - apply emits_ret. reflexivity.
  - apply emits_raise. exact I.
Qed.

Lemma emits_logging (lvl : level) (fmt : string) (args : list pyval) :
  P (Ev (CLog lvl fmt args) RUnit) ->
  emits (logging lvl fmt args) (fun r => r = Ok tt).
Proof. intros HP. apply emits_emit; auto. Qed.

(** [execute] with capture: one [check_output] call. *)
Lemma emits_execute_capture (cmd : list string) (cwd : option string) :
  (forall r, P (Ev (CCheckOutput cmd cwd) r)) ->
  emits (execute cmd true cwd)
        (fun r => exists h,
             r = res_bind (as_str (E h (CCheckOutput cmd cwd)))
                          (fun out => Ok (Some (Text.strip out)))).
Proof.
  intros HP w. exists [Ev (CCheckOutput cmd cwd) (E (history w) (CCheckOutput cmd cwd))].
  unfold execute, bind, perform, expect_str, lift, ret. cbn.
  destruct (as_str (E (history w) (CCheckOutput cmd cwd))) eqn:Hr; cbn;
    (split; [reflexivity|]); (split; [auto|]);
    exists (history w); rewrite Hr; reflexivity.
Qed.

End TraceLogic.

(** [quiet E P m]: whatever [m] answers, it adds only events in [P]. *)
Definition quiet {A} (E : env) (P : event -> Prop) (m : M A) : Prop :=
  emits E P m (fun _ => True).

Lemma emits_quiet {A} (E : env) (P : event -> Prop) (m : M A)
      (Q : res A -> Prop) :
  emits E P m Q -> quiet E P m.
Proof. intros Hm. eapply emits_weaken; [exact Hm|auto]. Qed.

Lemma quiet_bind {A B} (E : env) (P : event -> Prop) (m : M A) (k : A -> M B) :
  quiet E P m -> (forall a, quiet E P (k a)) -> quiet E P (bind m k).
Proof. intros Hm Hk. eapply emits_bind; [exact Hm|intros; apply Hk|auto]. Qed.

Lemma quiet_try_except {A} (E : env) (P : event -> Prop) (m : M A)
      (h : exn -> M A) :
  quiet E P m -> (forall e, quiet E P (h e)) -> quiet E P (try_except m h).
Proof.
  intros Hm Hh. eapply emits_try_except; [exact Hm|auto|intros; apply Hh].
Qed.

Lemma quiet_perform (E : env) (P : event -> Prop) (c : call) :
  (forall r, P (Ev c r)) -> quiet E P (perform c).
Proof. intros HP. eapply emits_quiet, emits_perform, HP. Qed.

Lemma quiet_emit (E : env) (P : event -> Prop) (c : call) :
  P (Ev c RUnit) -> quiet E P (emit c).
Proof. intros HP. apply emits_emit; auto. Qed.

Lemma quiet_ret {A} (E : env) (P : event -> Prop) (a : A) : quiet E P (ret a).
Proof. apply emits_ret. exact I. Qed.

Lemma quiet_raise {A} (E : env) (P : event -> Prop) (e : exn) :
  quiet E P (raise e : M A).
Proof. apply emits_raise. exact I. Qed.

Lemma quiet_lift {A} (E : env) (P : event -> Prop) (r : res A) :
  quiet E P (lift r).
Proof. apply emits_lift. exact I. Qed.

Lemma quiet_for_each {A} (E : env) (P : event -> Prop) (l : list A)
      (body : A -> M unit) :
  (forall x, quiet E P (body x)) -> quiet E P (for_each l body).
Proof. apply emits_for_each. Qed.

Lemma quiet_mounts_append (E : env) (P : event -> Prop) (mnt_path : string) :
  quiet E P (mounts_append mnt_path).
Proof.
  intros w. exists []. cbn. rewrite app_nil_r. auto.
Qed.

(** Programs without branches on hidden state are [quiet] by their
    syntax, as long as each of their calls is in [P]. *)
Ltac quiet_unfold :=
  unfold dict_get, attr_str, attr_list, attr_int, getattr,
    os_path_getsize, os_makedirs, os_remove, os_listdir, path_exists,
    shutil_rmtree_ignore_errors, shutil_move, os_chdir, os_getcwd,
    os_path_abspath, updateMakeMkvKey, logging, time_sleep,
    expect_unit, expect_str, expect_int, expect_bool, expect_list, expect_proc,
    log_subprocess_output, eject, mount, unmount, execute,
    try_except_only.

Ltac quiet_step :=
  lazymatch goal with
  | |- quiet _ _ (bind _ _) => apply quiet_bind; [|intros]
  | |- quiet _ _ (try_except _ _) => apply quiet_try_except; [|intros]
  | |- quiet _ _ (for_each _ _) => apply quiet_for_each; intros
  | |- quiet _ _ (perform _) =>
      apply quiet_perform; intros; first [exact I|reflexivity]
  | |- quiet _ _ (emit _) => apply quiet_emit; first [exact I|reflexivity]
  | |- quiet _ _ (ret _) => apply quiet_ret
  | |- quiet _ _ (raise _) => apply quiet_raise
  | |- quiet _ _ (lift _) => apply quiet_lift
  | |- quiet _ _ (mounts_append _) => apply quiet_mounts_append
  | |- quiet _ _ (if ?b then _ else _) => destruct b
  | |- quiet _ _ (match ?x with _ => _ end) => destruct x
  end.

Ltac as_quiet :=
  lazymatch goal with
  | |- emits ?E ?P ?m (fun _ => True) => change (quiet E P m)
  | _ => idtac
  end.

Ltac quiet_auto := as_quiet; repeat (quiet_unfold; cbv beta iota; quiet_step).


(** ** The mount registry *)

Definition mount_cmd (drive mnt_path : string) : list string :=
  ["sudo"; "mount"; drive; mnt_path].
Definition umount_cmd (mnt_path : string) : list string :=
  ["sudo"; "umount"; mnt_path].

(** The privileged mount command was run and came back without error. *)
Definition mount_command_succeeded (drive mnt_path : string) (w' : world) : Prop :=
  exists out, last (history w')
              = Some (Ev (CCheckOutput (mount_cmd drive mnt_path) None) (RStr out)).

Lemma mount_registers_on_success (drive mnt_path : string) (E : env) (w : world) :
  let w' := (mount drive mnt_path E w).1 in
  let r := (mount drive mnt_path E w).2 in
  (r = Ok tt /\ mounts w' = (mounts w ++ [mnt_path])%list
   /\ mount_command_succeeded drive mnt_path w')
  \/ ((exists e, r = Raise e) /\ mounts w' = mounts w
      /\ ~ mount_command_succeeded drive mnt_path w').
Proof.
  unfold mount, os_makedirs, execute, mounts_append, mount_command_succeeded,
    mount_cmd, expect_unit, expect_str, perform, bind, lift, ret.
  cbn.
  destruct (E (history w) (CMakedirs mnt_path)) eqn:Hmk; cbn;
    try (right; split; [eauto|]; split; [reflexivity|];
         intros [out Hout]; rewrite last_snoc in Hout; discriminate Hout).
  destruct (E _ (CCheckOutput _ None)) eqn:Hrun; cbn;
    try (right; split; [eauto|]; split; [reflexivity|];
         intros [out Hout]; rewrite last_snoc in Hout; discriminate Hout).
  left. split; [reflexivity|]. split; [reflexivity|].
  exists s. rewrite last_snoc. reflexivity.
Qed.

Lemma unmount_keeps_registry (mnt_path : string) (E : env) (w : world) :
  mounts (unmount mnt_path E w).1 = mounts w.
Proof.
  unfold unmount, execute, expect_str, perform, bind, lift, ret. cbn.
  destruct (E (history w) (CCheckOutput _ None)); reflexivity.
Qed.

Lemma for_each_unmount_keeps_registry (ms : list string) (E : env) (w : world) :
  mounts (for_each ms unmount E w).1 = mounts w.
Proof.
  revert w. induction ms as [|mnt ms IH]; intros w; [reflexivity|].
  cbn [for_each]. unfold bind.
  pose proof (unmount_keeps_registry mnt E w) as Hm.
  destruct (unmount mnt E w) as [w1 [[]|e]]; cbn in *; [|exact Hm].
  rewrite IH. exact Hm.
Qed.

Lemma mount_cleanup_keeps_registry (E : env) (w : world) :
  mounts (mount_cleanup E w).1 = mounts w.
Proof.
  unfold mount_cleanup, mounts_read, bind. cbn.
  apply for_each_unmount_keeps_registry.
Qed.

(** ** The rip routines on a constructed [RipThread] *)

(** The error of the identity computation [blkid_params['LABEL']],
    [blkid_params['UUID']] when a key is missing, and [e] otherwise. *)
Definition missing_key_or (blkid_params : gmap string string) (e : exn) : exn :=
  match blkid_params !! "LABEL" with
  | None => KeyError "LABEL"
  | Some _ =>
      match blkid_params !! "UUID" with
      | None => KeyError "UUID"
      | Some _ => e
      end
  end.

Section ConstructedRipThread.

Variables (drive wip_path dvd_path redbook_path iso_path bluray_path : string)
          (skip_eject makemkv_update_key : bool)
          (makemkv_settings_path : option string).

Let self : object :=
  RipThread.init drive wip_path dvd_path redbook_path iso_path bluray_path
    skip_eject makemkv_update_key makemkv_settings_path.

Lemma constructed_has_no_wip_root : self !! "wip_root" = None.
Proof. reflexivity. Qed.

Lemma constructed_has_no_out_root : self !! "out_root" = None.
Proof. reflexivity. Qed.

Lemma constructed_drive : self !! "drive" = Some (VStr drive).
Proof. reflexivity. Qed.

Lemma constructed_target : self !! "_target" = Some VNone.
Proof. reflexivity. Qed.

Lemma rip_dvd_constructed (blkid_params : gmap string string)
      (E : env) (w : world) :
  RipThread.rip_dvd self blkid_params E w
  = (w, Raise (missing_key_or blkid_params (AttributeError "wip_root"))).
Proof.
  unfold RipThread.rip_dvd, missing_key_or, dict_get, attr_str, getattr, bind.
  destruct (blkid_params !! "LABEL"); [|reflexivity].
  destruct (blkid_params !! "UUID"); [|reflexivity].
  cbn. rewrite constructed_has_no_wip_root. reflexivity.
Qed.

Lemma rip_data_disc_constructed (blkid_params : gmap string string)
      (E : env) (w : world) :
  RipThread.rip_data_disc self blkid_params E w
  = (w, Raise (missing_key_or blkid_params (AttributeError "wip_root"))).
Proof.
  unfold RipThread.rip_data_disc, missing_key_or, dict_get, attr_str, getattr,
    bind.
  destruct (blkid_params !! "LABEL"); [|reflexivity].
  destruct (blkid_params !! "UUID"); [|reflexivity].
  cbn. rewrite constructed_has_no_wip_root. reflexivity.
Qed.

Lemma rip_redbook_constructed (py_hash : list Z -> Z) (cdp_str : string)
      (E : env) (w : world) :
  RipThread.rip_redbook py_hash self cdp_str E w
  = (w, Raise match cdparanoia_hash py_hash cdp_str with
              | Ok _ => AttributeError "out_root"
              | Raise e => e
              end).
Proof.
  unfold RipThread.rip_redbook, attr_str, getattr, bind, lift.
  destruct (cdparanoia_hash py_hash cdp_str); [|reflexivity].
  rewrite constructed_has_no_out_root. reflexivity.
Qed.

Lemma call_run_constructed (py_hash : list Z -> Z) (fuel : nat)
      (E : env) (w : world) :
  call_run py_hash fuel C_RipThread self E w = (w, Ok true).
Proof.
  unfold call_run. cbn [resolve mro mro_from base defines List.find].
  unfold Thread_run, getattr, bind. rewrite constructed_target. reflexivity.
Qed.

End ConstructedRipThread.

(** ** One conversion attempt of the Transcode Watcher *)

Definition ev_log (lvl : level) (fmt : string) (args : list pyval) : event :=
  Ev (CLog lvl fmt args) RUnit.
Definition ev_sleep (seconds : Z) : event := Ev (CSleep seconds) RUnit.
Definition ev_subprocess_line (line : string) : event :=
  ev_log INFO "SUBPROCESS: %r" [VStr line].

Definition add_events (w : world) (t : list event) : world :=
  {| history := (history w ++ t)%list; mounts := mounts w |}.

Lemma add_events_nil (w : world) : add_events w [] = w.
Proof. destruct w. unfold add_events. cbn. rewrite app_nil_r. reflexivity. Qed.

Lemma add_events_app (w : world) (t1 t2 : list event) :
  add_events (add_events w t1) t2 = add_events w (t1 ++ t2).
Proof. unfold add_events. cbn. rewrite app_assoc. reflexivity. Qed.

Lemma perform_run (c : call) (E : env) (w : world) :
  perform c E w = (add_events w [Ev c (E (history w) c)], Ok (E (history w) c)).
Proof. reflexivity. Qed.

Lemma emit_run (c : call) (E : env) (w : world) :
  emit c E w = (add_events w [Ev c RUnit], Ok tt).
Proof. reflexivity. Qed.

Lemma for_each_log_lines_run (lines : list string) (E : env) (w : world) :
  for_each lines (fun line => logging INFO "SUBPROCESS: %r" [VStr line]) E w
  = (add_events w (map ev_subprocess_line lines), Ok tt).
Proof.
  revert w. induction lines as [|line lines IH]; intros w.
  - cbn. rewrite add_events_nil. reflexivity.
  - cbn [for_each]. unfold bind at 1.
    unfold logging at 1. rewrite emit_run. rewrite IH.
    rewrite add_events_app. reflexivity.
Qed.

Lemma log_subprocess_output_run (lines : list string) (undecodable : bool)
      (E : env) (w : world) :
  log_subprocess_output (lines, undecodable) E w
  = (add_events w (map ev_subprocess_line lines),
     if undecodable then Raise UnicodeDecodeError else Ok tt).
Proof.
  unfold log_subprocess_output, bind. cbn [fst snd].
  rewrite for_each_log_lines_run. destruct undecodable; reflexivity.
Qed.

(** [execute] without capture, by the answer to the [Popen] call. *)
Lemma execute_stream_run (cmd : list string) (cwd : option string)
      (E : env) (w : world) :
  execute cmd false cwd E w
  = let r := E (history w) (CPopen cmd cwd) in
    match as_proc r with
    | Raise e => (add_events w [Ev (CPopen cmd cwd) r], Raise e)
    | Ok ((lines, undecodable), code) =>
        (add_events w (Ev (CPopen cmd cwd) r :: map ev_subprocess_line lines),
         if undecodable then Raise UnicodeDecodeError
         else if negb (code =? 0) then Raise (PyException code) else Ok None)
    end.
Proof.
  unfold execute, bind at 1. rewrite perform_run. cbn zeta.
  unfold bind at 1, expect_proc, lift.
  destruct (as_proc (E (history w) (CPopen cmd cwd)))
    as [[[lines undecodable] code]|e]; [|reflexivity].
  unfold bind. cbn [fst snd]. rewrite log_subprocess_output_run.
  rewrite add_events_app. cbn [app].
  destruct undecodable; [reflexivity|].
  destruct (negb (code =? 0)); reflexivity.
Qed.

(** [execute] with capture. *)
Lemma execute_capture_run (cmd : list string) (cwd : option string)
      (E : env) (w : world) :
  execute cmd true cwd E w
  = let r := E (history w) (CCheckOutput cmd cwd) in
    (add_events w [Ev (CCheckOutput cmd cwd) r],
     res_bind (as_str r) (fun out => Ok (Some (Text.strip out)))).
Proof.
  unfold execute, bind at 1. rewrite perform_run. cbn zeta.
  unfold bind, expect_str, lift, ret.
  destruct (as_str (E (history w) (CCheckOutput cmd cwd))); reflexivity.
Qed.

Section Attempt.

Variables (file_path out_path : string)
          (ffmpeg_args : option (list string)).

(** The command of this attempt: the arguments are those given to the
    constructor, or the default ones. *)
Definition attempt_cmd : list string :=
  TranscodeThread.ffmpeg_cmd
    (default TranscodeThread.default_ffmpeg_args ffmpeg_args)
    file_path out_path.
Let cmd : list string := attempt_cmd.

(** The events up to the first sample, the second sample, and the call
    of the transcoder. *)
Definition sampled_once (size1 : Z) : list event :=
  [Ev (CGetsize file_path) (RInt size1);
   ev_log DEBUG "size1: {size1}" [VInt size1]].

Definition sampled_twice (size1 size2 : Z) : list event :=
  (sampled_once size1
   ++ [ev_sleep 30;
       Ev (CGetsize file_path) (RInt size2);
       ev_log DEBUG "size2: {size2}" [VInt size2]])%list.

Definition ready (size : Z) : list event :=
  (sampled_twice size size
   ++ [Ev (CMakedirs out_path) RUnit;
       ev_log DEBUG "Executing: {' '.join(cmd)}" [VStr (Text.join " " cmd)]])%list.

(** Every way in which one call of [transcode_file] can go: the events
    that it adds and its result. *)
Inductive attempt : list event -> res unit -> Prop :=
| attempt_no_size1 (r : resp) (e : exn) :
    as_int r = Raise e ->
    attempt [Ev (CGetsize file_path) r] (Raise e)
| attempt_small (size1 : Z) :
    size1 < 1024 * 1024 ->
    attempt (sampled_once size1
             ++ [ev_log DEBUG "File {file_path} is less than 1MB"
                        [VStr file_path]])%list
            (Ok tt)
| attempt_no_size2 (size1 : Z) (r : resp) (e : exn) :
    1024 * 1024 <= size1 ->
    as_int r = Raise e ->
    attempt (sampled_once size1
             ++ [ev_sleep 30; Ev (CGetsize file_path) r])%list
            (Raise e)
| attempt_changing (size1 size2 : Z) :
    1024 * 1024 <= size1 ->
    size1 <> size2 ->
    attempt (sampled_twice size1 size2
             ++ [ev_log DEBUG
                   "File {file_path} is not done being written (file size changed)"
                   [VStr file_path]])%list
            (Ok tt)
| attempt_no_out_dir (size : Z) (r : resp) (e : exn) :
    1024 * 1024 <= size ->
    as_unit r = Raise e ->
    attempt (sampled_twice size size ++ [Ev (CMakedirs out_path) r])%list
            (Raise e)
| attempt_no_spawn (size : Z) (r : resp) (e : exn) :
    1024 * 1024 <= size ->
    as_proc r = Raise e ->
    attempt (ready size ++ [Ev (CPopen cmd None) r])%list (Raise e)
| attempt_undecodable (size : Z) (lines : list string) (code : Z) :
    1024 * 1024 <= size ->
    attempt (ready size
             ++ Ev (CPopen cmd None) (RProcUndecodable lines code)
             :: map ev_subprocess_line lines)%list
            (Raise UnicodeDecodeError)
| attempt_transcoder_failed (size : Z) (lines : list string) (code : Z) :
    1024 * 1024 <= size ->
    code <> 0 ->
    attempt (ready size
             ++ Ev (CPopen cmd None) (RProc lines code)
             :: map ev_subprocess_line lines)%list
            (Raise (PyException code))
| attempt_transcoded (size : Z) (lines : list string) (r : resp) :
    1024 * 1024 <= size ->
    attempt (ready size
             ++ Ev (CPopen cmd None) (RProc lines 0)
             :: map ev_subprocess_line lines
             ++ [ev_log DEBUG "Removing file: {file_path}" [VStr file_path];
                 Ev (CRemove file_path) r])%list
            (as_unit r).

Lemma transcode_file_attempt (wip_root out_root : string)
      (E : env) (w : world) :
  let self := TranscodeThread.init wip_root out_root ffmpeg_args in
  exists t r,
    TranscodeThread.transcode_file self file_path out_path E w
    = (add_events w t, r)
    /\ attempt t r.
Proof.
  intros self. unfold TranscodeThread.transcode_file.
  unfold os_path_getsize at 1, expect_int, lift. unfold bind at 1 2.
  rewrite perform_run.
  destruct (E (history w) (CGetsize file_path)) eqn:H1;
    try (eexists _, _; split; [reflexivity|];
         eapply attempt_no_size1; reflexivity).
  cbn [as_int]. unfold bind at 1, logging at 1. rewrite emit_run.
  rewrite add_events_app. cbn [app].
  destruct (z <? 1024 * 1024) eqn:Hsmall.
  { unfold logging. rewrite emit_run, add_events_app.
    eexists _, _; split; [reflexivity|].
    apply (attempt_small z). apply Z.ltb_lt. exact Hsmall. }
  apply Z.ltb_ge in Hsmall.
  unfold bind at 1, time_sleep. rewrite emit_run, add_events_app. cbn [app].
  unfold os_path_getsize at 1, expect_int, lift. unfold bind at 1 2.
  rewrite perform_run, add_events_app. cbn [app].
  set (h2 := history _).
  destruct (E h2 (CGetsize file_path)) eqn:H2;
    try (eexists _, _; split; [reflexivity|];
         eapply (attempt_no_size2 z); [exact Hsmall|reflexivity]).
  cbn [as_int]. unfold bind at 1, logging at 1.
  rewrite emit_run, add_events_app. cbn [app].
  destruct (z =? z0) eqn:Heq; cbn [negb].
  2:{ unfold logging. rewrite emit_run, add_events_app.
      eexists _, _; split; [reflexivity|].
      apply (attempt_changing z z0); [exact Hsmall|].
      apply Z.eqb_neq. exact Heq. }
  apply Z.eqb_eq in Heq. subst z0.
  unfold os_makedirs at 1, expect_unit, lift. unfold bind at 1 2.
  rewrite perform_run, add_events_app. cbn [app].
  set (h3 := history _).
  destruct (E h3 (CMakedirs out_path)) eqn:H3;
    try (eexists _, _; split; [reflexivity|];
         eapply (attempt_no_out_dir z); [exact Hsmall|reflexivity]).
  cbn [as_unit].
  unfold attr_list, getattr. unfold bind at 1 2.
  replace (self !! "ffmpeg_args")
    with (Some (VList (default TranscodeThread.default_ffmpeg_args ffmpeg_args)))
    by reflexivity.
  cbn [ret]. fold attempt_cmd. fold cmd.
  unfold bind at 1, logging at 1. rewrite emit_run, add_events_app. cbn [app].
  unfold bind at 1. rewrite execute_stream_run. cbn zeta.
  set (h4 := history _).
  destruct (E h4 (CPopen cmd None)) eqn:H4; cbn [as_proc];
    try (rewrite add_events_app; eexists _, _; split; [reflexivity|];
         eapply (attempt_no_spawn z); [exact Hsmall|reflexivity]).
  rewrite add_events_app. cbn [app].
  destruct (exitcode =? 0) eqn:Hcode; cbn [negb].
  2:{ eexists _, _; split; [reflexivity|].
      apply (attempt_transcoder_failed z lines exitcode); [exact Hsmall|].
      apply Z.eqb_neq. exact Hcode. }
  apply Z.eqb_eq in Hcode. subst exitcode.
  unfold bind at 1, logging at 1. rewrite emit_run, add_events_app.
  unfold os_remove, expect_unit, lift. unfold bind.
  rewrite perform_run, add_events_app. cbn [app].
  eexists _, _; split; [reflexivity|].
  set (h5 := history _).
  pose proof (attempt_transcoded z lines (E h5 (CRemove file_path)) Hsmall)
    as Hdone.
  unfold ready, sampled_twice, sampled_once in Hdone.
  cbn [app] in Hdone.
  rewrite <- app_assoc. cbn [app]. exact Hdone.
  (* the output of the transcoder does not decode *)
  rewrite add_events_app. cbn [app].
  eexists _, _; split; [reflexivity|].
  apply (attempt_undecodable z lines exitcode Hsmall).
Qed.

End Attempt.

(** *** What a trace shows of an attempt *)

Definition count (f : event -> bool) (t : list event) : nat :=
  List.length (List.filter f t).

(** The file was passed to the transcoder: [ffmpeg -i file_path ...]. *)
Definition is_transcoder_call (file_path : string) (ev : event) : bool :=
  match ev_call ev with
  | CPopen (exe :: flag :: input :: _) _ =>
      String.eqb exe "ffmpeg" && String.eqb flag "-i"
      && String.eqb input file_path
  | _ => false
  end.

Definition is_removal (file_path : string) (ev : event) : bool :=
  match ev_call ev with
  | CRemove p => String.eqb p file_path
  | _ => false
  end.

(** The sizes that [os.path.getsize] answered for the file, in order. *)
Definition size_sample (file_path : string) (ev : event) : option Z :=
  match ev with
  | Ev (CGetsize p) (RInt size) =>
      if String.eqb p file_path then Some size else None
  | _ => None
  end.
Definition size_samples (file_path : string) (t : list event) : list Z :=
  omap (size_sample file_path) t.

Lemma count_app (f : event -> bool) (t1 t2 : list event) :
  count f (t1 ++ t2) = (count f t1 + count f t2)%nat.
Proof. unfold count. rewrite List.filter_app, length_app. reflexivity. Qed.

Lemma count_cons (f : event -> bool) (ev : event) (t : list event) :
  count f (ev :: t) = ((if f ev then 1 else 0) + count f t)%nat.
Proof. unfold count. cbn. destruct (f ev); reflexivity. Qed.

Lemma count_nil (f : event -> bool) : count f [] = 0%nat.
Proof. reflexivity. Qed.

Lemma count_pos_of_In (f : event -> bool) (ev : event) (t : list event) :
  In ev t -> f ev = true -> (0 < count f t)%nat.
Proof.
  intros Hin Hf. unfold count.
  assert (Hin' : In ev (List.filter f t)) by (apply List.filter_In; auto).
  destruct (List.filter f t); [destruct Hin'|cbn; lia].
Qed.

Lemma size_samples_app (file_path : string) (t1 t2 : list event) :
  size_samples file_path (t1 ++ t2)
  = (size_samples file_path t1 ++ size_samples file_path t2)%list.
Proof. unfold size_samples. apply omap_app. Qed.

Lemma size_samples_cons (file_path : string) (ev : event) (t : list event) :
  size_samples file_path (ev :: t)
  = match size_sample file_path ev with
    | Some size => size :: size_samples file_path t
    | None => size_samples file_path t
    end.
Proof. reflexivity. Qed.

Lemma size_samples_nil (file_path : string) : size_samples file_path [] = [].
Proof. reflexivity. Qed.

Lemma size_samples_lines (file_path : string) (lines : list string) :
  size_samples file_path (map ev_subprocess_line lines) = [].
Proof. induction lines as [|l lines IH]; [reflexivity|exact IH]. Qed.

Lemma count_lines (f : event -> bool) (lines : list string) :
  (forall line, f (ev_subprocess_line line) = false) ->
  count f (map ev_subprocess_line lines) = 0%nat.
Proof.
  intros Hf. induction lines as [|l lines IH]; [reflexivity|].
  cbn [map]. rewrite count_cons, Hf, IH. reflexivity.
Qed.

Section Gate.

Variables (file_path out_path : string)
          (ffmpeg_args : option (list string)).

Let cmd : list string := attempt_cmd file_path out_path ffmpeg_args.

Lemma cmd_is_transcoder_call (r : resp) :
  is_transcoder_call file_path (Ev (CPopen cmd None) r) = true.
Proof.
  unfold is_transcoder_call, cmd, attempt_cmd, TranscodeThread.ffmpeg_cmd.
  cbn. apply String.eqb_refl.
Qed.

Ltac count_events :=
  unfold ready, sampled_twice, sampled_once;
  repeat (rewrite ?count_app, ?count_cons, ?count_nil, ?size_samples_app,
           ?size_samples_lines, ?size_samples_cons, ?size_samples_nil,
           ?cmd_is_transcoder_call);
  rewrite ?count_lines by reflexivity;
  cbn;
  rewrite ?String.eqb_refl.

(** An attempt either stops before the transcoder, and then neither
    calls it nor removes the file, or it has seen two equal samples of
    1 MiB or more and calls the transcoder once. *)
Lemma attempt_summary (t : list event) (r : res unit) :
  attempt file_path out_path ffmpeg_args t r ->
  (count (is_transcoder_call file_path) t = 0%nat
   /\ count (is_removal file_path) t = 0%nat
   /\ forall size, size_samples file_path t = [size; size] ->
                   ~ In (Ev (CMakedirs out_path) RUnit) t)
  \/ (exists size,
         size_samples file_path t = [size; size]
         /\ 1024 * 1024 <= size
         /\ count (is_transcoder_call file_path) t = 1%nat
         /\ (count (is_removal file_path) t <= 1)%nat
         /\ exists r', In (Ev (CPopen cmd None) r') t).
Proof.
  fold cmd. intros Hat. destruct Hat.
  - left. count_events. repeat split.
    destruct r; try discriminate; cbn; discriminate.
  - left. count_events. repeat split. discriminate.
  - left. count_events. repeat split.
    destruct r; cbn; try discriminate.
  - left. count_events. repeat split.
    intros size Hs. injection Hs as -> ->. congruence.
  - left. count_events. repeat split.
    intros size' _ Hin. rewrite ?in_app_iff in Hin. cbn in Hin.
    destruct r; try discriminate;
      repeat (destruct Hin as [Hin|Hin]; try discriminate Hin); auto.
  - right. exists size. count_events. repeat split; try lia.
    eexists. rewrite ?in_app_iff. cbn. eauto 12.
  - right. exists size. count_events. repeat split; try lia.
    eexists. rewrite ?in_app_iff. cbn. eauto 12.
  - right. exists size. count_events. repeat split; try lia.
    eexists. rewrite ?in_app_iff. cbn. eauto 12.
  - right. exists size. count_events. repeat split; try lia.
    eexists. rewrite ?in_app_iff. cbn. eauto 12.
Qed.

(** The two samples of an attempt are separated by a sleep of 30
    seconds. *)
Lemma attempt_samples_apart (t : list event) (r : res unit)
      (size1 size2 : Z) :
  attempt file_path out_path ffmpeg_args t r ->
  size_samples file_path t = [size1; size2] ->
  exists t1 t2,
    t = (Ev (CGetsize file_path) (RInt size1) :: t1
         ++ ev_sleep 30 :: Ev (CGetsize file_path) (RInt size2) :: t2)%list.
Proof.
  fold cmd. intros Hat. destruct Hat; count_events; intros Hs.
  - destruct r; discriminate.
  - discriminate.
  - destruct r; discriminate.
  - injection Hs as -> ->. eexists [_], _. reflexivity.
  - injection Hs as -> ->. eexists [_], _. reflexivity.
  - injection Hs as -> ->. eexists [_], _. reflexivity.
  - injection Hs as -> ->. eexists [_], _. reflexivity.
  - injection Hs as -> ->. eexists [_], _. reflexivity.
  - injection Hs as -> ->. eexists [_], _. reflexivity.
Qed.

Lemma removal_not_in_lines (r : resp) (lines : list string) :
  ~ In (Ev (CRemove file_path) r) (map ev_subprocess_line lines).
Proof.
  intros Hin. apply in_map_iff in Hin as (line & Heq & _). discriminate Heq.
Qed.

(** The file is removed only as the last step of an attempt in which
    the transcoder came back with exit code 0. *)
Lemma attempt_removal_after_success (t : list event) (r : res unit)
      (r0 : resp) :
  attempt file_path out_path ffmpeg_args t r ->
  In (Ev (CRemove file_path) r0) t ->
  exists t1 lines t2,
    t = (t1 ++ Ev (CPopen cmd None) (RProc lines 0)
            :: t2 ++ [Ev (CRemove file_path) r0])%list.
Proof.
  fold cmd. intros Hat Hin.
  assert (Hcount : (0 < count (is_removal file_path) t)%nat).
  { apply (count_pos_of_In _ _ _ Hin). cbn. apply String.eqb_refl. }
  destruct Hat; revert Hcount; count_events; try lia; intros _.
  exists (ready file_path out_path ffmpeg_args size), lines,
    (map ev_subprocess_line lines
     ++ [ev_log DEBUG "Removing file: {file_path}" [VStr file_path]])%list.
  rewrite in_app_iff in Hin. cbn [In] in Hin. rewrite in_app_iff in Hin.
  cbn [In] in Hin.
  destruct Hin as [Hin|[Hin|[Hin|[Hin|[Hin|[]]]]]]; try discriminate Hin.
  - unfold ready, sampled_twice, sampled_once in Hin. cbn in Hin.
    repeat (destruct Hin as [Hin|Hin]; try discriminate Hin). destruct Hin.
  - destruct (removal_not_in_lines _ _ Hin).
  - injection Hin as ->. rewrite <- app_assoc. reflexivity.
Qed.

End Gate.

(** ** A disc directory of the Transcode Watcher *)

(** What the handler of [transcode_disc] adds after an attempt: nothing
    when the attempt returned, the two log records when it raised. *)
Definition caught (r : res unit) : list event :=
  match r with
  | Ok _ => []
  | Raise e =>
      [ev_log DEBUG "transcode_file error: {e}" [VExn e];
       ev_log DEBUG "Maybe MakeMKV is still ripping the disc?" []]
  end.

(** The events of one turn of the loop over the files: a whole attempt on
    the file, then what the handler logs. *)
Definition attempted (file_path out_path : string)
           (ffmpeg_args : option (list string)) (t : list event) : Prop :=
  exists ta r,
    attempt file_path out_path ffmpeg_args ta r /\ t = (ta ++ caught r)%list.

Section Disc.

Variables (wip_root out_root : string) (ffmpeg_args : option (list string)).

Let self : object := TranscodeThread.init wip_root out_root ffmpeg_args.

Lemma try_transcode_file_run (wip_path out_path file : string)
      (E : env) (w : world) :
  exists t,
    TranscodeThread.try_transcode_file self wip_path out_path file E w
    = (add_events w t, Ok tt)
    /\ attempted (wip_path ++ "/" ++ file) out_path ffmpeg_args t.
Proof.
  unfold TranscodeThread.try_transcode_file, try_except.
  destruct (transcode_file_attempt (wip_path ++ "/" ++ file) out_path
              ffmpeg_args wip_root out_root E w) as (ta & r & Hrun & Hat).
  fold self in Hrun. rewrite Hrun.
  exists (ta ++ caught r)%list. split; [|exists ta, r; auto].
  destruct r as [[]|e]; cbn [caught].
  - rewrite app_nil_r. reflexivity.
  - unfold bind, logging. rewrite !emit_run, !add_events_app. reflexivity.
Qed.

Lemma for_each_try_transcode_file (wip_path out_path : string)
      (files : list string) (E : env) (w : world) :
  exists ts,
    for_each files (TranscodeThread.try_transcode_file self wip_path out_path) E w
    = (add_events w (concat ts), Ok tt)
    /\ Forall2 (fun file t =>
                  attempted (wip_path ++ "/" ++ file) out_path ffmpeg_args t)
               files ts.
Proof.
  revert w. induction files as [|file files IH]; intros w.
  - exists []. cbn. rewrite add_events_nil. split; [reflexivity|constructor].
  - destruct (try_transcode_file_run wip_path out_path file E w)
      as (t & Hrun & Hat).
    destruct (IH (add_events w t)) as (ts & Hrest & Hall).
    exists (t :: ts). cbn [for_each concat]. unfold bind.
    rewrite Hrun, Hrest, add_events_app.
    split; [reflexivity|constructor; assumption].
Qed.

Definition disc_wip_path (disc_name : string) : string :=
  (wip_root ++ "/dvd") ++ "/" ++ disc_name.
Definition disc_out_path (disc_name : string) : string :=
  out_root ++ "/" ++ disc_name.

Lemma transcode_disc_run (disc_name : string) (files : list string)
      (E : env) (w : world) :
  E (history w) (CListdir (disc_wip_path disc_name)) = RList files ->
  exists ts,
    TranscodeThread.transcode_disc self disc_name E w
    = (add_events w
         (Ev (CListdir (disc_wip_path disc_name)) (RList files)
          :: ev_log DEBUG "Files: {files}" [VList files]
          :: concat ts),
       Ok tt)
    /\ Forall2 (fun file t =>
                  attempted (disc_wip_path disc_name ++ "/" ++ file)
                            (disc_out_path disc_name) ffmpeg_args t)
               files ts.
Proof.
  intros Hls. unfold TranscodeThread.transcode_disc.
  unfold attr_str, getattr. unfold bind at 1 2.
  replace (self !! "wip_root") with (Some (VStr wip_root)) by reflexivity.
  cbn [ret]. unfold bind at 1 2.
  replace (self !! "out_root") with (Some (VStr out_root)) by reflexivity.
  cbn [ret]. fold (disc_wip_path disc_name) (disc_out_path disc_name).
  unfold os_listdir, expect_list, lift. unfold bind at 1 2.
  rewrite perform_run, Hls. cbn [as_list].
  unfold bind at 1, logging. rewrite emit_run, add_events_app.
  destruct (for_each_try_transcode_file (disc_wip_path disc_name)
              (disc_out_path disc_name) files E
              (add_events w
                 ([Ev (CListdir (disc_wip_path disc_name)) (RList files)] ++
                  [Ev (CLog DEBUG "Files: {files}" [VList files]) RUnit])))
    as (ts & Hrun & Hall).
  exists ts. rewrite Hrun, add_events_app. split; [reflexivity|exact Hall].
Qed.

End Disc.

(** ** A poll cycle of the Rip Orchestrator on a disc already ripped *)

(** The orchestrator starts a streamed external process only to rip:
    [makemkvcon], [abcde] and the block copy are its three [execute] calls
    without capture. *)
Definition is_rip_invocation (ev : event) : bool :=
  match ev_call ev with
  | CPopen _ _ => true
  | _ => false
  end.

Definition no_rip (ev : event) : Prop := is_rip_invocation ev = false.

Definition blkid_cmd (drive : string) : list string := ["blkid"; drive].
Definition cdparanoia_cmd : list string := ["cdparanoia"; "-sQ"].
Definition mnt_path_of (drive : string) : string := "./mnt" ++ drive.

Section Quiet.

Context (E : env).

Lemma quiet_eject_unless_skipped (self : object) :
  quiet E no_rip (RipThread.eject_unless_skipped self).
Proof. unfold RipThread.eject_unless_skipped. quiet_auto. Qed.

Lemma quiet_mount (drive mnt_path : string) :
  quiet E no_rip (mount drive mnt_path).
Proof. quiet_auto. Qed.

End Quiet.

Section Skips.

Context (E : env).

Lemma emits_path_exists (p : string) (b : bool) :
  (forall h, E h (CExists p) = RBool b) ->
  emits E no_rip (path_exists p) (fun r => r = Ok b).
Proof.
  intros Hex. unfold path_exists, expect_bool.
  eapply emits_weaken; [apply emits_ask; intros; reflexivity|].
  intros r [h ->]. rewrite Hex. reflexivity.
Qed.

(** [rip_dvd] on a disc whose output directory exists: the check, a log
    record, nothing else. *)
Lemma rip_dvd_skips (self : object) (blkid_params : gmap string string)
      (label uuid : string) :
  blkid_params !! "LABEL" = Some label ->
  blkid_params !! "UUID" = Some uuid ->
  (forall out_root,
      self !! "out_root" = Some (VStr out_root) ->
      forall h, E h (CExists (out_root ++ "/" ++ label ++ "-" ++ uuid))
                = RBool true) ->
  quiet E no_rip (RipThread.rip_dvd self blkid_params).
Proof.
  intros Hlabel Huuid Hpresent. unfold RipThread.rip_dvd.
  eapply emits_bind; [apply emits_dict_get|intros l Hl|auto].
  eapply emits_bind; [apply emits_dict_get|intros u Hu|auto].
  assert (l = label) as -> by congruence.
  assert (u = uuid) as -> by congruence.
  eapply emits_bind; [apply emits_attr_str|intros wip_root _|auto].
  eapply emits_bind; [apply emits_attr_str|intros out_root Hout|auto].
  eapply emits_bind;
    [apply (emits_path_exists _ true), (Hpresent out_root Hout)| |auto].
  intros b Hb. injection Hb as ->. quiet_auto.
Qed.

Lemma rip_data_disc_skips (self : object) (blkid_params : gmap string string)
      (label uuid : string) :
  blkid_params !! "LABEL" = Some label ->
  blkid_params !! "UUID" = Some uuid ->
  (forall out_root,
      self !! "out_root" = Some (VStr out_root) ->
      forall h, E h (CExists (out_root ++ "/" ++ label ++ "-" ++ uuid ++ ".iso"))
                = RBool true) ->
  quiet E no_rip (RipThread.rip_data_disc self blkid_params).
Proof.
  intros Hlabel Huuid Hpresent. unfold RipThread.rip_data_disc.
  eapply emits_bind; [apply emits_dict_get|intros l Hl|auto].
  eapply emits_bind; [apply emits_dict_get|intros u Hu|auto].
  assert (l = label) as -> by congruence.
  assert (u = uuid) as -> by congruence.
  eapply emits_bind; [apply emits_attr_str|intros wip_root _|auto].
  eapply emits_bind; [apply emits_attr_str|intros out_root Hout|auto].
  eapply emits_bind;
    [apply (emits_path_exists _ true), (Hpresent out_root Hout)| |auto].
  intros b Hb. injection Hb as ->. quiet_auto.
Qed.

Lemma find_of_existsb {A} (f : A -> bool) (l : list A) :
  existsb f l = true -> exists x, List.find f l = Some x.
Proof.
  induction l as [|x l IH]; cbn; [discriminate|].
  destruct (f x); eauto.
Qed.

(** [rip_redbook] on a disc of which the output tree holds a folder whose
    name ends with the fingerprint. *)
Lemma rip_redbook_skips (py_hash : list Z -> Z) (self : object)
      (cdp_str : string) (fingerprint : Z) :
  cdparanoia_hash py_hash cdp_str = Ok fingerprint ->
  (forall out_root,
      self !! "out_root" = Some (VStr out_root) ->
      forall h, exists folders,
          E h (CListdir out_root) = RList folders
          /\ existsb (fun folder =>
                        Text.endswith folder (Text.hex_of_abs fingerprint))
                     folders = true) ->
  quiet E no_rip (RipThread.rip_redbook py_hash self cdp_str).
Proof.
  intros Hhash Hpresent. unfold RipThread.rip_redbook. rewrite Hhash.
  apply (emits_bind E no_rip _ _ (fun r => r = Ok fingerprint));
    [apply emits_lift; reflexivity|intros n Hn|auto].
  injection Hn as ->.
  eapply emits_bind; [apply emits_attr_str|intros out_root Hout|auto].
  apply quiet_bind; [quiet_auto|intros _].
  unfold os_listdir, expect_list.
  eapply emits_bind; [apply emits_ask; intros; reflexivity| |auto].
  intros folders [h Hfolders].
  destruct (Hpresent out_root Hout h) as (folders' & Hls & Hsome).
  rewrite Hls in Hfolders. injection Hfolders as ->.
  destruct (find_of_existsb _ _ Hsome) as [folder ->].
  quiet_auto.
Qed.

End Skips.

(** The disc in the drive, as the probes of a poll cycle see it: a disc
    with a file system, given by the text that [blkid] prints for it and
    by whether its mount shows a [VIDEO_TS] directory, or an audio disc,
    given by the table that [cdparanoia -sQ] prints. *)
Inductive disc : Type :=
| FilesystemDisc (blkid_out : string) (is_dvd : bool)
| AudioDisc (toc : string).

(** What [execute] with capture returns to the first [try] of
    [loop_step] for an answer of the environment. *)
Definition probe_result (r : resp) : option string :=
  match as_str r with
  | Ok out => Some (Text.strip out)
  | Raise _ => None
  end.

(** The environment shows the disc [d] in [drive] for the whole cycle. *)
Definition in_drive (E : env) (drive : string) (d : disc) : Prop :=
  match d with
  | FilesystemDisc blkid_out is_dvd =>
      (forall h, E h (CCheckOutput (blkid_cmd drive) None) = RStr blkid_out)
      /\ (forall h, E h (CExists (mnt_path_of drive ++ "/VIDEO_TS"))
                    = RBool is_dvd)
  | AudioDisc toc =>
      (forall h, RipThread.no_blkid_output
                   (probe_result (E h (CCheckOutput (blkid_cmd drive) None)))
                 = true)
      /\ (forall h, E h (CCheckOutput cdparanoia_cmd None) = RStr toc)
  end.

(** The name under which the output of the disc is stored: [label-uuid]
    for a video disc, [label-uuid.iso] for a data disc, and for an audio
    disc the hexadecimal fingerprint that ends the name of its folder. *)
Definition disc_identity (py_hash : list Z -> Z) (drive : string) (d : disc)
  : option string :=
  match d with
  | FilesystemDisc blkid_out is_dvd =>
      match parse_blkid (Text.strip blkid_out) with
      | Ok blkid =>
          blkid_params ← blkid !! drive;
          label ← blkid_params !! "LABEL";
          uuid ← blkid_params !! "UUID";
          Some (if is_dvd then label ++ "-" ++ uuid
                else label ++ "-" ++ uuid ++ ".iso")
      | Raise _ => None
      end
  | AudioDisc toc =>
      match cdparanoia_hash py_hash (Text.strip toc) with
      | Ok fingerprint => Some (Text.hex_of_abs fingerprint)
      | Raise _ => None
      end
  end.

(** The output artifact of that identity is there, for the whole cycle. *)
Definition artifact_present (E : env) (out_root : string) (d : disc)
           (identity : string) : Prop :=
  match d with
  | FilesystemDisc _ _ =>
      forall h, E h (CExists (out_root ++ "/" ++ identity)) = RBool true
  | AudioDisc _ =>
      forall h, exists folders,
        E h (CListdir out_root) = RList folders
        /\ existsb (fun folder => Text.endswith folder identity) folders = true
  end.

Lemma filesystem_identity_inv (py_hash : list Z -> Z) (drive blkid_out : string)
      (is_dvd : bool) (identity : string) :
  disc_identity py_hash drive (FilesystemDisc blkid_out is_dvd) = Some identity ->
  exists blkid blkid_params label uuid,
    parse_blkid (Text.strip blkid_out) = Ok blkid
    /\ blkid !! drive = Some blkid_params
    /\ blkid_params !! "LABEL" = Some label
    /\ blkid_params !! "UUID" = Some uuid
    /\ identity = (if is_dvd then label ++ "-" ++ uuid
                   else label ++ "-" ++ uuid ++ ".iso").
Proof.
  unfold disc_identity. intros Hid.
  destruct (parse_blkid (Text.strip blkid_out)) as [blkid|] eqn:Hparse;
    [|discriminate Hid].
  destruct (blkid !! drive) as [blkid_params|] eqn:Hparams; [|discriminate Hid].
  cbn in Hid.
  destruct (blkid_params !! "LABEL") as [label|] eqn:Hlabel; [|discriminate Hid].
  cbn in Hid.
  destruct (blkid_params !! "UUID") as [uuid|] eqn:Huuid; [|discriminate Hid].
  cbn in Hid. injection Hid as <-.
  exists blkid, blkid_params, label, uuid. repeat split; assumption.
Qed.

Section Cycle.

Context (py_hash : list Z -> Z) (E : env).
Variables (self : object) (drive : string).
Hypothesis Hdrive : self !! "drive" = Some (VStr drive).

Lemma probe_blkid_run (w : world) :
  let r := E (history w) (CCheckOutput (blkid_cmd drive) None) in
  RipThread.probe_blkid self E w
  = (add_events w
       (Ev (CCheckOutput (blkid_cmd drive) None) r
        :: match as_str r with
           | Ok _ => []
           | Raise e => [ev_log DEBUG "blkid error: %s" [VExn e]]
           end),
     Ok (probe_result r)).
Proof.
  unfold RipThread.probe_blkid, try_except, attr_str, getattr.
  unfold bind at 1 2. rewrite Hdrive. cbn [ret].
  rewrite execute_capture_run. fold (blkid_cmd drive). cbn zeta.
  unfold probe_result.
  destruct (as_str (E (history w) (CCheckOutput (blkid_cmd drive) None)));
    cbn [res_bind]; [reflexivity|].
  unfold bind, logging. rewrite emit_run, add_events_app. reflexivity.
Qed.

Lemma emits_probe_blkid :
  emits E no_rip (RipThread.probe_blkid self)
        (fun r => exists h,
             r = Ok (probe_result (E h (CCheckOutput (blkid_cmd drive) None)))).
Proof.
  intros w. rewrite probe_blkid_run. cbn zeta. eexists. cbn [fst snd].
  split; [reflexivity|]. split; [|eauto].
  constructor; [reflexivity|].
  destruct (as_str _); repeat constructor.
Qed.

Lemma parse_blkid_empty : parse_blkid "" = Ok ∅.
Proof. reflexivity. Qed.

Lemma cycle_without_rip (d : disc) (identity : string) :
  in_drive E drive d ->
  disc_identity py_hash drive d = Some identity ->
  (forall out_root,
      self !! "out_root" = Some (VStr out_root) ->
      artifact_present E out_root d identity) ->
  quiet E no_rip (RipThread.loop_step py_hash self).
Proof.
  intros Hin Hid Hpresent. unfold RipThread.loop_step.
  eapply emits_bind; [apply emits_probe_blkid| |auto].
  intros blkid_str [h Hprobe]. injection Hprobe as ->.
  destruct d as [blkid_out is_dvd|toc]; cbn in Hin, Hpresent;
    destruct Hin as [Hblkid Hsecond].
  - (* a disc with a file system *)
    rewrite Hblkid. cbn [probe_result as_str].
    destruct (filesystem_identity_inv _ _ _ _ _ Hid)
      as (blkid & blkid_params & label & uuid
          & Hparse & Hparams & Hlabel & Huuid & ->).
    destruct (Text.strip blkid_out) as [|c rest] eqn:Hout.
    { rewrite parse_blkid_empty in Hparse. injection Hparse as <-.
      rewrite lookup_empty in Hparams. discriminate Hparams. }
    cbn [RipThread.no_blkid_output String.length Nat.eqb default from_option id].
    cbv beta iota.
    apply quiet_bind; [quiet_auto|intros _].
    rewrite Hparse.
    apply (emits_bind E no_rip _ _ (fun r => r = Ok blkid));
      [apply emits_lift; reflexivity|intros b Hb|auto].
    injection Hb as ->.
    eapply emits_bind; [apply emits_attr_str|intros drive' Hdrive'|auto].
    assert (drive' = drive) as -> by congruence.
    eapply emits_bind; [apply emits_dict_get|intros params Hp|auto].
    assert (params = blkid_params) as -> by congruence.
    apply quiet_bind; [quiet_auto|intros _].
    apply quiet_bind; [quiet_auto|intros _].
    eapply emits_bind;
      [apply (emits_path_exists E _ is_dvd), Hsecond| |auto].
    intros b Hb. injection Hb as ->.
    apply quiet_bind; [|intros _; apply quiet_eject_unless_skipped].
    destruct is_dvd.
    + apply (rip_dvd_skips E self blkid_params label uuid Hlabel Huuid).
      intros out_root Hroot. apply (Hpresent out_root Hroot).
    + apply (rip_data_disc_skips E self blkid_params label uuid Hlabel Huuid).
      intros out_root Hroot. apply (Hpresent out_root Hroot).
  - (* an audio disc *)
    rewrite Hblkid. unfold disc_identity in Hid.
    destruct (cdparanoia_hash py_hash (Text.strip toc)) as [fingerprint|]
      eqn:Hhash; [|discriminate Hid].
    injection Hid as <-.
    apply quiet_bind; [quiet_auto|intros _].
    unfold try_except_only. apply quiet_try_except; [|intros; quiet_auto].
    eapply emits_bind;
      [apply emits_execute_capture; intros; reflexivity| |auto].
    intros cdp_text [h' Hcdp]. rewrite Hsecond in Hcdp. cbn in Hcdp.
    injection Hcdp as ->.
    apply quiet_bind; [quiet_auto|intros _].
    apply quiet_bind; [|intros _; apply quiet_eject_unless_skipped].
    apply (rip_redbook_skips E py_hash self _ fingerprint Hhash).
    intros out_root Hroot. apply (Hpresent out_root Hroot).
Qed.

End Cycle.

Definition any_event (ev : event) : Prop := True.

(** ** The cycle of the Transcode Watcher *)

Section WatcherCycle.

Variables (wip_root out_root : string) (ffmpeg_args : option (list string)).
Context (E : env).

Let self : object := TranscodeThread.init wip_root out_root ffmpeg_args.

(** Every directory listing succeeds. *)
Definition listings_succeed : Prop :=
  forall h p, exists l, E h (CListdir p) = RList l.

Lemma Forall_any_event (t : list event) : Forall any_event t.
Proof. induction t; constructor; [exact I|assumption]. Qed.

Lemma transcode_disc_returns (disc_name : string) :
  listings_succeed ->
  emits E any_event (TranscodeThread.transcode_disc self disc_name)
        (fun r => r = Ok tt).
Proof.
  intros Hls w.
  destruct (Hls (history w) (disc_wip_path wip_root disc_name)) as [files Hfiles].
  destruct (transcode_disc_run wip_root out_root ffmpeg_args disc_name files
              E w Hfiles) as (ts & Hrun & _).
  fold self in Hrun. rewrite Hrun. cbn [fst snd add_events history].
  eexists. split; [reflexivity|]. split; [apply Forall_any_event|reflexivity].
Qed.

(** X12.  No failure of a conversion attempt leaves the cycle: as long as
    the directories can be listed, [loop_step] returns. *)
Lemma transcode_loop_step_returns (w : world) :
  listings_succeed ->
  (TranscodeThread.loop_step self E w).2 = Ok tt.
Proof.
  intros Hls.
  assert (Hstep : emits E any_event (TranscodeThread.loop_step self)
                        (fun r => r = Ok tt)).
  { unfold TranscodeThread.loop_step.
    eapply emits_bind; [apply emits_logging; exact I|intros _ _|discriminate].
    unfold attr_str, getattr. unfold bind at 1 2.
    replace (self !! "wip_root") with (Some (VStr wip_root)) by reflexivity.
    cbn [ret].
    change (emits E any_event
              (bind (os_listdir (wip_root ++ "/dvd"))
                 (fun discs =>
                    for_each discs (fun disc_name =>
                      bind (logging DEBUG "Transcoding disc: {disc_name}"
                              [VStr disc_name])
                           (fun _ => TranscodeThread.transcode_disc self disc_name))))
              (fun r => r = Ok tt)).
    unfold os_listdir, expect_list.
    eapply emits_bind; [apply emits_ask; intros; exact I| |].
    - intros discs _. apply emits_for_each_ok. intros disc_name.
      eapply emits_bind; [apply emits_logging; exact I| |discriminate].
      intros _ _. apply transcode_disc_returns. exact Hls.
    - intros e [h He]. destruct (Hls h (wip_root ++ "/dvd")) as [l Hl].
      rewrite Hl in He. discriminate He. }
  destruct (Hstep w) as (t & _ & _ & Hr). exact Hr.
Qed.

End WatcherCycle.

(** ** The block copy of the data-disc path *)

(** An external command whose executable is [dd]. *)
Definition is_dd_invocation (ev : event) : bool :=
  match ev_call ev with
  | CPopen (exe :: _) _ => String.eqb exe "dd"
  | CCheckOutput (exe :: _) _ => String.eqb exe "dd"
  | _ => false
  end.

Definition no_dd (ev : event) : Prop := is_dd_invocation ev = false.

Lemma dd_cmd_executable (drive out_path : string) :
  head (RipThread.dd_cmd drive out_path) = Some ("ddif=" ++ drive)
  /\ head (RipThread.dd_cmd drive out_path) <> Some "dd".
Proof. split; [reflexivity|]. cbn. intros Heq. discriminate Heq. Qed.

Lemma rip_data_disc_no_dd (self : object) (blkid_params : gmap string string)
      (E : env) :
  quiet E no_dd (RipThread.rip_data_disc self blkid_params).
Proof. unfold RipThread.rip_data_disc. quiet_auto. Qed.

(** ** Thread start-up *)

Lemma resolve_run :
  resolve C_RipThread m_run = Some C_Thread
  /\ resolve C_TranscodeThread m_run = Some C_LoopThread
  /\ resolve C_RipThread m_loop_step = Some C_RipThread.
Proof. repeat split. Qed.

(** The sibling class does loop: one cycle of a started [TranscodeThread]
    is a look at the stop signal, then [loop_step], then a sleep of the
    interval given at construction, then the next cycle. *)
Lemma transcode_thread_run_cycle (py_hash : list Z -> Z) (fuel : nat)
      (self : object) :
  call_run py_hash (S fuel) C_TranscodeThread self
  = (stop <- StoppableThread.stopped ;;
     if stop then ret true
     else
       TranscodeThread.loop_step self ;;
       interval <- attr_int self "_interval" ;;
       time_sleep interval ;;
       call_run py_hash fuel C_TranscodeThread self)%eff.
Proof. reflexivity. Qed.

(** *** The loop of [LoopThread] *)

Section LoopRun.

Context (E : env).
Variables (self : object) (interval : Z) (step : M unit).
Hypothesis Hinterval : self !! "_interval" = Some (VInt interval).


(** The stop signal is looked at before each cycle, and only there: when
  it is set, the loop is left without another step. *)
Lemma loop_thread_run_stops_at_boundary (fuel : nat) (w : world) :
E (history w) CStopped = RBool true ->
LoopThread.run (S fuel) self step E w
= (add_events w [Ev CStopped (RBool true)], Ok true).
Proof.
intros Hstop. cbn [LoopThread.run].
unfold StoppableThread.stopped, expect_bool, lift. unfold bind at 1 2.
rewrite perform_run, Hstop. reflexivity.
Qed.


End LoopRun.

(** ** Concrete runs *)

Module Scenario.

(** An environment in which every call succeeds: commands print
    nothing and exit with 0, every path exists, directories are empty. *)
Definition answer_ok (c : call) : resp :=
  match c with
  | CCheckOutput _ _ => RStr ""
  | CPopen _ _ => RProc [] 0
  | CGetsize _ => RInt 0
  | CSleep _ => RUnit
  | CMakedirs _ => RUnit
  | CRemove _ => RUnit
  | CListdir _ => RList []
  | CExists _ => RBool true
  | CRmtree _ => RUnit
  | CMove _ _ => RUnit
  | CChdir _ => RUnit
  | CGetcwd => RStr "/srv/pippa"
  | CAbspath p => RStr ("/srv/pippa/" ++ p)
  | CUpdateMakeMkvKey _ => RUnit
  | CStopped => RBool false
  | CLog _ _ _ => RUnit
  end.
Definition env_ok : env := fun _ c => answer_ok c.

Definition w0 : world := {| history := []; mounts := [] |}.

(** The two threads as the main program builds them from the default
    values of its command line. *)
Definition rip_thread : object :=
  RipThread.init "/dev/sr0" "./wip" "./dvd" "./redbook" "./iso" "./bluray"
    false false (Some "~/.MakeMKV/settings.conf").
Definition transcode_thread : object :=
  TranscodeThread.init "./wip" "./dvd" None.

(** A [RipThread] to which the two attributes that the rip routines read
    have been added. *)
Definition rip_thread_with_roots : object :=
  <[ "out_root" := VStr "./dvd" ]> (<[ "wip_root" := VStr "./wip" ]> rip_thread).

(** The video disc of the specification's example is in the drive and
    everything that is asked for exists: its output directory too. *)
Definition env_video_disc : env :=
  fun _ c =>
    match c with
    | CCheckOutput ["blkid"; _] _ => RStr BlkidExamples.sr0_line
    | _ => answer_ok c
    end.

Definition video_disc : disc := FilesystemDisc BlkidExamples.sr0_line true.

(** A watched file of 2 MiB that no longer grows, and an output tree
    in which no directory can be created. *)
Definition env_no_out_dir : env :=
  fun _ c =>
    match c with
    | CGetsize _ => RInt (2 * 1024 * 1024)
    | CMakedirs _ => RExn (OSError "Permission denied")
    | _ => answer_ok c
    end.

(** A watched file of 2 MiB that no longer grows. *)
Definition env_stable : env :=
  fun _ c =>
    match c with
    | CGetsize _ => RInt (2 * 1024 * 1024)
    | _ => answer_ok c
    end.

Definition title : string := "./wip/dvd/MY_DVD-1234-5678/title_t00.mkv".
Definition title_out : string := "./dvd/MY_DVD-1234-5678".

(** A disc directory with two files: the first has vanished when its
    size is asked for, the second is of 2 MiB and no longer grows. *)
Definition env_two_files : env :=
  fun _ c =>
    match c with
    | CListdir _ => RList ["title_t00.mkv"; "title_t01.mkv"]
    | CGetsize p =>
        if String.eqb p title then RExn (OSError "No such file or directory")
        else RInt (2 * 1024 * 1024)
    | _ => answer_ok c
    end.

End Scenario.

(** * The properties of the specification *)

(** C1, evaluated on the code.  [RipThread] derives from [StoppableThread]
    and not from [LoopThread], so the [run] of a started [RipThread] is
    that of [threading.Thread], which has no target to call: the thread
    returns at once and leaves the world as it was.  Whatever the
    environment answers, however long it is followed, not one [loop_step]
    and not one sleep is performed: the orchestrator does not loop. *)
Theorem rip_thread_run_never_polls
        (py_hash : list Z -> Z) (fuel : nat)
        (drive wip_path dvd_path redbook_path iso_path bluray_path : string)
        (skip_eject makemkv_update_key : bool)
        (makemkv_settings_path : option string)
        (E : env) (w : world) :
  resolve C_RipThread m_run = Some C_Thread
  /\ call_run py_hash fuel C_RipThread
       (RipThread.init drive wip_path dvd_path redbook_path iso_path
          bluray_path skip_eject makemkv_update_key makemkv_settings_path)
       E w
     = (w, Ok true).
Proof.
  split; [apply resolve_run|apply call_run_constructed].
Qed.

(** C2, as stated, fails: with the video disc of the example in the drive
    and its output directory present, the cycle of the constructed
    orchestrator creates the mount point and runs the privileged mount
    command. *)
Lemma poll_cycle_on_ripped_disc_mounts :
  let w' := (RipThread.loop_step CPython.tuplehash Scenario.rip_thread
               Scenario.env_video_disc Scenario.w0).1 in
  In (Ev (CMakedirs "./mnt/dev/sr0") RUnit) (history w')
  /\ In (Ev (CCheckOutput (mount_cmd "/dev/sr0" "./mnt/dev/sr0") None) (RStr ""))
        (history w')
  /\ mounts w' = ["./mnt/dev/sr0"].
Proof. vm_compute. intuition. Qed.

(** C3, as stated, fails: on a disc without a label, the routine raises
    the error of the missing key, not an attribute-not-found error. *)
Lemma rip_dvd_without_label_raises_key_error :
  RipThread.rip_dvd Scenario.rip_thread {[ "UUID" := "1234-5678" ]}
    Scenario.env_ok Scenario.w0
  = (Scenario.w0, Raise (KeyError "LABEL"))
  /\ ~ exists name,
         (RipThread.rip_dvd Scenario.rip_thread {[ "UUID" := "1234-5678" ]}
            Scenario.env_ok Scenario.w0).2
         = Raise (AttributeError name).
Proof.
  assert (H : RipThread.rip_dvd Scenario.rip_thread {[ "UUID" := "1234-5678" ]}
                Scenario.env_ok Scenario.w0
              = (Scenario.w0, Raise (KeyError "LABEL")))
    by (vm_compute; reflexivity).
  split; [exact H|]. rewrite H. intros [name Hname]. discriminate Hname.
Qed.

(** C3, amended.  On a [RipThread] built by its constructor, every call of
    [rip_dvd], [rip_data_disc] and [rip_redbook] raises and leaves the
    world untouched: no external command, no look at the output tree, no
    log record, neither a rip nor a skip.  The error is the
    attribute-not-found error of [self.wip_root] (of [self.out_root] in
    [rip_redbook]) whenever the identity computed before the attribute is
    read is there, and otherwise the error of that computation: the
    missing key, or what the fingerprint raised. *)
Theorem rip_routines_raise_before_any_effect
        (py_hash : list Z -> Z)
        (drive wip_path dvd_path redbook_path iso_path bluray_path : string)
        (skip_eject makemkv_update_key : bool)
        (makemkv_settings_path : option string)
        (blkid_params : gmap string string) (cdp_str : string)
        (E : env) (w : world) :
  let self :=
    RipThread.init drive wip_path dvd_path redbook_path iso_path bluray_path
      skip_eject makemkv_update_key makemkv_settings_path in
  RipThread.rip_dvd self blkid_params E w
  = (w, Raise (missing_key_or blkid_params (AttributeError "wip_root")))
  /\ RipThread.rip_data_disc self blkid_params E w
     = (w, Raise (missing_key_or blkid_params (AttributeError "wip_root")))
  /\ RipThread.rip_redbook py_hash self cdp_str E w
     = (w, Raise match cdparanoia_hash py_hash cdp_str with
                 | Ok _ => AttributeError "out_root"
                 | Raise e => e
                 end).
Proof.
  intros self. split; [|split].
  - apply rip_dvd_constructed.
  - apply rip_data_disc_constructed.
  - apply rip_redbook_constructed.
Qed.

(** C4, as stated, fails: a file of 2 MiB whose two samples are equal is
    not passed to the transcoder when the destination directory cannot be
    created; [os.makedirs] raises before the command is built. *)
Lemma stable_file_not_transcoded_without_out_dir :
  let t := history (TranscodeThread.transcode_file Scenario.transcode_thread
                      Scenario.title Scenario.title_out
                      Scenario.env_no_out_dir Scenario.w0).1 in
  size_samples Scenario.title t = [2097152; 2097152]
  /\ count (is_transcoder_call Scenario.title) t = 0%nat.
Proof. vm_compute. split; reflexivity. Qed.

(** In the environment where every call succeeds, the same file is passed
    to the transcoder once and removed after it. *)
Lemma stable_file_transcoded_then_removed :
  let t := history (TranscodeThread.transcode_file Scenario.transcode_thread
                      Scenario.title Scenario.title_out
                      Scenario.env_stable Scenario.w0).1 in
  size_samples Scenario.title t = [2097152; 2097152]
  /\ count (is_transcoder_call Scenario.title) t = 1%nat
  /\ last t = Some (Ev (CRemove Scenario.title) RUnit).
Proof. vm_compute. repeat split; reflexivity. Qed.

(** What the events [t] that one call of [transcode_file] adds to the
    history satisfy, for every environment:
    - a first size sample below 1 MiB: the file is neither passed to the
      transcoder nor removed;
    - two samples that differ: neither passed nor removed, and the two
      samples are separated by the sleep of 30 seconds;
    - two equal samples of 1 MiB or more, and the destination directory
      ensured without error: passed to the transcoder exactly once;
    - never passed more than once, and only after two equal samples of
      1 MiB or more;
    - removed at most once, and only as the last step, after the
      transcoder came back with exit code 0. *)
Lemma transcode_file_trace_bounds
      (wip_root out_root : string) (ffmpeg_args : option (list string))
      (file_path out_path : string) (E : env) (w : world) :
  let self := TranscodeThread.init wip_root out_root ffmpeg_args in
  let cmd := attempt_cmd file_path out_path ffmpeg_args in
  exists t,
    history (TranscodeThread.transcode_file self file_path out_path E w).1
    = (history w ++ t)%list
    /\ (forall size1,
           head (size_samples file_path t) = Some size1 ->
           size1 < 1024 * 1024 ->
           count (is_transcoder_call file_path) t = 0%nat
           /\ count (is_removal file_path) t = 0%nat)
    /\ (forall size1 size2,
           size_samples file_path t = [size1; size2] ->
           size1 <> size2 ->
           count (is_transcoder_call file_path) t = 0%nat
           /\ count (is_removal file_path) t = 0%nat)
    /\ (forall size1 size2,
           size_samples file_path t = [size1; size2] ->
           exists t1 t2,
             t = (Ev (CGetsize file_path) (RInt size1) :: t1
                  ++ ev_sleep 30
                  :: Ev (CGetsize file_path) (RInt size2) :: t2)%list)
    /\ (forall size,
           size_samples file_path t = [size; size] ->
           1024 * 1024 <= size ->
           In (Ev (CMakedirs out_path) RUnit) t ->
           count (is_transcoder_call file_path) t = 1%nat
           /\ exists r, In (Ev (CPopen cmd None) r) t)
    /\ (count (is_transcoder_call file_path) t <= 1)%nat
    /\ ((0 < count (is_transcoder_call file_path) t)%nat ->
        exists size, size_samples file_path t = [size; size]
                     /\ 1024 * 1024 <= size)
    /\ (count (is_removal file_path) t <= 1)%nat
    /\ (forall r,
           In (Ev (CRemove file_path) r) t ->
           exists t1 lines t2,
             t = (t1 ++ Ev (CPopen cmd None) (RProc lines 0)
                     :: t2 ++ [Ev (CRemove file_path) r])%list).
Proof.
  intros self cmd.
  destruct (transcode_file_attempt file_path out_path ffmpeg_args
              wip_root out_root E w) as (t & r & Hrun & Hat).
  fold self in Hrun. exists t. rewrite Hrun. cbn [fst add_events history].
  split; [reflexivity|].
  pose proof (attempt_summary file_path out_path ffmpeg_args t r Hat) as Hsum.
  fold cmd in Hsum.
  split; [|split; [|split; [|split; [|split; [|split; [|split]]]]]].
  - intros size1 Hhead Hsmall.
    destruct Hsum as [(Ht & Hr & _)|(size & Hs & Hbig & _)]; [auto|].
    rewrite Hs in Hhead. injection Hhead as ->. lia.
  - intros size1 size2 Hs Hne.
    destruct Hsum as [(Ht & Hr & _)|(size & Hs' & _)]; [auto|].
    rewrite Hs' in Hs. injection Hs as -> ->. congruence.
  - intros size1 size2 Hs.
    apply (attempt_samples_apart file_path out_path ffmpeg_args t r _ _ Hat Hs).
  - intros size Hs Hbig Hmk.
    destruct Hsum as [(_ & _ & Hno)|(size' & _ & _ & Ht & _ & Hcall)].
    + destruct (Hno size Hs Hmk).
    + auto.
  - destruct Hsum as [(Ht & _)|(size & _ & _ & Ht & _)]; lia.
  - intros Hpos.
    destruct Hsum as [(Ht & _)|(size & Hs & Hbig & _)]; [lia|eauto].
  - destruct Hsum as [(_ & Hr & _)|(size & _ & _ & _ & Hr & _)]; lia.
  - intros r0 Hin.
    apply (attempt_removal_after_success file_path out_path ffmpeg_args
             t r r0 Hat Hin).
Qed.

(** C5, as stated, fails: after a mount and an unmount that both succeed,
    the mount point is still in the registry. *)
Lemma unmount_does_not_deregister :
  let w1 := (mount "/dev/sr0" "./mnt/dev/sr0" Scenario.env_ok Scenario.w0).1 in
  let run := unmount "./mnt/dev/sr0" Scenario.env_ok w1 in
  mounts w1 = ["./mnt/dev/sr0"]
  /\ run.2 = Ok tt
  /\ last (history run.1)
     = Some (Ev (CCheckOutput (umount_cmd "./mnt/dev/sr0") None) (RStr ""))
  /\ In "./mnt/dev/sr0" (mounts run.1).
Proof. vm_compute. intuition. Qed.

(** C5, amended.  The registry gains the mount point exactly when the
    mount succeeds: the call of [mount] returns, the privileged command
    was its last call and came back without error, and the mount point is
    appended; or it raises, the command did not succeed, and the registry
    is unchanged.  Nothing removes an entry: [unmount] and the clean-up at
    exit leave the registry as it is, whether the command succeeds or not. *)
Theorem mount_registry_is_append_only
        (drive mnt_path : string) (E : env) (w : world) :
  let w' := (mount drive mnt_path E w).1 in
  let r := (mount drive mnt_path E w).2 in
  ((r = Ok tt /\ mounts w' = (mounts w ++ [mnt_path])%list
    /\ mount_command_succeeded drive mnt_path w')
   \/ ((exists e, r = Raise e) /\ mounts w' = mounts w
       /\ ~ mount_command_succeeded drive mnt_path w'))
  /\ mounts (unmount mnt_path E w).1 = mounts w
  /\ mounts (mount_cleanup E w).1 = mounts w.
Proof.
  intros w' r. split; [|split].
  - apply mount_registers_on_success.
  - apply unmount_keeps_registry.
  - apply mount_cleanup_keeps_registry.
Qed.

(** C9.  In a disc directory whose listing gives [files], every file gets
    its conversion attempt, in order, whatever happens to the files
    before it: the events of [transcode_disc] are the listing, a log
    record, and then for each file a whole attempt followed, when the
    attempt raised, by the two log records of the handler.  The call
    returns normally, so no failure of an attempt reaches the loop. *)
Theorem transcode_disc_isolates_failures
        (wip_root out_root : string) (ffmpeg_args : option (list string))
        (disc_name : string) (files : list string) (E : env) (w : world) :
  let self := TranscodeThread.init wip_root out_root ffmpeg_args in
  let wip_path := disc_wip_path wip_root disc_name in
  let out_path := disc_out_path out_root disc_name in
  E (history w) (CListdir wip_path) = RList files ->
  exists ts,
    TranscodeThread.transcode_disc self disc_name E w
    = (add_events w
         (Ev (CListdir wip_path) (RList files)
          :: ev_log DEBUG "Files: {files}" [VList files]
          :: concat ts),
       Ok tt)
    /\ Forall2 (fun file t =>
                  exists ta r,
                    attempt (wip_path ++ "/" ++ file) out_path ffmpeg_args ta r
                    /\ t = (ta ++ caught r)%list)
               files ts
    /\ forall file, In file files ->
                    exists r, In (Ev (CGetsize (wip_path ++ "/" ++ file)) r)
                                 (concat ts).
Proof.
  intros self wip_path out_path Hls.
  destruct (transcode_disc_run wip_root out_root ffmpeg_args disc_name files
              E w Hls) as (ts & Hrun & Hall).
  exists ts. split; [exact Hrun|]. split; [exact Hall|].
  fold wip_path out_path in Hall. clear Hrun Hls.
  induction Hall as [|file t files ts Hat _ IH]; intros f Hin; [destruct Hin|].
  cbn [concat]. destruct Hin as [->|Hin].
  - destruct Hat as (ta & r & Hat & ->).
    assert (Hfirst : exists r0 ta', ta = Ev (CGetsize (wip_path ++ "/" ++ f)) r0 :: ta').
    { destruct Hat; unfold ready, sampled_twice, sampled_once; cbn [app];
        eexists _, _; reflexivity. }
    destruct Hfirst as (r0 & ta' & ->). exists r0. cbn. left. reflexivity.
  - destruct (IH f Hin) as [r0 Hr0]. exists r0.
    apply in_or_app. right. exact Hr0.
Qed.

Lemma transcode_disc_isolates_failures_witness :
  exists ts,
    TranscodeThread.transcode_disc Scenario.transcode_thread "MY_DVD-1234-5678"
      Scenario.env_two_files Scenario.w0
    = (add_events Scenario.w0
         (Ev (CListdir (disc_wip_path "./wip" "MY_DVD-1234-5678"))
             (RList ["title_t00.mkv"; "title_t01.mkv"])
          :: ev_log DEBUG "Files: {files}"
               [VList ["title_t00.mkv"; "title_t01.mkv"]]
          :: concat ts),
       Ok tt)
    /\ Forall2 (fun file t =>
                  exists ta r,
                    attempt (disc_wip_path "./wip" "MY_DVD-1234-5678" ++ "/" ++ file)
                            (disc_out_path "./dvd" "MY_DVD-1234-5678") None ta r
                    /\ t = (ta ++ caught r)%list)
               ["title_t00.mkv"; "title_t01.mkv"] ts
    /\ forall file, In file ["title_t00.mkv"; "title_t01.mkv"] ->
                    exists r,
                      In (Ev (CGetsize (disc_wip_path "./wip" "MY_DVD-1234-5678"
                                          ++ "/" ++ file)) r)
                         (concat ts).
Proof.
  apply (transcode_disc_isolates_failures "./wip" "./dvd" None
           "MY_DVD-1234-5678" ["title_t00.mkv"; "title_t01.mkv"]
           Scenario.env_two_files Scenario.w0).
  reflexivity.
Defined.

(** The run of that scenario: the first file fails and is logged, the
    second is transcoded and removed. *)
Lemma two_files_second_is_transcoded :
  let t := history (TranscodeThread.transcode_disc Scenario.transcode_thread
                      "MY_DVD-1234-5678" Scenario.env_two_files Scenario.w0).1 in
  In (ev_log DEBUG "transcode_file error: {e}"
        [VExn (OSError "No such file or directory")]) t
  /\ count (is_transcoder_call "./wip/dvd/MY_DVD-1234-5678/title_t01.mkv") t
     = 1%nat
  /\ last t = Some (Ev (CRemove "./wip/dvd/MY_DVD-1234-5678/title_t01.mkv") RUnit).
Proof. vm_compute. intuition. Qed.

(** C10, evaluated on the code.  The data-disc routine never runs [dd].
    On a constructed [RipThread] it raises before any call, whatever the
    output tree holds.  And for any object whatever, also one that has
    the two missing attributes, no command that it starts has [dd] as its
    executable: the command list of the source joins [dd] and the [if=]
    argument into one word, the name of a program that does not exist. *)
Theorem rip_data_disc_never_runs_dd
        (drive wip_path dvd_path redbook_path iso_path bluray_path : string)
        (skip_eject makemkv_update_key : bool)
        (makemkv_settings_path : option string)
        (self : object) (blkid_params : gmap string string)
        (out_path : string) (E : env) (w : world) :
  RipThread.rip_data_disc
    (RipThread.init drive wip_path dvd_path redbook_path iso_path bluray_path
       skip_eject makemkv_update_key makemkv_settings_path)
    blkid_params E w
  = (w, Raise (missing_key_or blkid_params (AttributeError "wip_root")))
  /\ head (RipThread.dd_cmd drive out_path) = Some ("ddif=" ++ drive)
  /\ exists t,
      history (RipThread.rip_data_disc self blkid_params E w).1
      = (history w ++ t)%list
      /\ Forall (fun ev => is_dd_invocation ev = false) t.
Proof.
  split; [apply rip_data_disc_constructed|].
  split; [apply dd_cmd_executable|].
  destruct (rip_data_disc_no_dd self blkid_params E w) as (t & Ht & Hno & _).
  exists t. split; [exact Ht|exact Hno].
Qed.

(** With the two attributes added and no output file yet, the routine
    does reach its command: the program that it tries to start is
    [ddif=/dev/sr0]. *)
Lemma rip_data_disc_with_roots_starts_ddif :
  let E : env := fun _ c => match c with
                            | CExists _ => RBool false
                            | _ => Scenario.answer_ok c
                            end in
  let t := history (RipThread.rip_data_disc Scenario.rip_thread_with_roots
                      {[ "LABEL" := "DATA"; "UUID" := "1234-5678" ]}
                      E Scenario.w0).1 in
  In (Ev (CPopen ["ddif=/dev/sr0"; "of=./dvd/DATA-1234-5678.iso";
                  "status=progress"] (Some "/srv/pippa")) (RProc [] 0)) t.
Proof. vm_compute. intuition. Qed.

(** * Further properties of the code *)

(** ** The parsers on malformed and on padded input *)

(** X1.  A line that is not empty and holds no colon-space makes [parse_blkid]
    raise [IndexError]: [parts[1]] does not exist. *)
Theorem parse_blkid_line_without_separator (line : string) :
  line <> "" ->
  occurs Text.LF line = false ->
  occurs ": " line = false ->
  parse_blkid line = Raise IndexError.
Proof.
  intros Hne Hlf Hsep. unfold parse_blkid, Text.split.
  rewrite (split_go_none _ _ "" Hlf), str_app_nil_l.
  cbn [parse_blkid_lines].
  apply String.eqb_neq in Hne. rewrite Hne.
  unfold Text.split. rewrite (split_go_none _ _ "" Hsep). reflexivity.
Qed.

Lemma parse_blkid_line_without_separator_witness :
  parse_blkid "/dev/sr0" = Raise IndexError.
Proof.
  apply (parse_blkid_line_without_separator "/dev/sr0");
    [discriminate|reflexivity|reflexivity].
Defined.

Lemma prefix_lf_head (c : ascii) (s t : string) :
  String.prefix Text.LF (String c s) = String.prefix Text.LF (String c t).
Proof.
  unfold Text.LF. cbn [String.prefix].
  destruct (ascii_dec (Text.chr 10) c); [|reflexivity].
  destruct s, t; reflexivity.
Qed.

Lemma split_go_lf_snoc (s cur : string) :
  Text.split_go Text.LF (s ++ Text.LF) 0 cur
  = (Text.split_go Text.LF s 0 cur ++ [""])%list.
Proof.
  revert cur. induction s as [|c s IH]; intros cur; [reflexivity|].
  rewrite str_app_cons. cbn [Text.split_go].
  rewrite (prefix_lf_head c (s ++ Text.LF) s).
  destruct (String.prefix Text.LF (String c s)).
  - change (String.length Text.LF - 1)%nat with 0%nat. rewrite IH. reflexivity.
  - apply IH.
Qed.

Lemma parse_blkid_lines_blank_last (lines : list string)
      (blkid : gmap string (gmap string string)) :
  parse_blkid_lines (lines ++ [""]) blkid = parse_blkid_lines lines blkid.
Proof.
  revert blkid. induction lines as [|line lines IH]; intros blkid;
    [reflexivity|].
  cbn [app parse_blkid_lines].
  destruct (String.eqb line ""); [apply IH|].
  destruct (Text.split line ": ") as [|blk [|params_str parts]];
    [reflexivity|reflexivity|apply IH].
Qed.

(** X2.  A newline at the end of the probe output changes nothing: the empty
    last line is skipped.  This holds for every text, also for one on
    which [parse_blkid] raises. *)
Theorem parse_blkid_trailing_newline (blkid_str : string) :
  parse_blkid (blkid_str ++ Text.LF) = parse_blkid blkid_str.
Proof.
  unfold parse_blkid, Text.split.
  rewrite split_go_lf_snoc. apply parse_blkid_lines_blank_last.
Qed.

(** ** The fingerprint on short tables, and what it does not read *)

(** X4.  A table text of at most 8 lines has no row left after the header and
    the footer are cut off: its fingerprint is the hash of the empty
    tuple, whatever the lines hold. *)
Theorem cdparanoia_hash_short_table (py_hash : list Z -> Z) (cdp_str : string) :
  (List.length (Text.split cdp_str Text.LF) <= 8)%nat ->
  cdparanoia_hash py_hash cdp_str = Ok (py_hash []).
Proof.
  intros Hlen. unfold cdparanoia_hash, table_rows, Text.slice_6_m2.
  rewrite skipn_all2; [reflexivity|].
  rewrite length_firstn. lia.
Qed.

Lemma cdparanoia_hash_short_table_witness :
  cdparanoia_hash CPython.tuplehash
    (Text.join Text.LF ["cdparanoia III"; "a b c d e f g h"; "no disc"])
  = Ok (CPython.tuplehash []).
Proof.
  apply (cdparanoia_hash_short_table CPython.tuplehash).
  vm_compute. lia.
Defined.

(** X5.  Only the rows between the header and the footer are read: two tables
    with the same rows get the same result, whatever their 6 header lines
    and their 2 footer lines hold. *)
Theorem cdparanoia_hash_ignores_header_and_footer
        (py_hash : list Z -> Z)
        (header1 header2 rows footer1 footer2 : list string) :
  List.length header1 = 6%nat -> List.length header2 = 6%nat ->
  List.length footer1 = 2%nat -> List.length footer2 = 2%nat ->
  forallb (fun line => negb (occurs Text.LF line))
          (header1 ++ header2 ++ rows ++ footer1 ++ footer2) = true ->
  cdparanoia_hash py_hash (Text.join Text.LF (header1 ++ rows ++ footer1))
  = cdparanoia_hash py_hash (Text.join Text.LF (header2 ++ rows ++ footer2)).
Proof.
  intros Hh1 Hh2 Hf1 Hf2 Hlines.
  rewrite !forallb_app in Hlines.
  apply andb_true_iff in Hlines as [Hl1 Hlines].
  apply andb_true_iff in Hlines as [Hl2 Hlines].
  apply andb_true_iff in Hlines as [Hr Hlines].
  apply andb_true_iff in Hlines as [Hl3 Hl4].
  assert (Hrows : forall header footer,
             List.length header = 6%nat -> List.length footer = 2%nat ->
             forallb (fun line => negb (occurs Text.LF line)) header = true ->
             forallb (fun line => negb (occurs Text.LF line)) footer = true ->
             table_rows (Text.join Text.LF (header ++ rows ++ footer)) = rows).
  { intros header footer Hh Hf Hlh Hlf.
    apply (table_rows_strips _ header rows footer); [|exact Hh|exact Hf].
    apply split_join_lines.
    - destruct header; [discriminate Hh|discriminate].
    - rewrite !forallb_app, Hlh, Hr, Hlf. reflexivity. }
  unfold cdparanoia_hash.
  rewrite (Hrows header1 footer1 Hh1 Hf1 Hl1 Hl3).
  rewrite (Hrows header2 footer2 Hh2 Hf2 Hl2 Hl4). reflexivity.
Qed.

Lemma cdparanoia_hash_ignores_header_and_footer_witness :
  cdparanoia_hash CPython.tuplehash
    (Text.join Text.LF
       (TocExamples.header
          ++ ["  1.      150 [00:02.00]        0 [00:00.00]    no   no  2"]
          ++ TocExamples.footer))
  = cdparanoia_hash CPython.tuplehash
      (Text.join Text.LF
         (["1"; "2"; "3"; "4"; "5"; "6"]
            ++ ["  1.      150 [00:02.00]        0 [00:00.00]    no   no  2"]
            ++ ["TOTAL 1 2 3 4 5 6 7"; "bye"])).
Proof.
  apply (cdparanoia_hash_ignores_header_and_footer CPython.tuplehash);
    vm_compute; reflexivity.
Defined.

Lemma cdparanoia_hash_raises_otherwise_witness :
  ~ Forall row_ok (table_rows TocExamples.bad_length)
  /\ exists field,
      cdparanoia_hash CPython.tuplehash TocExamples.bad_length
      = Raise (ValueError field).
Proof.
  assert (Hbad : ~ Forall row_ok (table_rows TocExamples.bad_length)).
  { intros Hall.
    pose proof (Hlengths := track_lengths_ok _ Hall).
    vm_compute in Hlengths.
    discriminate Hlengths. }
  split; [exact Hbad|].
  apply (cdparanoia_hash_raises_otherwise CPython.tuplehash
           TocExamples.bad_length Hbad).
Defined.

(** ** The clean-up of the mounts *)

(** The unmount of [mnt_path] succeeds whenever it is asked for. *)
Definition umount_succeeds (E : env) (mnt_path : string) : Prop :=
  forall h, exists out,
    E h (CCheckOutput (umount_cmd mnt_path) None) = RStr out.

Definition umount_call (mnt_path : string) : call :=
  CCheckOutput (umount_cmd mnt_path) None.

Lemma unmount_run (mnt_path : string) (E : env) (w : world) :
  unmount mnt_path E w
  = (add_events w [Ev (umount_call mnt_path)
                      (E (history w) (umount_call mnt_path))],
     res_bind (as_str (E (history w) (umount_call mnt_path)))
              (fun _ => Ok tt)).
Proof.
  unfold unmount, bind. rewrite execute_capture_run. cbn zeta.
  fold (umount_cmd mnt_path). fold (umount_call mnt_path).
  destruct (as_str (E (history w) (umount_call mnt_path))); reflexivity.
Qed.

Lemma for_each_unmount_all (ms : list string) (E : env) (w : world) :
  Forall (umount_succeeds E) ms ->
  exists t,
    for_each ms unmount E w = (add_events w t, Ok tt)
    /\ map ev_call t = map umount_call ms.
Proof.
  intros Hall. revert w.
  induction Hall as [|m ms Hm _ IH]; intros w.
  - exists []. cbn. rewrite add_events_nil. split; reflexivity.
  - cbn [for_each]. unfold bind. rewrite unmount_run.
    destruct (Hm (history w)) as [out Hout].
    fold (umount_call m) in Hout. rewrite Hout. cbn [as_str res_bind].
    destruct (IH (add_events w [Ev (umount_call m) (RStr out)]))
      as (t & Hrun & Hcalls).
    exists (Ev (umount_call m) (RStr out) :: t).
    rewrite Hrun, add_events_app. split; [reflexivity|].
    cbn [map ev_call]. rewrite Hcalls. reflexivity.
Qed.

(** X8.  When every unmount succeeds, the clean-up runs the unmount command
    once for each entry of the registry, in the order of registration,
    and does nothing else. *)
Theorem mount_cleanup_unmounts_each_entry (E : env) (w : world) :
  Forall (umount_succeeds E) (mounts w) ->
  exists t,
    mount_cleanup E w = (add_events w t, Ok tt)
    /\ map ev_call t = map umount_call (mounts w).
Proof.
  intros Hall. unfold mount_cleanup, mounts_read, bind.
  apply for_each_unmount_all. exact Hall.
Qed.

Lemma mount_cleanup_unmounts_each_entry_witness :
  exists t,
    mount_cleanup Scenario.env_ok
      {| history := []; mounts := ["./mnt/dev/sr0"; "./mnt/dev/sr1"] |}
    = (add_events
         {| history := []; mounts := ["./mnt/dev/sr0"; "./mnt/dev/sr1"] |} t,
       Ok tt)
    /\ map ev_call t
       = map umount_call ["./mnt/dev/sr0"; "./mnt/dev/sr1"].
Proof.
  apply (mount_cleanup_unmounts_each_entry Scenario.env_ok
           {| history := []; mounts := ["./mnt/dev/sr0"; "./mnt/dev/sr1"] |}).
  repeat constructor; intros h; eexists; reflexivity.
Defined.

(** X9.  The clean-up stops at the first unmount that fails: the error leaves
    [mount_cleanup], and the entries registered after the failing one are
    not unmounted. *)
Theorem mount_cleanup_stops_at_first_failure
        (before after : list string) (mnt_path : string) (e : exn)
        (E : env) (w : world) :
  mounts w = (before ++ mnt_path :: after)%list ->
  Forall (umount_succeeds E) before ->
  (forall h, E h (umount_call mnt_path) = RExn e) ->
  exists t,
    mount_cleanup E w = (add_events w t, Raise e)
    /\ map ev_call t = map umount_call (before ++ [mnt_path])%list.
Proof.
  intros Hms Hbefore Hfail. unfold mount_cleanup, mounts_read, bind.
  rewrite Hms. clear Hms. revert w.
  induction Hbefore as [|m ms Hm _ IH]; intros w.
  - cbn [app for_each]. unfold bind. rewrite unmount_run, Hfail.
    cbn [as_str res_bind]. eexists. split; reflexivity.
  - cbn [app for_each]. unfold bind at 1. rewrite unmount_run.
    destruct (Hm (history w)) as [out Hout].
    fold (umount_call m) in Hout. rewrite Hout. cbn [as_str res_bind].
    destruct (IH (add_events w [Ev (umount_call m) (RStr out)]))
      as (t & Hrun & Hcalls).
    exists (Ev (umount_call m) (RStr out) :: t).
    rewrite Hrun, add_events_app. split; [reflexivity|].
    cbn [map ev_call]. rewrite Hcalls. reflexivity.
Qed.

Lemma mount_cleanup_stops_at_first_failure_witness :
  let E : env := fun _ c =>
    match c with
    | CCheckOutput [_; _; p] _ =>
        if String.eqb p "./mnt/dev/sr1" then RExn (CalledProcessError 32)
        else Scenario.answer_ok c
    | _ => Scenario.answer_ok c
    end in
  let w := {| history := [];
              mounts := ["./mnt/dev/sr0"; "./mnt/dev/sr1"; "./mnt/dev/sr2"] |} in
  exists t,
    mount_cleanup E w = (add_events w t, Raise (CalledProcessError 32))
    /\ map ev_call t
       = map umount_call (["./mnt/dev/sr0"] ++ ["./mnt/dev/sr1"])%list.
Proof.
  intros E w.
  apply (mount_cleanup_stops_at_first_failure
           ["./mnt/dev/sr0"] ["./mnt/dev/sr2"] "./mnt/dev/sr1"
           (CalledProcessError 32) E w).
  - reflexivity.
  - repeat constructor. intros h. eexists. reflexivity.
  - intros h. reflexivity.
Defined.


(** X11.  An error that leaves [loop_step] ends the loop (and with it the
    thread): nothing in [run] catches it, no sleep and no further cycle
    follows.  For the watcher this is what a directory listing that fails
    does: when the DVD work directory cannot be listed, the started
    thread is over after its first look at it. *)
Theorem transcode_thread_ends_when_wip_root_is_unlistable
        (py_hash : list Z -> Z) (fuel : nat)
        (wip_root out_root : string) (ffmpeg_args : option (list string))
        (e : exn) (E : env) (w : world) :
  (forall h, E h CStopped = RBool false) ->
  (forall h, E h (CListdir (wip_root ++ "/dvd")) = RExn e) ->
  call_run py_hash (S fuel) C_TranscodeThread
    (TranscodeThread.init wip_root out_root ffmpeg_args) E w
  = (add_events w
       [Ev CStopped (RBool false);
        ev_log DEBUG "Transcode loop step" [];
        Ev (CListdir (wip_root ++ "/dvd")) (RExn e)],
     Raise e).
Proof.
  intros Hstop Hls. rewrite transcode_thread_run_cycle.
  unfold StoppableThread.stopped, expect_bool, lift. unfold bind at 1 2.
  rewrite perform_run, Hstop. cbn [as_bool].
  unfold bind at 1. unfold TranscodeThread.loop_step.
  unfold bind at 1, logging at 1. rewrite emit_run, add_events_app.
  unfold attr_str, getattr. unfold bind at 1 2.
  replace (TranscodeThread.init wip_root out_root ffmpeg_args !! "wip_root")
    with (Some (VStr wip_root)) by reflexivity.
  cbn [ret]. unfold os_listdir, expect_list, lift. unfold bind at 1 2.
  rewrite perform_run, Hls, add_events_app. reflexivity.
Qed.

Lemma transcode_thread_ends_when_wip_root_is_unlistable_witness :
  let E : env := fun _ c =>
    match c with
    | CListdir _ => RExn (OSError "No such file or directory")
    | _ => Scenario.answer_ok c
    end in
  call_run CPython.tuplehash 10 C_TranscodeThread
    (TranscodeThread.init "./wip" "./dvd" None) E Scenario.w0
  = (add_events Scenario.w0
       [Ev CStopped (RBool false);
        ev_log DEBUG "Transcode loop step" [];
        Ev (CListdir ("./wip" ++ "/dvd")) (RExn (OSError "No such file or directory"))],
     Raise (OSError "No such file or directory")).
Proof.
  intros E.
  apply (transcode_thread_ends_when_wip_root_is_unlistable CPython.tuplehash 9
           "./wip" "./dvd" None (OSError "No such file or directory")
           E Scenario.w0); intros h; reflexivity.
Defined.

Lemma transcode_loop_step_returns_witness :
  (TranscodeThread.loop_step (TranscodeThread.init "./wip" "./dvd" None)
     Scenario.env_two_files Scenario.w0).2
  = Ok tt.
Proof.
  apply (transcode_loop_step_returns "./wip" "./dvd" None
           Scenario.env_two_files Scenario.w0).
  intros h p. eexists. reflexivity.
Defined.

(** What a cycle of the watcher may do: besides listing, sizing, sleeping
    and logging, it creates directories, removes files, and starts
    [ffmpeg]; it starts no other program, runs no captured command, and
    never removes a tree, moves or changes directory. *)
Definition watcher_event (ev : event) : bool :=
  match ev_call ev with
  | CPopen (exe :: _) _ => String.eqb exe "ffmpeg"
  | CPopen [] _ => false
  | CCheckOutput _ _ => false
  | CRmtree _ => false
  | CMove _ _ => false
  | CChdir _ => false
  | CUpdateMakeMkvKey _ => false
  | _ => true
  end.

Ltac quiet_step_by solve_event :=
  lazymatch goal with
  | |- quiet _ _ (bind _ _) => apply quiet_bind; [|intros]
  | |- quiet _ _ (try_except _ _) => apply quiet_try_except; [|intros]
  | |- quiet _ _ (for_each _ _) => apply quiet_for_each; intros
  | |- quiet _ _ (perform _) => apply quiet_perform; intros; solve_event
  | |- quiet _ _ (emit _) => apply quiet_emit; solve_event
  | |- quiet _ _ (ret _) => apply quiet_ret
  | |- quiet _ _ (raise _) => apply quiet_raise
  | |- quiet _ _ (lift _) => apply quiet_lift
  | |- quiet _ _ (mounts_append _) => apply quiet_mounts_append
  | |- quiet _ _ (if ?b then _ else _) => destruct b
  | |- quiet _ _ (match ?x with _ => _ end) => destruct x
  end.

Ltac quiet_by solve_event :=
  as_quiet; repeat (quiet_unfold; cbv beta iota; quiet_step_by solve_event).

(** X13.  Whatever object runs it and whatever the environment answers, a
    cycle of the watcher only does what [watcher_event] allows. *)
Theorem watcher_cycle_starts_only_ffmpeg (self : object) (E : env) (w : world) :
  exists t,
    history (TranscodeThread.loop_step self E w).1 = (history w ++ t)%list
    /\ Forall (fun ev => watcher_event ev = true) t.
Proof.
  assert (Hq : quiet E (fun ev => watcher_event ev = true)
                     (TranscodeThread.loop_step self)).
  { unfold TranscodeThread.loop_step, TranscodeThread.transcode_disc,
      TranscodeThread.try_transcode_file, TranscodeThread.transcode_file.
    quiet_by ltac:(reflexivity). }
  destruct (Hq w) as (t & Ht & Hall & _). exists t. auto.
Qed.

(** The arguments of the writing calls of the watcher: [os.remove] is
    called on a path [wip_root/dvd/<disc>/<file>] and [os.makedirs] on a
    path [out_root/<disc>], for the roots that the object holds and some
    strings [<disc>] and [<file>]. *)
Definition watcher_write (self : object) (ev : event) : Prop :=
  match ev_call ev with
  | CRemove p =>
      exists wip_root disc_name file,
        self !! "wip_root" = Some (VStr wip_root)
        /\ p = ((wip_root ++ "/dvd") ++ "/" ++ disc_name) ++ "/" ++ file
  | CMakedirs p =>
      exists out_root disc_name,
        self !! "out_root" = Some (VStr out_root)
        /\ p = out_root ++ "/" ++ disc_name
  | _ => True
  end.

Lemma quiet_try_transcode_file (self : object) (E : env)
      (wip_path out_path file : string) :
  (forall r, watcher_write self (Ev (CRemove (wip_path ++ "/" ++ file)) r)) ->
  (forall r, watcher_write self (Ev (CMakedirs out_path) r)) ->
  quiet E (watcher_write self)
        (TranscodeThread.try_transcode_file self wip_path out_path file).
Proof.
  intros Hrem Hmk.
  unfold TranscodeThread.try_transcode_file, TranscodeThread.transcode_file.
  quiet_by ltac:(first [exact I | apply Hrem | apply Hmk]).
Qed.

Lemma quiet_transcode_disc (self : object) (E : env) (disc_name : string) :
  quiet E (watcher_write self) (TranscodeThread.transcode_disc self disc_name).
Proof.
  unfold TranscodeThread.transcode_disc.
  eapply emits_bind; [apply emits_attr_str| |auto].
  intros wip_root Hwip. cbv zeta.
  eapply emits_bind; [apply emits_attr_str| |auto].
  intros out_root Hout.
  apply quiet_bind; [quiet_by ltac:(exact I)|]. intros files.
  apply quiet_bind; [quiet_by ltac:(exact I)|]. intros _.
  apply quiet_for_each. intros file.
  apply quiet_try_transcode_file; intros r.
  - exists wip_root, disc_name, file. auto.
  - exists out_root, disc_name. auto.
Qed.

(** X14.  Whatever the object and whatever the environment answers, every
    call of [os.remove] in a cycle of the watcher has an argument of the
    form [wip_root/dvd/<disc>/<file>], and every call of [os.makedirs] an
    argument of the form [out_root/<disc>], for the roots that the object
    holds and some strings [<disc>] and [<file>].  (The statement is
    about the arguments of the calls; [os.makedirs] also creates the
    missing parents of its argument.) *)
Theorem watcher_cycle_writes_only_its_trees (self : object) (E : env) (w : world) :
  exists t,
    history (TranscodeThread.loop_step self E w).1 = (history w ++ t)%list
    /\ Forall (watcher_write self) t.
Proof.
  assert (Hq : quiet E (watcher_write self) (TranscodeThread.loop_step self)).
  { unfold TranscodeThread.loop_step.
    apply quiet_bind; [quiet_by ltac:(exact I)|]. intros _.
    apply quiet_bind; [quiet_by ltac:(exact I)|]. intros wip_root.
    apply quiet_bind; [quiet_by ltac:(exact I)|]. intros discs.
    apply quiet_for_each. intros disc_name.
    apply quiet_bind; [quiet_by ltac:(exact I)|]. intros _.
    apply quiet_transcode_disc. }
  destruct (Hq w) as (t & Ht & Hall & _). exists t. auto.
Qed.

(** ** The cycle of the Rip Orchestrator *)

(** The privileged unmount command, started in either way. *)
Definition is_umount (ev : event) : bool :=
  match ev_call ev with
  | CCheckOutput (exe :: sub :: _) _ | CPopen (exe :: sub :: _) _ =>
      String.eqb exe "sudo" && String.eqb sub "umount"
  | _ => false
  end.

(** X16.  Whatever the object and whatever the environment answers, a poll
    cycle never runs the privileged unmount command, neither captured nor
    streamed. *)
Theorem rip_cycle_never_unmounts (py_hash : list Z -> Z) (self : object)
        (E : env) (w : world) :
  exists t,
    history (RipThread.loop_step py_hash self E w).1 = (history w ++ t)%list
    /\ Forall (fun ev => is_umount ev = false) t.
Proof.
  assert (Hq : quiet E (fun ev => is_umount ev = false)
                     (RipThread.loop_step py_hash self)).
  { unfold RipThread.loop_step, RipThread.probe_blkid,
      RipThread.eject_unless_skipped, RipThread.rip_redbook,
      RipThread.rip_dvd, RipThread.rip_data_disc, RipThread.drive_id_of.
    quiet_by ltac:(reflexivity). }
  destruct (Hq w) as (t & Ht & Hall & _). exists t. auto.
Qed.

(** *** Running a routine step by step *)

Lemma bind_bind_run {A B C} (m : M A) (k : A -> M B) (k' : B -> M C)
      (E : env) (w : world) :
  bind (bind m k) k' E w = bind m (fun a => bind (k a) k') E w.
Proof. unfold bind. destruct (m E w) as [w1 [a|e]]; reflexivity. Qed.

Lemma bind_ret_run {A B} (a : A) (k : A -> M B) (E : env) (w : world) :
  bind (ret a) k E w = k a E w.
Proof. reflexivity. Qed.

Lemma bind_raise_run {A B} (e : exn) (k : A -> M B) (E : env) (w : world) :
  bind (raise e) k E w = (w, Raise e).
Proof. reflexivity. Qed.

Lemma bind_lift_run {A B} (r : res A) (k : A -> M B) (E : env) (w : world) :
  bind (lift r) k E w
  = match r with
    | Ok a => k a E w
    | Raise e => (w, Raise e)
    end.
Proof. destruct r; reflexivity. Qed.

Lemma bind_perform_run {B} (c : call) (k : resp -> M B) (E : env) (w : world) :
  bind (perform c) k E w
  = k (E (history w) c) E (add_events w [Ev c (E (history w) c)]).
Proof. reflexivity. Qed.

Lemma bind_emit_run {B} (c : call) (k : unit -> M B) (E : env) (w : world) :
  bind (emit c) k E w = k tt E (add_events w [Ev c RUnit]).
Proof. reflexivity. Qed.

Lemma lift_run {A} (r : res A) (E : env) (w : world) : lift r E w = (w, r).
Proof. reflexivity. Qed.

Lemma ret_run {A} (a : A) (E : env) (w : world) : ret a E w = (w, Ok a).
Proof. reflexivity. Qed.

Lemma raise_run {A} (e : exn) (E : env) (w : world) :
  @raise A e E w = (w, Raise e).
Proof. reflexivity. Qed.

Lemma bind_execute_stream_run {B} (cmd : list string) (cwd : option string)
      (k : option string -> M B) (E : env) (w : world)
      (lines : list string) (code : Z) :
  E (history w) (CPopen cmd cwd) = RProc lines code ->
  bind (execute cmd false cwd) k E w
  = let w' := add_events w (Ev (CPopen cmd cwd) (RProc lines code)
                            :: map ev_subprocess_line lines) in
    if code =? 0 then k None E w' else (w', Raise (PyException code)).
Proof.
  intros Hp. unfold bind at 1. rewrite execute_stream_run. cbn zeta.
  rewrite Hp. cbn [as_proc]. destruct (code =? 0); reflexivity.
Qed.

Lemma bind_execute_capture_run {B} (cmd : list string) (cwd : option string)
      (k : option string -> M B) (E : env) (w : world) :
  bind (execute cmd true cwd) k E w
  = let r := E (history w) (CCheckOutput cmd cwd) in
    let w' := add_events w [Ev (CCheckOutput cmd cwd) r] in
    match as_str r with
    | Ok out => k (Some (Text.strip out)) E w'
    | Raise e => (w', Raise e)
    end.
Proof.
  unfold bind at 1. rewrite execute_capture_run. cbn zeta.
  destruct (as_str _); reflexivity.
Qed.

Lemma attr_str_run (self : object) (name s : string) (E : env) (w : world) :
  self !! name = Some (VStr s) -> attr_str self name E w = (w, Ok s).
Proof. intros H. unfold attr_str, getattr, bind. rewrite H. reflexivity. Qed.

Lemma bind_attr_str_run {B} (self : object) (name s : string)
      (k : string -> M B) (E : env) (w : world) :
  self !! name = Some (VStr s) -> bind (attr_str self name) k E w = k s E w.
Proof. intros H. unfold bind at 1. rewrite (attr_str_run _ _ s); auto. Qed.

Lemma bind_getattr_run {B} (self : object) (name : string) (v : pyval)
      (k : pyval -> M B) (E : env) (w : world) :
  self !! name = Some v -> bind (getattr self name) k E w = k v E w.
Proof. intros H. unfold bind, getattr. rewrite H. reflexivity. Qed.

Lemma bind_dict_get_run {V B} (d : gmap string V) (key : string) (v : V)
      (k : V -> M B) (E : env) (w : world) :
  d !! key = Some v -> bind (dict_get d key) k E w = k v E w.
Proof. intros H. unfold bind, dict_get. rewrite H. reflexivity. Qed.

Ltac run_unfold :=
  unfold os_path_getsize, os_makedirs, os_remove, os_listdir, path_exists,
    shutil_rmtree_ignore_errors, shutil_move, os_chdir, os_getcwd,
    os_path_abspath, updateMakeMkvKey, logging, time_sleep,
    expect_unit, expect_str, expect_int, expect_bool, expect_list, expect_proc.

(** *** The empty drive *)

Section EmptyDrive.

Context (py_hash : list Z -> Z) (E : env).
Variables (self : object) (drive : string).
Hypothesis Hdrive : self !! "drive" = Some (VStr drive).

(** The events of the first probe: the call, and the log record when it
    raised. *)
Definition probe_events (r : resp) : list event :=
  Ev (CCheckOutput (blkid_cmd drive) None) r
  :: match as_str r with
     | Ok _ => []
     | Raise e => [ev_log DEBUG "blkid error: %s" [VExn e]]
     end.

Lemma loop_step_probe_failed (w : world) (e : exn) :
  let r := E (history w) (CCheckOutput (blkid_cmd drive) None) in
  RipThread.no_blkid_output (probe_result r) = true ->
  (forall h, E h (CCheckOutput cdparanoia_cmd None) = RExn e) ->
  RipThread.loop_step py_hash self E w
  = (add_events w
       (probe_events r
        ++ [ev_log DEBUG "No blkid output" [];
            Ev (CCheckOutput cdparanoia_cmd None) (RExn e)]
        ++ (if is_CalledProcessError e
            then [ev_log DEBUG "No disc detected" []] else []))%list,
     if is_CalledProcessError e then Ok tt else Raise e).
Proof.
  intros r Hnone Hcdp. unfold RipThread.loop_step.
  unfold bind at 1. rewrite (probe_blkid_run E self drive Hdrive). cbn zeta.
  fold r. rewrite Hnone. fold (probe_events r).
  unfold try_except_only, try_except. run_unfold.
  rewrite bind_emit_run, bind_execute_capture_run. cbn zeta.
  fold cdparanoia_cmd. rewrite Hcdp. cbn [as_str].
  rewrite !add_events_app.
  destruct (is_CalledProcessError e).
  - rewrite emit_run, add_events_app, <- !app_assoc. reflexivity.
  - rewrite raise_run, app_nil_r. reflexivity.
Qed.

End EmptyDrive.

(** X17.  With nothing in the drive (the file-system probe gives no output, or
    fails, and the audio probe fails) a cycle does nothing but the two
    probes and its log records.  How it ends depends on how the audio
    probe failed: a [CalledProcessError] (the exit status of
    [cdparanoia]) is the expected answer and the cycle returns; any other
    error (the program is not installed, say) is not caught and leaves
    the cycle. *)
Theorem empty_drive_cycle (py_hash : list Z -> Z) (self : object)
        (drive : string) (E : env) (w : world) (e : exn) :
  self !! "drive" = Some (VStr drive) ->
  RipThread.no_blkid_output
    (probe_result (E (history w) (CCheckOutput (blkid_cmd drive) None)))
  = true ->
  (forall h, E h (CCheckOutput cdparanoia_cmd None) = RExn e) ->
  exists t,
    RipThread.loop_step py_hash self E w
    = (add_events w t, if is_CalledProcessError e then Ok tt else Raise e)
    /\ Forall (fun ev => match ev_call ev with
                         | CCheckOutput cmd None =>
                             cmd = blkid_cmd drive \/ cmd = cdparanoia_cmd
                         | CLog _ _ _ => True
                         | _ => False
                         end) t.
Proof.
  intros Hdrive Hnone Hcdp.
  rewrite (loop_step_probe_failed py_hash E self drive Hdrive w e Hnone Hcdp).
  eexists. split; [reflexivity|].
  unfold probe_events.
  repeat first [apply Forall_app; split | apply Forall_cons; split
               | apply Forall_nil_2];
    cbn; auto.
  - destruct (as_str _); repeat constructor.
  - destruct (is_CalledProcessError e); repeat constructor.
Qed.

Lemma empty_drive_cycle_witness :
  let E : env := fun _ c =>
    match c with
    | CCheckOutput _ _ => RExn (CalledProcessError 1)
    | _ => Scenario.answer_ok c
    end in
  exists t,
    RipThread.loop_step CPython.tuplehash Scenario.rip_thread E Scenario.w0
    = (add_events Scenario.w0 t, Ok tt)
    /\ Forall (fun ev => match ev_call ev with
                         | CCheckOutput cmd None =>
                             cmd = blkid_cmd "/dev/sr0" \/ cmd = cdparanoia_cmd
                         | CLog _ _ _ => True
                         | _ => False
                         end) t.
Proof.
  intros E.
  apply (empty_drive_cycle CPython.tuplehash Scenario.rip_thread "/dev/sr0"
           E Scenario.w0 (CalledProcessError 1)).
  - reflexivity.
  - reflexivity.
  - intros h. reflexivity.
Defined.

(** *** The registry over a cycle *)

(** [keeps E m]: [m] leaves the mount registry as it is. *)
Definition keeps {A} (E : env) (m : M A) : Prop :=
  forall w, mounts (m E w).1 = mounts w.

Section Keeps.

Context (E : env).

Lemma keeps_ret {A} (a : A) : keeps E (ret a).
Proof. intros w. reflexivity. Qed.

Lemma keeps_raise {A} (e : exn) : keeps E (@raise A e).
Proof. intros w. reflexivity. Qed.

Lemma keeps_lift {A} (r : res A) : keeps E (lift r).
Proof. intros w. reflexivity. Qed.

Lemma keeps_perform (c : call) : keeps E (perform c).
Proof. intros w. reflexivity. Qed.

Lemma keeps_emit (c : call) : keeps E (emit c).
Proof. intros w. reflexivity. Qed.

Lemma keeps_bind {A B} (m : M A) (k : A -> M B) :
  keeps E m -> (forall a, keeps E (k a)) -> keeps E (bind m k).
Proof.
  intros Hm Hk w. unfold bind. specialize (Hm w).
  destruct (m E w) as [w1 [a|e]]; cbn in *; [|exact Hm].
  rewrite Hk. exact Hm.
Qed.

Lemma keeps_try_except {A} (m : M A) (h : exn -> M A) :
  keeps E m -> (forall e, keeps E (h e)) -> keeps E (try_except m h).
Proof.
  intros Hm Hh w. unfold try_except. specialize (Hm w).
  destruct (m E w) as [w1 [a|e]]; cbn in *; [exact Hm|].
  rewrite Hh. exact Hm.
Qed.

Lemma keeps_for_each {A} (l : list A) (body : A -> M unit) :
  (forall x, keeps E (body x)) -> keeps E (for_each l body).
Proof.
  intros Hbody. induction l as [|x l IH]; cbn [for_each].
  - apply keeps_ret.
  - apply keeps_bind; [apply Hbody|intros; apply IH].
Qed.

End Keeps.

Ltac keeps_step :=
  lazymatch goal with
  | |- keeps _ (bind _ _) => apply keeps_bind; [|intros]
  | |- keeps _ (try_except _ _) => apply keeps_try_except; [|intros]
  | |- keeps _ (for_each _ _) => apply keeps_for_each; intros
  | |- keeps _ (perform _) => apply keeps_perform
  | |- keeps _ (emit _) => apply keeps_emit
  | |- keeps _ (ret _) => apply keeps_ret
  | |- keeps _ (raise _) => apply keeps_raise
  | |- keeps _ (lift _) => apply keeps_lift
  | |- keeps _ (if ?b then _ else _) => destruct b
  | |- keeps _ (match ?x with _ => _ end) => destruct x
  end.

Ltac keeps_auto :=
  repeat (unfold dict_get, attr_str, attr_list, attr_int, getattr,
            log_subprocess_output, eject, unmount, execute, try_except_only;
          run_unfold; cbv beta iota; keeps_step).

Lemma keeps_rip_dvd (E : env) (self : object)
      (blkid_params : gmap string string) :
  keeps E (RipThread.rip_dvd self blkid_params).
Proof. unfold RipThread.rip_dvd, RipThread.drive_id_of. keeps_auto. Qed.

Lemma keeps_rip_data_disc (E : env) (self : object)
      (blkid_params : gmap string string) :
  keeps E (RipThread.rip_data_disc self blkid_params).
Proof. unfold RipThread.rip_data_disc. keeps_auto. Qed.

Lemma keeps_eject_unless_skipped (E : env) (self : object) :
  keeps E (RipThread.eject_unless_skipped self).
Proof. unfold RipThread.eject_unless_skipped. keeps_auto. Qed.

Section FilesystemCycle.

Context (py_hash : list Z -> Z) (E : env).
Variables (self : object) (drive blkid_out : string)
          (blkid : gmap string (gmap string string))
          (blkid_params : gmap string string).
Hypothesis Hdrive : self !! "drive" = Some (VStr drive).
Hypothesis Hblkid :
  forall h, E h (CCheckOutput (blkid_cmd drive) None) = RStr blkid_out.
Hypothesis Hparse : parse_blkid (Text.strip blkid_out) = Ok blkid.
Hypothesis Hparams : blkid !! drive = Some blkid_params.

(** What a cycle does once the probe has named the disc: mount, look
    for [VIDEO_TS], rip, eject. *)
Definition after_probe : M unit :=
  let mnt_path := "./mnt" ++ drive in
  try_except (mount drive mnt_path)
    (fun e => logging DEBUG "mount error: %s" [VExn e]) ;;
  is_dvd <- path_exists (mnt_path ++ "/VIDEO_TS") ;;
  (if is_dvd then RipThread.rip_dvd self blkid_params
   else RipThread.rip_data_disc self blkid_params) ;;
  RipThread.eject_unless_skipped self.

Definition probed_events : list event :=
  [Ev (CCheckOutput (blkid_cmd drive) None) (RStr blkid_out);
   ev_log DEBUG "blkid_str: {blkid_str}" [VStr (Text.strip blkid_out)];
   ev_log DEBUG "params: {blkid_params}" [VDict blkid_params]].

Lemma strip_blkid_out_not_empty : Text.strip blkid_out <> "".
Proof.
  intros Hempty. rewrite Hempty, parse_blkid_empty in Hparse.
  injection Hparse as <-. rewrite lookup_empty in Hparams.
  discriminate Hparams.
Qed.

Lemma loop_step_probed (w : world) :
  RipThread.loop_step py_hash self E w
  = after_probe E (add_events w probed_events).
Proof.
  unfold RipThread.loop_step. unfold bind at 1.
  rewrite (probe_blkid_run E self drive Hdrive). cbn zeta.
  rewrite Hblkid. cbn [as_str probe_result].
  pose proof strip_blkid_out_not_empty as Hne.
  unfold probed_events, after_probe.
  destruct (Text.strip blkid_out) as [|c rest] eqn:Hout; [congruence|].
  cbn [RipThread.no_blkid_output String.length Nat.eqb default from_option id].
  cbv beta iota. run_unfold.
  rewrite bind_emit_run, add_events_app.
  rewrite Hparse, bind_lift_run.
  rewrite (bind_attr_str_run self "drive" drive) by exact Hdrive.
  rewrite (bind_dict_get_run blkid drive blkid_params) by exact Hparams.
  rewrite bind_emit_run, add_events_app.
  reflexivity.
Qed.

Lemma keeps_after_mount :
  keeps E (is_dvd <- path_exists (("./mnt" ++ drive) ++ "/VIDEO_TS") ;;
           (if is_dvd then RipThread.rip_dvd self blkid_params
            else RipThread.rip_data_disc self blkid_params) ;;
           RipThread.eject_unless_skipped self).
Proof.
  apply keeps_bind; [keeps_auto|]. intros is_dvd.
  apply keeps_bind; [|intros; apply keeps_eject_unless_skipped].
  destruct is_dvd; [apply keeps_rip_dvd|apply keeps_rip_data_disc].
Qed.

Lemma filesystem_cycle_registry (w : world) :
  (forall h, E h (CMakedirs (mnt_path_of drive)) = RUnit) ->
  (forall h, exists out,
      E h (CCheckOutput (mount_cmd drive (mnt_path_of drive)) None)
      = RStr out) ->
  mounts (RipThread.loop_step py_hash self E w).1
  = (mounts w ++ [mnt_path_of drive])%list.
Proof.
  intros Hmk Hmount. rewrite loop_step_probed.
  set (w1 := add_events w probed_events).
  change (mounts w) with (mounts w1).
  unfold after_probe. cbv zeta. fold (mnt_path_of drive).
  unfold bind at 1.
  assert (Hm : exists w2,
             try_except (mount drive (mnt_path_of drive))
               (fun e => logging DEBUG "mount error: %s" [VExn e]) E w1
             = (w2, Ok tt)
             /\ mounts w2 = (mounts w1 ++ [mnt_path_of drive])%list).
  { unfold try_except, mount. run_unfold.
    rewrite bind_bind_run, bind_perform_run, Hmk.
    cbn [as_unit]. rewrite bind_lift_run.
    rewrite bind_execute_capture_run. cbn zeta.
    fold (mount_cmd drive (mnt_path_of drive)).
    destruct (Hmount (history (add_events w1
                [Ev (CMakedirs (mnt_path_of drive)) RUnit]))) as [out ->].
    cbn [as_str]. eexists. split; reflexivity. }
  destruct Hm as (w2 & -> & <-).
  apply keeps_after_mount.
Qed.

End FilesystemCycle.

(** X18.  A cycle on a disc with a file system whose mount succeeds appends the
    mount point to the registry, whatever the registry already holds and
    however the rest of the cycle ends: nothing looks for the path in the
    registry first, and nothing after the mount takes it out again. *)
Theorem filesystem_cycle_registers_mount_point
        (py_hash : list Z -> Z) (self : object) (drive blkid_out : string)
        (blkid : gmap string (gmap string string))
        (blkid_params : gmap string string) (E : env) (w : world) :
  self !! "drive" = Some (VStr drive) ->
  (forall h, E h (CCheckOutput (blkid_cmd drive) None) = RStr blkid_out) ->
  parse_blkid (Text.strip blkid_out) = Ok blkid ->
  blkid !! drive = Some blkid_params ->
  (forall h, E h (CMakedirs (mnt_path_of drive)) = RUnit) ->
  (forall h, exists out,
      E h (CCheckOutput (mount_cmd drive (mnt_path_of drive)) None)
      = RStr out) ->
  mounts (RipThread.loop_step py_hash self E w).1
  = (mounts w ++ [mnt_path_of drive])%list.
Proof.
  intros Hdrive Hblkid Hparse Hparams Hmk Hmount.
  exact (filesystem_cycle_registry py_hash E self drive blkid_out blkid
           blkid_params Hdrive Hblkid Hparse Hparams w Hmk Hmount).
Qed.

Lemma filesystem_cycle_registers_mount_point_witness :
  mounts (RipThread.loop_step CPython.tuplehash Scenario.rip_thread
            Scenario.env_video_disc
            {| history := []; mounts := ["./mnt/dev/sr0"] |}).1
  = ["./mnt/dev/sr0"; "./mnt/dev/sr0"].
Proof.
  apply (filesystem_cycle_registers_mount_point CPython.tuplehash
           Scenario.rip_thread "/dev/sr0" BlkidExamples.sr0_line
           {[ "/dev/sr0" := {[ "LABEL" := "MY_DVD"; "UUID" := "1234-5678" ]} ]}
           {[ "LABEL" := "MY_DVD"; "UUID" := "1234-5678" ]}
           Scenario.env_video_disc
           {| history := []; mounts := ["./mnt/dev/sr0"] |}).
  - reflexivity.
  - intros h. reflexivity.
  - vm_compute. reflexivity.
  - reflexivity.
  - intros h. reflexivity.
  - intros h. exists "". reflexivity.
Defined.

(** X19.  An error of the mount command does not end the cycle: it is
    logged, the registry is left as it was, [VIDEO_TS] is looked for
    under the mount point, and from there the cycle is the rip routine
    that this test selects, followed by the eject.  This is also what
    happens when the disc is mounted already and the mount command
    refuses to mount it again. *)
Theorem mount_failure_does_not_stop_cycle
        (py_hash : list Z -> Z) (self : object) (drive blkid_out : string)
        (blkid : gmap string (gmap string string))
        (blkid_params : gmap string string) (e : exn) (is_dvd : bool)
        (E : env) (w : world) :
  self !! "drive" = Some (VStr drive) ->
  (forall h, E h (CCheckOutput (blkid_cmd drive) None) = RStr blkid_out) ->
  parse_blkid (Text.strip blkid_out) = Ok blkid ->
  blkid !! drive = Some blkid_params ->
  (forall h, E h (CMakedirs (mnt_path_of drive)) = RUnit) ->
  (forall h, E h (CCheckOutput (mount_cmd drive (mnt_path_of drive)) None)
             = RExn e) ->
  (forall h, E h (CExists (mnt_path_of drive ++ "/VIDEO_TS")) = RBool is_dvd) ->
  RipThread.loop_step py_hash self E w
  = ((if is_dvd then RipThread.rip_dvd self blkid_params
      else RipThread.rip_data_disc self blkid_params) ;;
     RipThread.eject_unless_skipped self) E
      (add_events w
         (probed_events drive blkid_out blkid_params
          ++ [Ev (CMakedirs (mnt_path_of drive)) RUnit;
              Ev (CCheckOutput (mount_cmd drive (mnt_path_of drive)) None)
                 (RExn e);
              ev_log DEBUG "mount error: %s" [VExn e];
              Ev (CExists (mnt_path_of drive ++ "/VIDEO_TS")) (RBool is_dvd)])).
Proof.
  intros Hdrive Hblkid Hparse Hparams Hmk Hmount Hvideo.
  rewrite (loop_step_probed py_hash E self drive blkid_out blkid blkid_params
             Hdrive Hblkid Hparse Hparams).
  unfold after_probe. cbv zeta. fold (mnt_path_of drive).
  unfold bind at 1, try_except, mount. run_unfold.
  rewrite bind_bind_run, bind_perform_run, Hmk.
  cbn [as_unit]. rewrite bind_lift_run.
  rewrite bind_execute_capture_run. cbn zeta.
  fold (mount_cmd drive (mnt_path_of drive)).
  rewrite Hmount. cbn [as_str].
  rewrite emit_run, !add_events_app. cbn [app].
  rewrite bind_bind_run, bind_perform_run, Hvideo. cbn [as_bool].
  rewrite bind_lift_run, add_events_app, <- app_assoc. reflexivity.
Qed.

Lemma mount_failure_does_not_stop_cycle_witness :
  let E : env := fun h c =>
    match c with
    | CCheckOutput ["sudo"; "mount"; _; _] _ => RExn (CalledProcessError 32)
    | CExists "./mnt/dev/sr0/VIDEO_TS" => RBool false
    | _ => Scenario.env_video_disc h c
    end in
  let blkid_params : gmap string string :=
    {[ "LABEL" := "MY_DVD"; "UUID" := "1234-5678" ]} in
  RipThread.loop_step CPython.tuplehash Scenario.rip_thread E Scenario.w0
  = (RipThread.rip_data_disc Scenario.rip_thread blkid_params ;;
     RipThread.eject_unless_skipped Scenario.rip_thread) E
      (add_events Scenario.w0
         (probed_events "/dev/sr0" BlkidExamples.sr0_line blkid_params
          ++ [Ev (CMakedirs (mnt_path_of "/dev/sr0")) RUnit;
              Ev (CCheckOutput (mount_cmd "/dev/sr0" (mnt_path_of "/dev/sr0"))
                    None)
                 (RExn (CalledProcessError 32));
              ev_log DEBUG "mount error: %s" [VExn (CalledProcessError 32)];
              Ev (CExists (mnt_path_of "/dev/sr0" ++ "/VIDEO_TS"))
                 (RBool false)])).
Proof.
  intros E blkid_params.
  apply (mount_failure_does_not_stop_cycle CPython.tuplehash
           Scenario.rip_thread "/dev/sr0" BlkidExamples.sr0_line
           {[ "/dev/sr0" := blkid_params ]} blkid_params
           (CalledProcessError 32) false E Scenario.w0).
  - reflexivity.
  - intros h. reflexivity.
  - vm_compute. reflexivity.
  - reflexivity.
  - intros h. reflexivity.
  - intros h. reflexivity.
  - intros h. reflexivity.
Defined.

(** ** The rip routines on an object that has the two roots *)

(** The routines read [self.wip_root] and [self.out_root].  On an object
    that holds them they run to their external command. *)

Section RipDvdRun.

Context (E : env).
Variables (self : object) (drive wip_root out_root label uuid : string)
          (blkid_params : gmap string string).
Hypothesis Hlabel : blkid_params !! "LABEL" = Some label.
Hypothesis Huuid : blkid_params !! "UUID" = Some uuid.
Hypothesis Hwip : self !! "wip_root" = Some (VStr wip_root).
Hypothesis Hout : self !! "out_root" = Some (VStr out_root).
Hypothesis Hdrive : self !! "drive" = Some (VStr drive).
Hypothesis Hkey : self !! "makemkv_update_key" = Some (VBool false).

Definition dvd_wip_path : string := wip_root ++ "/dvd/" ++ label ++ "-" ++ uuid.
Definition dvd_out_path : string := out_root ++ "/" ++ label ++ "-" ++ uuid.

Lemma rip_dvd_skip_run (w : world) :
  E (history w) (CExists dvd_out_path) = RBool true ->
  RipThread.rip_dvd self blkid_params E w
  = (add_events w
       [Ev (CExists dvd_out_path) (RBool true);
        ev_log INFO "Output path exists: {out_path}" [VStr dvd_out_path]],
     Ok tt).
Proof.
  intros Hex. unfold RipThread.rip_dvd.
  rewrite (bind_dict_get_run blkid_params "LABEL" label) by exact Hlabel.
  rewrite (bind_dict_get_run blkid_params "UUID" uuid) by exact Huuid.
  cbv zeta.
  rewrite (bind_attr_str_run self "wip_root" wip_root) by exact Hwip.
  rewrite (bind_attr_str_run self "out_root" out_root) by exact Hout.
  fold dvd_out_path. run_unfold.
  rewrite bind_bind_run, bind_perform_run, Hex. cbn [as_bool].
  rewrite bind_lift_run, emit_run, add_events_app. reflexivity.
Qed.

Lemma rip_dvd_rip_run (w : world) (digits abs : string) (drive_id code : Z)
      (lines : list string) :
  E (history w) (CExists dvd_out_path) = RBool false ->
  (forall h, E h (CMakedirs dvd_wip_path) = RUnit) ->
  (forall h, E h (CMakedirs dvd_out_path) = RUnit) ->
  (forall h, E h (CAbspath dvd_wip_path) = RStr abs) ->
  Text.search_digits drive = Some digits ->
  Text.py_int digits = Some drive_id ->
  (forall h, E h (CPopen (RipThread.makemkv_cmd drive_id abs) None)
             = RProc lines code) ->
  exists r,
    RipThread.rip_dvd self blkid_params E w
    = (add_events w
         ([Ev (CExists dvd_out_path) (RBool false);
           ev_log INFO "Ripping DVD: {disc_name}" [VStr (label ++ "-" ++ uuid)];
           Ev (CRmtree dvd_wip_path) r;
           Ev (CMakedirs dvd_wip_path) RUnit;
           Ev (CMakedirs dvd_out_path) RUnit;
           Ev (CAbspath dvd_wip_path) (RStr abs);
           ev_log DEBUG "Executing: {' '.join(cmd)}"
             [VStr (Text.join " " (RipThread.makemkv_cmd drive_id abs))];
           Ev (CPopen (RipThread.makemkv_cmd drive_id abs) None)
              (RProc lines code)]
          ++ map ev_subprocess_line lines),
       if code =? 0 then Ok tt else Raise (PyException code)).
Proof.
  intros Hex Hmkw Hmko Habs Hdigits Hint Hpopen. unfold RipThread.rip_dvd.
  rewrite (bind_dict_get_run blkid_params "LABEL" label) by exact Hlabel.
  rewrite (bind_dict_get_run blkid_params "UUID" uuid) by exact Huuid.
  cbv zeta.
  rewrite (bind_attr_str_run self "wip_root" wip_root) by exact Hwip.
  rewrite (bind_attr_str_run self "out_root" out_root) by exact Hout.
  fold dvd_out_path dvd_wip_path. run_unfold.
  rewrite bind_bind_run, bind_perform_run, Hex. cbn [as_bool].
  rewrite bind_lift_run.
  rewrite (bind_getattr_run self "makemkv_update_key" (VBool false))
    by exact Hkey.
  cbn [truthy]. rewrite bind_ret_run.
  rewrite bind_emit_run, add_events_app.
  rewrite bind_bind_run, bind_perform_run, bind_ret_run, add_events_app.
  set (r := E _ (CRmtree dvd_wip_path)). exists r.
  rewrite bind_bind_run, bind_perform_run, Hmkw. cbn [as_unit].
  rewrite bind_lift_run, add_events_app.
  rewrite bind_bind_run, bind_perform_run, Hmko. cbn [as_unit].
  rewrite bind_lift_run, add_events_app.
  rewrite (bind_attr_str_run self "drive" drive) by exact Hdrive.
  unfold RipThread.drive_id_of. rewrite Hdigits, Hint, bind_ret_run.
  rewrite bind_bind_run, bind_perform_run, Habs. cbn [as_str].
  rewrite bind_lift_run, add_events_app.
  cbv zeta. rewrite bind_emit_run, add_events_app.
  rewrite (bind_execute_stream_run _ _ _ _ _ lines code) by apply Hpopen.
  cbv zeta. rewrite add_events_app. cbn [app].
  destruct (code =? 0); reflexivity.
Qed.

End RipDvdRun.

(** X22.  On an object that holds [wip_root] and [out_root] (the constructor
    sets neither: on the object that it builds the routine raises before
    this point, see C3) and on which [makemkv_update_key] is false, a rip
    that fails is not tried again.  [rip_dvd] creates the output
    directory of the disc before it starts [makemkvcon], and nothing
    removes it when the command fails; the output directory is also what
    tells [rip_dvd] that a disc has been ripped.  So, when the output
    path does not exist yet, the two directories can be created, the
    drive path holds a number, and the file system is one where a created
    directory is found to exist afterwards: when the output of
    [makemkvcon] decodes and the command exits with a non-zero status,
    the routine raises [Exception(exitcode)], and the next call for the
    same disc does nothing but find the directory and log that the output
    path exists. *)
Theorem failed_dvd_rip_is_not_retried
        (self : object) (drive wip_root out_root label uuid : string)
        (blkid_params : gmap string string)
        (digits abs : string) (drive_id code : Z) (lines : list string)
        (E : env) (w : world) :
  blkid_params !! "LABEL" = Some label ->
  blkid_params !! "UUID" = Some uuid ->
  self !! "wip_root" = Some (VStr wip_root) ->
  self !! "out_root" = Some (VStr out_root) ->
  self !! "drive" = Some (VStr drive) ->
  self !! "makemkv_update_key" = Some (VBool false) ->
  let wip_path := dvd_wip_path wip_root label uuid in
  let out_path := dvd_out_path out_root label uuid in
  E (history w) (CExists out_path) = RBool false ->
  (forall h, In (Ev (CMakedirs out_path) RUnit) h ->
             E h (CExists out_path) = RBool true) ->
  (forall h, E h (CMakedirs wip_path) = RUnit) ->
  (forall h, E h (CMakedirs out_path) = RUnit) ->
  (forall h, E h (CAbspath wip_path) = RStr abs) ->
  Text.search_digits drive = Some digits ->
  Text.py_int digits = Some drive_id ->
  (forall h, E h (CPopen (RipThread.makemkv_cmd drive_id abs) None)
             = RProc lines code) ->
  code <> 0 ->
  let first := RipThread.rip_dvd self blkid_params E w in
  first.2 = Raise (PyException code)
  /\ RipThread.rip_dvd self blkid_params E first.1
     = (add_events first.1
          [Ev (CExists out_path) (RBool true);
           ev_log INFO "Output path exists: {out_path}" [VStr out_path]],
        Ok tt).
Proof.
  intros Hlabel Huuid Hwip Hout Hdrive Hkey wip_path out_path
    Hex Hfs Hmkw Hmko Habs Hdigits Hint Hpopen Hcode first.
  destruct (rip_dvd_rip_run E self drive wip_root out_root label uuid
              blkid_params Hlabel Huuid Hwip Hout Hdrive Hkey w digits abs
              drive_id code lines Hex Hmkw Hmko Habs Hdigits Hint Hpopen)
    as [r Hrun].
  subst first. rewrite Hrun. cbn [fst snd].
  apply Z.eqb_neq in Hcode. rewrite Hcode. split; [reflexivity|].
  apply (rip_dvd_skip_run E self wip_root out_root label uuid blkid_params
           Hlabel Huuid Hwip Hout).
  apply Hfs. cbn [history add_events]. fold out_path.
  rewrite in_app_iff. right. cbn. auto 8.
Qed.

(** An environment with a small file system: a directory exists when the
    history shows that it has been created; [makemkvcon] fails. *)
Definition env_rip_fails : env :=
  fun h c =>
    match c with
    | CExists p =>
        RBool (existsb (fun ev => match ev with
                                  | Ev (CMakedirs q) RUnit => String.eqb q p
                                  | _ => false
                                  end) h)
    | CPopen _ _ => RProc ["Failed to open disc"] 1
    | CAbspath p => RStr ("/srv" ++ p)
    | CCheckOutput ["blkid"; _] _ => RStr BlkidExamples.sr0_line
    | _ => Scenario.answer_ok c
    end.

Lemma failed_dvd_rip_is_not_retried_witness :
  let out_path := "./dvd/MY_DVD-1234-5678" in
  let blkid_params : gmap string string :=
    {[ "LABEL" := "MY_DVD"; "UUID" := "1234-5678" ]} in
  let first :=
    RipThread.rip_dvd Scenario.rip_thread_with_roots blkid_params
      env_rip_fails Scenario.w0 in
  first.2 = Raise (PyException 1)
  /\ RipThread.rip_dvd Scenario.rip_thread_with_roots blkid_params
       env_rip_fails first.1
     = (add_events first.1
          [Ev (CExists out_path) (RBool true);
           ev_log INFO "Output path exists: {out_path}" [VStr out_path]],
        Ok tt).
Proof.
  intros out_path blkid_params.
  apply (failed_dvd_rip_is_not_retried Scenario.rip_thread_with_roots
           "/dev/sr0" "./wip" "./dvd" "MY_DVD" "1234-5678" blkid_params
           "0" "/srv./wip/dvd/MY_DVD-1234-5678" 0 1 ["Failed to open disc"]
           env_rip_fails Scenario.w0);
    try reflexivity; try (intros h; reflexivity); try lia.
  intros h Hin. unfold env_rip_fails. f_equal.
  apply existsb_exists. eexists. split; [exact Hin|]. reflexivity.
Defined.

Section RipRedbookRun.

Context (py_hash : list Z -> Z) (E : env).
Variables (self : object) (drive wip_root out_root cdp_str : string)
          (fingerprint : Z).
Hypothesis Hhash : cdparanoia_hash py_hash cdp_str = Ok fingerprint.
Hypothesis Hwip : self !! "wip_root" = Some (VStr wip_root).
Hypothesis Hout : self !! "out_root" = Some (VStr out_root).
Hypothesis Hdrive : self !! "drive" = Some (VStr drive).

Definition redbook_wip_dir : string := wip_root ++ "/redbook".

(** The events of [rip_redbook] up to the change of directory. *)
Definition redbook_prepared (folders : list string) (pwd : string)
  : list event :=
  [Ev (CMakedirs out_root) RUnit;
   Ev (CListdir out_root) (RList folders);
   ev_log INFO "Ripping redbook: {cdp_hash}" [VStr (Text.hex_of_abs fingerprint)];
   Ev (CMakedirs redbook_wip_dir) RUnit;
   Ev CGetcwd (RStr pwd);
   Ev (CChdir redbook_wip_dir) RUnit].

Lemma rip_redbook_skip_run (w : world) (folders : list string)
      (folder : string) :
  (forall h, E h (CMakedirs out_root) = RUnit) ->
  E (history w ++ [Ev (CMakedirs out_root) RUnit])%list (CListdir out_root)
  = RList folders ->
  List.find (fun folder => Text.endswith folder (Text.hex_of_abs fingerprint))
            folders = Some folder ->
  RipThread.rip_redbook py_hash self cdp_str E w
  = (add_events w
       [Ev (CMakedirs out_root) RUnit;
        Ev (CListdir out_root) (RList folders);
        ev_log INFO "Redbook already ripped: {folder}" [VStr folder]],
     Ok tt).
Proof.
  intros Hmko Hls Hfind. unfold RipThread.rip_redbook.
  rewrite Hhash, bind_lift_run. cbv zeta.
  rewrite (bind_attr_str_run self "out_root" out_root) by exact Hout.
  run_unfold.
  rewrite bind_bind_run, bind_perform_run, Hmko. cbn [as_unit].
  rewrite bind_lift_run.
  rewrite bind_bind_run, bind_perform_run. cbn [history add_events].
  rewrite Hls. cbn [as_list]. rewrite bind_lift_run, add_events_app.
  rewrite Hfind, emit_run, add_events_app. reflexivity.
Qed.

Lemma rip_redbook_rip_run (w : world) (folders : list string) (pwd : string)
      (lines : list string) (code : Z) :
  (forall h, E h (CMakedirs out_root) = RUnit) ->
  E (history w ++ [Ev (CMakedirs out_root) RUnit])%list (CListdir out_root)
  = RList folders ->
  List.find (fun folder => Text.endswith folder (Text.hex_of_abs fingerprint))
            folders = None ->
  (forall h, E h (CMakedirs redbook_wip_dir) = RUnit) ->
  (forall h, E h CGetcwd = RStr pwd) ->
  (forall h, E h (CChdir redbook_wip_dir) = RUnit) ->
  (forall h, E h (CPopen (RipThread.abcde_cmd drive) None) = RProc lines code) ->
  let w' := add_events w
              (redbook_prepared folders pwd
               ++ Ev (CPopen (RipThread.abcde_cmd drive) None) (RProc lines code)
               :: map ev_subprocess_line lines) in
  RipThread.rip_redbook py_hash self cdp_str E w
  = if code =? 0
    then (os_chdir pwd ;;
          albums <- os_listdir redbook_wip_dir ;;
          match albums with
          | [] => raise IndexError
          | album_name :: _ =>
              shutil_move (redbook_wip_dir ++ "/" ++ album_name)
                (out_root ++ "/" ++ album_name ++ "-"
                          ++ Text.hex_of_abs fingerprint)
          end) E w'
    else (w', Raise (PyException code)).
Proof.
  intros Hmko Hls Hfind Hmkw Hcwd Hcd Hpopen w'. subst w'.
  unfold RipThread.rip_redbook.
  rewrite Hhash, bind_lift_run. cbv zeta.
  rewrite (bind_attr_str_run self "out_root" out_root) by exact Hout.
  run_unfold.
  rewrite bind_bind_run, bind_perform_run, Hmko. cbn [as_unit].
  rewrite bind_lift_run.
  rewrite bind_bind_run, bind_perform_run. cbn [history add_events].
  rewrite Hls. cbn [as_list]. rewrite bind_lift_run, add_events_app.
  rewrite Hfind, bind_emit_run, add_events_app.
  rewrite (bind_attr_str_run self "wip_root" wip_root) by exact Hwip.
  fold redbook_wip_dir.
  rewrite bind_bind_run, bind_perform_run, Hmkw. cbn [as_unit].
  rewrite bind_lift_run, add_events_app.
  rewrite bind_bind_run, bind_perform_run, Hcwd. cbn [as_str].
  rewrite bind_lift_run, add_events_app.
  rewrite bind_bind_run, bind_perform_run, Hcd. cbn [as_unit].
  rewrite bind_lift_run, add_events_app.
  rewrite (bind_attr_str_run self "drive" drive) by exact Hdrive.
  rewrite (bind_execute_stream_run _ _ _ _ _ lines code) by apply Hpopen.
  cbv zeta. rewrite add_events_app. cbn [app]. unfold redbook_prepared.
  cbn [app]. destruct (code =? 0); reflexivity.
Qed.

End RipRedbookRun.

(** The directories that a trace changes to, in order. *)
Definition chdirs (t : list event) : list string :=
  omap (fun ev => match ev_call ev with
                  | CChdir p => Some p
                  | _ => None
                  end) t.

Lemma chdirs_app (t1 t2 : list event) :
  chdirs (t1 ++ t2) = (chdirs t1 ++ chdirs t2)%list.
Proof. apply omap_app. Qed.

Lemma chdirs_cons (ev : event) (t : list event) :
  chdirs (ev :: t)
  = match ev_call ev with
    | CChdir p => p :: chdirs t
    | _ => chdirs t
    end.
Proof. destruct ev as [c r]. destruct c; reflexivity. Qed.

Lemma chdirs_lines (lines : list string) :
  chdirs (map ev_subprocess_line lines) = [].
Proof. induction lines as [|l lines IH]; [reflexivity|exact IH]. Qed.

(** X25.  On an object that holds [wip_root] and [out_root] (the constructor
    sets neither: on the object that it builds the routine raises before
    this point, see C3), [rip_redbook] changes into its work directory to
    run [abcde] and back afterwards, but the way back is not in a
    [finally].  When the disc is not in the output tree yet, the
    directories can be created and changed into, the output of [abcde]
    decodes and the command exits with a non-zero status, the routine
    raises [Exception(exitcode)] from inside the work directory: the one
    change of directory that it has made is the one into
    [wip_root/redbook]. *)
Theorem failed_redbook_rip_stays_in_work_directory
        (py_hash : list Z -> Z) (self : object)
        (drive wip_root out_root cdp_str pwd : string) (fingerprint code : Z)
        (folders lines : list string) (E : env) (w : world) :
  cdparanoia_hash py_hash cdp_str = Ok fingerprint ->
  self !! "wip_root" = Some (VStr wip_root) ->
  self !! "out_root" = Some (VStr out_root) ->
  self !! "drive" = Some (VStr drive) ->
  (forall h, E h (CMakedirs out_root) = RUnit) ->
  (forall h, E h (CListdir out_root) = RList folders) ->
  List.find (fun folder => Text.endswith folder (Text.hex_of_abs fingerprint))
            folders = None ->
  (forall h, E h (CMakedirs (redbook_wip_dir wip_root)) = RUnit) ->
  (forall h, E h CGetcwd = RStr pwd) ->
  (forall h, E h (CChdir (redbook_wip_dir wip_root)) = RUnit) ->
  (forall h, E h (CPopen (RipThread.abcde_cmd drive) None) = RProc lines code) ->
  code <> 0 ->
  exists t,
    RipThread.rip_redbook py_hash self cdp_str E w
    = (add_events w t, Raise (PyException code))
    /\ chdirs t = [redbook_wip_dir wip_root].
Proof.
  intros Hhash Hwip Hout Hdrive Hmko Hls Hfind Hmkw Hcwd Hcd Hpopen Hcode.
  rewrite (rip_redbook_rip_run py_hash E self drive wip_root out_root cdp_str
             fingerprint Hhash Hwip Hout Hdrive w folders pwd lines code
             Hmko (Hls _) Hfind Hmkw Hcwd Hcd Hpopen).
  apply Z.eqb_neq in Hcode. rewrite Hcode.
  eexists. split; [reflexivity|].
  unfold redbook_prepared.
  rewrite chdirs_app.
  repeat (rewrite chdirs_cons; cbn [ev_call ev_log]).
  rewrite chdirs_lines. reflexivity.
Qed.

Lemma failed_redbook_rip_stays_in_work_directory_witness :
  exists t,
    RipThread.rip_redbook CPython.tuplehash Scenario.rip_thread_with_roots
      TocExamples.three_tracks env_rip_fails Scenario.w0
    = (add_events Scenario.w0 t, Raise (PyException 1))
    /\ chdirs t = [redbook_wip_dir "./wip"].
Proof.
  eapply (failed_redbook_rip_stays_in_work_directory CPython.tuplehash
            Scenario.rip_thread_with_roots "/dev/sr0" "./wip" "./dvd"
            TocExamples.three_tracks "/srv/pippa" _ 1 [] ["Failed to open disc"]
            env_rip_fails Scenario.w0).
  - vm_compute. reflexivity.
  - reflexivity.
  - reflexivity.
  - reflexivity.
  - intros h. reflexivity.
  - intros h. reflexivity.
  - reflexivity.
  - intros h. reflexivity.
  - intros h. reflexivity.
  - intros h. reflexivity.
  - intros h. reflexivity.
  - lia.
Defined.

(** *** Ejecting *)

Definition eject_cmd (drive : string) : list string :=
  ["sudo"; "eject"; "-F"; drive].

Definition is_eject (ev : event) : bool :=
  match ev_call ev with
  | CCheckOutput (exe :: sub :: _) _ | CPopen (exe :: sub :: _) _ =>
      String.eqb exe "sudo" && String.eqb sub "eject"
  | _ => false
  end.

Lemma quiet_eject_skipped (E : env) (self : object) (P : event -> Prop)
      (skip_eject : pyval) :
  self !! "skip_eject" = Some skip_eject ->
  truthy skip_eject = true ->
  quiet E P (RipThread.eject_unless_skipped self).
Proof.
  intros Hskip Htrue. unfold RipThread.eject_unless_skipped.
  eapply emits_bind; [apply emits_getattr| |auto].
  intros v Hv. assert (v = skip_eject) as -> by congruence.
  rewrite Htrue. apply emits_ret. exact I.
Qed.

(** X20.  With [skip_eject] set, a cycle never runs the eject command,
    whatever is in the drive and however the cycle goes. *)
Theorem skip_eject_cycle_never_ejects
        (py_hash : list Z -> Z) (self : object) (skip_eject : pyval)
        (E : env) (w : world) :
  self !! "skip_eject" = Some skip_eject ->
  truthy skip_eject = true ->
  exists t,
    history (RipThread.loop_step py_hash self E w).1 = (history w ++ t)%list
    /\ Forall (fun ev => is_eject ev = false) t.
Proof.
  intros Hskip Htrue.
  assert (Hq : quiet E (fun ev => is_eject ev = false)
                     (RipThread.loop_step py_hash self)).
  { unfold RipThread.loop_step, RipThread.probe_blkid,
      RipThread.rip_redbook, RipThread.rip_dvd, RipThread.rip_data_disc,
      RipThread.drive_id_of.
    quiet_by ltac:(reflexivity);
      apply (quiet_eject_skipped E self _ skip_eject Hskip Htrue). }
  destruct (Hq w) as (t & Ht & Hall & _). exists t. auto.
Qed.

Lemma skip_eject_cycle_never_ejects_witness :
  let self := <[ "skip_eject" := VBool true ]> Scenario.rip_thread_with_roots in
  exists t,
    history (RipThread.loop_step CPython.tuplehash self
               Scenario.env_video_disc Scenario.w0).1
    = (history Scenario.w0 ++ t)%list
    /\ Forall (fun ev => is_eject ev = false) t.
Proof.
  intros self.
  apply (skip_eject_cycle_never_ejects CPython.tuplehash self (VBool true)
           Scenario.env_video_disc Scenario.w0); reflexivity.
Defined.

(** *** A drive path without a number *)

Lemma emits_bind_raises {A B} (E : env) (P : event -> Prop)
      (m : M A) (k : A -> M B) :
  quiet E P m ->
  (forall a, emits E P (k a) (fun r => exists e, r = Raise e)) ->
  emits E P (bind m k) (fun r => exists e, r = Raise e).
Proof.
  intros Hm Hk. eapply emits_bind; [exact Hm|intros a _; apply Hk|].
  intros e _. eauto.
Qed.

(** X23.  [rip_dvd] takes the MakeMKV disc index from the first run of digits
    in the drive path.  With a path that holds no digit (a symbolic name
    of the drive, say) and a disc whose output is not there yet, it
    cannot succeed: whatever the environment answers, it never starts
    [makemkvcon], and it ends with an error. *)
Theorem rip_dvd_needs_a_drive_number
        (self : object) (drive : string) (blkid_params : gmap string string)
        (E : env) (w : world) :
  self !! "drive" = Some (VStr drive) ->
  Text.search_digits drive = None ->
  (forall h p, E h (CExists p) <> RBool true) ->
  exists t e,
    history (RipThread.rip_dvd self blkid_params E w).1 = (history w ++ t)%list
    /\ Forall no_rip t
    /\ (RipThread.rip_dvd self blkid_params E w).2 = Raise e.
Proof.
  intros Hdrive Hnone Hex.
  assert (Hq : emits E no_rip (RipThread.rip_dvd self blkid_params)
                 (fun r => exists e, r = Raise e)).
  { unfold RipThread.rip_dvd.
    apply emits_bind_raises; [quiet_auto|intros label].
    apply emits_bind_raises; [quiet_auto|intros uuid]. cbv zeta.
    apply emits_bind_raises; [quiet_auto|intros wip_root].
    apply emits_bind_raises; [quiet_auto|intros out_root].
    unfold path_exists, expect_bool.
    eapply emits_bind;
      [apply emits_ask; intros; reflexivity| |intros e _; eauto].
    intros out_exists [h Hb].
    assert (out_exists = false) as ->.
    { specialize (Hex h (out_root ++ "/" ++ label ++ "-" ++ uuid)).
      destruct (E h (CExists _)) as [| | |[|]| | | |]; cbn in Hb;
        try discriminate Hb; congruence. }
    apply emits_bind_raises; [quiet_auto|intros update_key].
    apply emits_bind_raises; [quiet_auto|intros _].
    apply emits_bind_raises; [quiet_auto|intros _].
    apply emits_bind_raises; [quiet_auto|intros _].
    apply emits_bind_raises; [quiet_auto|intros _].
    apply emits_bind_raises; [quiet_auto|intros _].
    eapply emits_bind; [apply emits_attr_str| |intros e _; eauto].
    intros drive' Hdrive'. assert (drive' = drive) as -> by congruence.
    unfold RipThread.drive_id_of. rewrite Hnone.
    apply (emits_bind E no_rip _ _ (fun r => exists e, r = Raise e));
      [apply emits_raise; eauto| |intros e _; eauto].
    intros a [e He]. discriminate He. }
  destruct (Hq w) as (t & Ht & Hall & e & He). exists t, e. auto.
Qed.

Lemma rip_dvd_needs_a_drive_number_witness :
  let self := <[ "drive" := VStr "/dev/cdrom" ]> Scenario.rip_thread_with_roots in
  let E : env := fun _ c =>
    match c with
    | CExists _ => RBool false
    | _ => Scenario.answer_ok c
    end in
  exists t e,
    history (RipThread.rip_dvd self
               {[ "LABEL" := "MY_DVD"; "UUID" := "1234-5678" ]}
               E Scenario.w0).1
    = (history Scenario.w0 ++ t)%list
    /\ Forall no_rip t
    /\ (RipThread.rip_dvd self
          {[ "LABEL" := "MY_DVD"; "UUID" := "1234-5678" ]}
          E Scenario.w0).2
       = Raise e.
Proof.
  intros self E.
  apply (rip_dvd_needs_a_drive_number self "/dev/cdrom"
           {[ "LABEL" := "MY_DVD"; "UUID" := "1234-5678" ]} E Scenario.w0).
  - reflexivity.
  - reflexivity.
  - intros h p. discriminate.
Defined.

(** ** More on the parsers and on the derived names *)

(** X3.  Only the text between the first and the second colon-space of a line
    reaches [parse_blkid_params]: [parts[1]] is the second piece of the
    split, and whatever follows a second colon-space on the line (the
    rest of a label that holds one, say) is dropped without an error. *)
Theorem parse_blkid_reads_up_to_second_separator
        (blk params_str rest : string) :
  occurs Text.LF (blk ++ ": " ++ params_str ++ ": " ++ rest) = false ->
  occurs ": " blk = false ->
  occurs ": " params_str = false ->
  parse_blkid (blk ++ ": " ++ params_str ++ ": " ++ rest)
  = Ok {[ blk := parse_blkid_params params_str ]}.
Proof.
  intros Hlf Hblk Hparams. unfold parse_blkid, Text.split.
  rewrite (split_go_none _ _ "" Hlf), str_app_nil_l.
  cbn [parse_blkid_lines].
  assert (Hne : String.eqb (blk ++ ": " ++ params_str ++ ": " ++ rest) ""
                = false) by (destruct blk; reflexivity).
  rewrite Hne. unfold Text.split.
  rewrite (split_go_cut ": " blk _ "")
    by (try discriminate; apply no_match_within_colon_space, Hblk).
  rewrite (split_go_cut ": " params_str _ "")
    by (try discriminate; apply no_match_within_colon_space, Hparams).
  rewrite !str_app_nil_l. cbv zeta iota. rewrite insert_empty. reflexivity.
Qed.

Lemma parse_blkid_reads_up_to_second_separator_witness :
  parse_blkid ("/dev/sr0" ++ ": " ++ ("LABEL=" ++ Text.DQUOTE ++ "A") ++ ": "
               ++ "B" ++ Text.DQUOTE ++ " UUID=" ++ Text.DQUOTE ++ "1234-5678"
               ++ Text.DQUOTE)
  = Ok {[ "/dev/sr0" := parse_blkid_params ("LABEL=" ++ Text.DQUOTE ++ "A") ]}.
Proof.
  apply (parse_blkid_reads_up_to_second_separator "/dev/sr0"
           ("LABEL=" ++ Text.DQUOTE ++ "A")
           ("B" ++ Text.DQUOTE ++ " UUID=" ++ Text.DQUOTE ++ "1234-5678"
            ++ Text.DQUOTE));
    reflexivity.
Defined.

(** *** The name of the transcoded file *)

Definition is_slash (c : ascii) : bool := (nat_of_ascii c =? 47)%nat.
Definition is_dot (c : ascii) : bool := (nat_of_ascii c =? 46)%nat.
Definition plain (c : ascii) : bool := negb (is_slash c) && negb (is_dot c).

Lemma basename_go_no_slash (name cur : string) :
  all_in (fun c => negb (is_slash c)) name = true ->
  basename_go name cur = cur ++ name.
Proof.
  revert cur. induction name as [|c name IH]; intros cur Hok.
  - cbn. rewrite str_app_nil_r. reflexivity.
  - cbn [all_in] in Hok. apply andb_true_iff in Hok as [Hc Hok].
    apply negb_true_iff in Hc. unfold is_slash in Hc.
    cbn [basename_go]. rewrite Hc, (IH _ Hok), str_app_assoc. reflexivity.
Qed.

Lemma basename_go_dir (dir name cur : string) :
  basename_go (dir ++ "/" ++ name) cur = basename_go name "".
Proof.
  revert cur. induction dir as [|c dir IH]; intros cur.
  - reflexivity.
  - rewrite str_app_cons. cbn [basename_go].
    destruct (nat_of_ascii c =? 47)%nat; apply IH.
Qed.

Lemma os_path_basename_join (dir name : string) :
  all_in (fun c => negb (is_slash c)) name = true ->
  os_path_basename (dir ++ "/" ++ name) = name.
Proof.
  intros Hok. unfold os_path_basename.
  rewrite basename_go_dir, (basename_go_no_slash _ _ Hok). reflexivity.
Qed.

Lemma splitext_root_go_no_dot (ext : string) :
  all_in (fun c => negb (is_dot c)) ext = true ->
  splitext_root_go ext = None.
Proof.
  induction ext as [|c ext IH]; intros Hok; [reflexivity|].
  cbn [all_in] in Hok. apply andb_true_iff in Hok as [Hc Hok].
  apply negb_true_iff in Hc. unfold is_dot in Hc.
  cbn [splitext_root_go]. rewrite (IH Hok), Hc. reflexivity.
Qed.

Lemma splitext_root_go_stem (stem ext : string) :
  all_in (fun c => negb (is_dot c)) ext = true ->
  splitext_root_go (stem ++ "." ++ ext) = Some stem.
Proof.
  intros Hext. induction stem as [|c stem IH].
  - rewrite str_app_nil_l. change ("." ++ ext) with (String "." ext).
    cbn [splitext_root_go]. rewrite (splitext_root_go_no_dot _ Hext).
    reflexivity.
  - rewrite str_app_cons. cbn [splitext_root_go]. rewrite IH. reflexivity.
Qed.

Lemma all_in_weaken (cls cls' : ascii -> bool) (s : string) :
  (forall c, cls c = true -> cls' c = true) ->
  all_in cls s = true -> all_in cls' s = true.
Proof.
  intros Hcls. induction s as [|c s IH]; [reflexivity|].
  cbn [all_in]. intros H. apply andb_true_iff in H as [Hc Hs].
  rewrite (Hcls _ Hc), (IH Hs). reflexivity.
Qed.

Lemma all_in_app (cls : ascii -> bool) (s t : string) :
  all_in cls s = true -> all_in cls t = true -> all_in cls (s ++ t) = true.
Proof.
  intros Hs Ht. induction s as [|c s IH]; [exact Ht|].
  cbn [all_in] in Hs. apply andb_true_iff in Hs as [Hc Hs].
  rewrite str_app_cons. cbn [all_in]. rewrite Hc, (IH Hs). reflexivity.
Qed.

(** X15.  The output file of [transcode_file] is named after the input file
    without its directory and without its last extension.  So two files
    of a disc directory that differ only in the extension are transcoded
    to one and the same output file. *)
Theorem out_file_path_replaces_extension
        (dir stem ext out_path : string) :
  stem <> "" ->
  all_in plain stem = true ->
  all_in plain ext = true ->
  TranscodeThread.out_file_path_of (dir ++ "/" ++ stem ++ "." ++ ext) out_path
  = out_path ++ "/" ++ stem ++ ".mp4".
Proof.
  intros Hne Hstem Hext. unfold TranscodeThread.out_file_path_of. cbv zeta.
  assert (Hplain_slash : forall c, plain c = true -> negb (is_slash c) = true).
  { intros c H. apply andb_true_iff in H as [H _]. exact H. }
  assert (Hplain_dot : forall c, plain c = true -> negb (is_dot c) = true).
  { intros c H. apply andb_true_iff in H as [_ H]. exact H. }
  rewrite os_path_basename_join.
  2:{ apply all_in_app; [exact (all_in_weaken _ _ _ Hplain_slash Hstem)|].
      change ("." ++ ext) with (String "." ext). cbn [all_in].
      rewrite (all_in_weaken _ _ _ Hplain_slash Hext). reflexivity. }
  unfold splitext_root.
  rewrite (splitext_root_go_stem _ _ (all_in_weaken _ _ _ Hplain_dot Hext)).
  destruct stem as [|c stem]; [congruence|].
  cbn [all_in all_dots] in Hstem |- *.
  apply andb_true_iff in Hstem as [Hc _].
  apply Hplain_dot in Hc. apply negb_true_iff in Hc. unfold is_dot in Hc.
  rewrite Hc. reflexivity.
Qed.

Lemma out_file_path_replaces_extension_witness :
  TranscodeThread.out_file_path_of
    ("./wip/dvd/MY_DVD-1234-5678" ++ "/" ++ "title_t00" ++ "." ++ "mkv")
    "./dvd/MY_DVD-1234-5678"
  = "./dvd/MY_DVD-1234-5678" ++ "/" ++ "title_t00" ++ ".mp4"
  /\ TranscodeThread.out_file_path_of
       ("./wip/dvd/MY_DVD-1234-5678" ++ "/" ++ "title_t00" ++ "." ++ "avi")
       "./dvd/MY_DVD-1234-5678"
     = "./dvd/MY_DVD-1234-5678" ++ "/" ++ "title_t00" ++ ".mp4".
Proof.
  split.
  - apply (out_file_path_replaces_extension "./wip/dvd/MY_DVD-1234-5678"
             "title_t00" "mkv" "./dvd/MY_DVD-1234-5678");
      [discriminate|reflexivity|reflexivity].
  - apply (out_file_path_replaces_extension "./wip/dvd/MY_DVD-1234-5678"
             "title_t00" "avi" "./dvd/MY_DVD-1234-5678");
      [discriminate|reflexivity|reflexivity].
Defined.

(** *** The audio disc that has been ripped *)

Lemma rev_str_onto_app (s acc : string) :
  Text.rev_str_onto s acc = Text.rev_str s ++ acc.
Proof.
  unfold Text.rev_str. revert acc.
  induction s as [|c s IH]; intros acc; [reflexivity|].
  cbn [Text.rev_str_onto]. rewrite (IH (String c acc)), (IH (String c "")).
  rewrite str_app_assoc. reflexivity.
Qed.

Lemma rev_str_app (a b : string) :
  Text.rev_str (a ++ b) = Text.rev_str b ++ Text.rev_str a.
Proof.
  induction a as [|c a IH].
  - rewrite str_app_nil_l, str_app_nil_r. reflexivity.
  - rewrite str_app_cons. unfold Text.rev_str at 1 3.
    cbn [Text.rev_str_onto]. rewrite !rev_str_onto_app, IH, str_app_assoc.
    reflexivity.
Qed.

Lemma endswith_app (a suffix : string) :
  Text.endswith (a ++ suffix) suffix = true.
Proof. unfold Text.endswith. rewrite rev_str_app. apply prefix_app. Qed.

Lemma find_some_of_In {A} (f : A -> bool) (l : list A) (x : A) :
  In x l -> f x = true -> exists y, List.find f l = Some y.
Proof.
  intros Hin Hx. destruct (List.find f l) as [y|] eqn:Hfind; [eauto|].
  rewrite (List.find_none f l Hfind x Hin) in Hx. discriminate Hx.
Qed.

(** X26.  On an object that holds [wip_root] and [out_root] (the constructor
    sets neither: on the object that it builds the routine raises before
    this point, see C3), the directory that [rip_redbook] moves an album
    to is one that its own check recognises.  The album arrives under
    [out_root] with the fingerprint as the end of its name, and the check
    looks for a name under [out_root] that ends with the fingerprint.
    So, when every step of a first call succeeds ([abcde] exits with 0,
    its output decodes, and it leaves an album in the work directory),
    and the file system is one where a directory that has been moved
    into [out_root] is listed there afterwards: the first call returns,
    and the next call for the same disc makes sure of [out_root], lists
    it, logs that the disc is ripped already, and returns without a
    rip. *)
Theorem ripped_redbook_is_recognised
        (py_hash : list Z -> Z) (self : object)
        (drive wip_root out_root cdp_str pwd album_name : string)
        (fingerprint : Z) (folders albums lines : list string)
        (E : env) (w : world) :
  cdparanoia_hash py_hash cdp_str = Ok fingerprint ->
  self !! "wip_root" = Some (VStr wip_root) ->
  self !! "out_root" = Some (VStr out_root) ->
  self !! "drive" = Some (VStr drive) ->
  let cdp_hash := Text.hex_of_abs fingerprint in
  let wip_dir := redbook_wip_dir wip_root in
  let out_name := album_name ++ "-" ++ cdp_hash in
  (forall h, E h (CMakedirs out_root) = RUnit) ->
  E (history w ++ [Ev (CMakedirs out_root) RUnit])%list (CListdir out_root)
  = RList folders ->
  List.find (fun folder => Text.endswith folder cdp_hash) folders = None ->
  (forall h, E h (CMakedirs wip_dir) = RUnit) ->
  (forall h, E h CGetcwd = RStr pwd) ->
  (forall h p, E h (CChdir p) = RUnit) ->
  (forall h, E h (CPopen (RipThread.abcde_cmd drive) None) = RProc lines 0) ->
  (forall h, E h (CListdir wip_dir) = RList (album_name :: albums)) ->
  (forall h, E h (CMove (wip_dir ++ "/" ++ album_name)
                        (out_root ++ "/" ++ out_name)) = RUnit) ->
  (forall h, In (Ev (CMove (wip_dir ++ "/" ++ album_name)
                           (out_root ++ "/" ++ out_name)) RUnit) h ->
             exists folders',
               E h (CListdir out_root) = RList folders'
               /\ In out_name folders') ->
  let first := RipThread.rip_redbook py_hash self cdp_str E w in
  first.2 = Ok tt
  /\ exists folders' folder,
      RipThread.rip_redbook py_hash self cdp_str E first.1
      = (add_events first.1
           [Ev (CMakedirs out_root) RUnit;
            Ev (CListdir out_root) (RList folders');
            ev_log INFO "Redbook already ripped: {folder}" [VStr folder]],
         Ok tt).
Proof.
  intros Hhash Hwip Hout Hdrive cdp_hash wip_dir out_name
    Hmko Hls Hfind Hmkw Hcwd Hcd Hpopen Hlsw Hmove Hfs first.
  assert (Hfirst : first
                   = (add_events w
                        ((redbook_prepared wip_root out_root fingerprint
                            folders pwd
                          ++ Ev (CPopen (RipThread.abcde_cmd drive) None)
                                (RProc lines 0)
                          :: map ev_subprocess_line lines)
                         ++ [Ev (CChdir pwd) RUnit;
                             Ev (CListdir wip_dir) (RList (album_name :: albums));
                             Ev (CMove (wip_dir ++ "/" ++ album_name)
                                       (out_root ++ "/" ++ out_name)) RUnit]),
                      Ok tt)).
  { subst first.
    rewrite (rip_redbook_rip_run py_hash E self drive wip_root out_root cdp_str
               fingerprint Hhash Hwip Hout Hdrive w folders pwd lines 0
               Hmko Hls Hfind Hmkw Hcwd (fun h => Hcd h _) Hpopen).
    cbv zeta. change (0 =? 0) with true. cbv iota. run_unfold.
    rewrite bind_bind_run, bind_perform_run, Hcd. cbn [as_unit].
    rewrite bind_lift_run, add_events_app.
    rewrite bind_bind_run, bind_perform_run. fold wip_dir. rewrite Hlsw.
    cbn [as_list]. rewrite bind_lift_run, add_events_app.
    rewrite bind_perform_run. fold cdp_hash out_name. rewrite Hmove.
    cbn [as_unit]. rewrite lift_run, add_events_app.
    rewrite <- !app_assoc. reflexivity. }
  rewrite Hfirst. cbn [fst snd]. split; [reflexivity|].
  set (w1 := add_events w _).
  destruct (Hfs (history w1 ++ [Ev (CMakedirs out_root) RUnit])%list)
    as (folders' & Hls' & Hin).
  { subst w1. cbn [history add_events]. rewrite !in_app_iff. cbn. auto 10. }
  destruct (find_some_of_In
              (fun folder => Text.endswith folder cdp_hash) folders' out_name
              Hin) as [folder Hfolder].
  { unfold out_name. rewrite <- str_app_assoc. apply endswith_app. }
  exists folders', folder.
  apply (rip_redbook_skip_run py_hash E self out_root cdp_str fingerprint
           Hhash Hout w1 folders' folder Hmko Hls' Hfolder).
Qed.

(** An environment with a small file system for the audio path: the
    output root lists the directories that the history shows to have
    been moved into it; [abcde] leaves one album in the work directory. *)
Definition env_audio_rip : env :=
  fun h c =>
    match c with
    | CListdir "./dvd" =>
        RList (omap (fun ev => match ev with
                               | Ev (CMove _ dst) RUnit =>
                                   Some (Text.drop_str 6 dst)
                               | _ => None
                               end) h)
    | CListdir _ => RList ["Unknown Album"]
    | CPopen _ _ => RProc ["Grabbing track 1"] 0
    | _ => Scenario.answer_ok c
    end.

Lemma ripped_redbook_is_recognised_witness :
  let first :=
    RipThread.rip_redbook CPython.tuplehash Scenario.rip_thread_with_roots
      TocExamples.three_tracks env_audio_rip Scenario.w0 in
  first.2 = Ok tt
  /\ exists folders' folder,
      RipThread.rip_redbook CPython.tuplehash Scenario.rip_thread_with_roots
        TocExamples.three_tracks env_audio_rip first.1
      = (add_events first.1
           [Ev (CMakedirs "./dvd") RUnit;
            Ev (CListdir "./dvd") (RList folders');
            ev_log INFO "Redbook already ripped: {folder}" [VStr folder]],
         Ok tt).
Proof.
  eapply (ripped_redbook_is_recognised CPython.tuplehash
            Scenario.rip_thread_with_roots "/dev/sr0" "./wip" "./dvd"
            TocExamples.three_tracks "/srv/pippa" "Unknown Album" _ [] []
            ["Grabbing track 1"] env_audio_rip Scenario.w0).
  - vm_compute. reflexivity.
  - reflexivity.
  - reflexivity.
  - reflexivity.
  - intros h. reflexivity.
  - reflexivity.
  - reflexivity.
  - intros h. reflexivity.
  - intros h. reflexivity.
  - intros h p. reflexivity.
  - intros h. reflexivity.
  - intros h. reflexivity.
  - intros h. reflexivity.
  - intros h Hin. eexists. split; [reflexivity|].
    apply list_elem_of_In, list_elem_of_omap.
    eexists. split; [apply list_elem_of_In, Hin|]. reflexivity.
Defined.

(** *** The disc index of a numbered drive *)

From Stdlib Require DecimalPos.

Ltac by_char_code :=
  cbv zeta;
  repeat match goal with
         | |- context [(?a <=? ?b)%nat] => destruct (Nat.leb_spec a b)
         | |- context [(?a =? ?b)%nat] => destruct (Nat.eqb_spec a b)
         end;
  cbn; intros; repeat split; first [reflexivity|discriminate|lia].

Lemma is_digit_not_space (c : ascii) :
  Text.is_digit c = true -> Text.is_int_space c = false.
Proof. unfold Text.is_digit, Text.is_int_space. by_char_code. Qed.

Lemma is_digit_not_sign (c : ascii) :
  Text.is_digit c = true ->
  (nat_of_ascii c =? 45)%nat = false /\ (nat_of_ascii c =? 43)%nat = false.
Proof. unfold Text.is_digit. by_char_code. Qed.

Lemma all_in_rev_str_onto (cls : ascii -> bool) (s acc : string) :
  all_in cls s = true -> all_in cls acc = true ->
  all_in cls (Text.rev_str_onto s acc) = true.
Proof.
  revert acc. induction s as [|c s IH]; intros acc Hs Hacc; [exact Hacc|].
  cbn [all_in] in Hs. apply andb_true_iff in Hs as [Hc Hs].
  cbn [Text.rev_str_onto]. apply IH; [exact Hs|].
  cbn [all_in]. rewrite Hc, Hacc. reflexivity.
Qed.

Lemma rev_str_involutive (s : string) : Text.rev_str (Text.rev_str s) = s.
Proof.
  induction s as [|c s IH]; [reflexivity|].
  change (String c s) with (String c "" ++ s) at 1.
  rewrite rev_str_app, rev_str_app, IH. reflexivity.
Qed.

Lemma lstrip_ws_digits (s : string) :
  all_in Text.is_digit s = true -> Text.lstrip_ws s = s.
Proof.
  destruct s as [|c s]; [reflexivity|].
  cbn [all_in]. intros H. apply andb_true_iff in H as [Hc _].
  cbn [Text.lstrip_ws]. rewrite (is_digit_not_space _ Hc). reflexivity.
Qed.

Lemma strip_ws_digits (s : string) :
  all_in Text.is_digit s = true -> Text.strip_ws s = s.
Proof.
  intros Hs. unfold Text.strip_ws.
  rewrite (lstrip_ws_digits _ Hs), lstrip_ws_digits.
  - apply rev_str_involutive.
  - apply all_in_rev_str_onto; [exact Hs|reflexivity].
Qed.

Lemma count_digits_all (s : string) :
  all_in Text.is_digit s = true -> Text.count_digits s = String.length s.
Proof.
  induction s as [|c s IH]; [reflexivity|].
  cbn [all_in]. intros H. apply andb_true_iff in H as [Hc Hs].
  cbn [Text.count_digits String.length]. rewrite Hc, (IH Hs). reflexivity.
Qed.

Lemma py_int_digits (s : string) :
  s <> "" -> all_in Text.is_digit s = true ->
  (String.length s <= Text.max_str_digits)%nat ->
  Text.py_int s = Text.int_digits s 0 false.
Proof.
  intros Hne Hs Hlen. unfold Text.py_int. rewrite (strip_ws_digits _ Hs).
  cbv zeta. rewrite (count_digits_all _ Hs).
  apply Nat.ltb_ge in Hlen. rewrite Hlen.
  destruct s as [|c s]; [congruence|].
  cbn [all_in] in Hs. apply andb_true_iff in Hs as [Hc _].
  destruct (is_digit_not_sign _ Hc) as [-> ->]. reflexivity.
Qed.

Lemma int_digits_uint_acc (d : Decimal.uint) (acc : positive) :
  Text.int_digits (DecimalString.NilEmpty.string_of_uint d) (Z.pos acc) true
  = Some (Z.pos (Pos.of_uint_acc d acc)).
Proof.
  revert acc. induction d; intros acc;
    cbn [DecimalString.NilEmpty.string_of_uint Pos.of_uint_acc]; [reflexivity|..];
    cbn [Text.int_digits];
    match goal with
    | |- context [Text.is_digit ?c] =>
        change (Text.is_digit c) with true;
        let v := eval vm_compute in (Text.digit_val c) in
        change (Text.digit_val c) with v
    end;
    cbv iota; rewrite <- IHd; f_equal; lia.
Qed.

Lemma int_digits_uint (d : Decimal.uint) (after_digit : bool) :
  after_digit = true \/ d <> Decimal.Nil ->
  Text.int_digits (DecimalString.NilEmpty.string_of_uint d) 0 after_digit
  = Some (Z.of_N (Pos.of_uint d)).
Proof.
  revert after_digit. induction d; intros after_digit Hok;
    cbn [DecimalString.NilEmpty.string_of_uint Pos.of_uint].
  - destruct Hok as [->|Hne]; [reflexivity|congruence].
  - cbn [Text.int_digits].
    change (Text.is_digit "0") with true. cbv iota.
    change (10 * 0 + Text.digit_val "0") with 0.
    apply IHd. left. reflexivity.
  - apply (int_digits_uint_acc d 1).
  - apply (int_digits_uint_acc d 2).
  - apply (int_digits_uint_acc d 3).
  - apply (int_digits_uint_acc d 4).
  - apply (int_digits_uint_acc d 5).
  - apply (int_digits_uint_acc d 6).
  - apply (int_digits_uint_acc d 7).
  - apply (int_digits_uint_acc d 8).
  - apply (int_digits_uint_acc d 9).
Qed.

Lemma string_of_uint_digits (d : Decimal.uint) :
  all_in Text.is_digit (DecimalString.NilEmpty.string_of_uint d) = true.
Proof. induction d; cbn [DecimalString.NilEmpty.string_of_uint all_in]; auto. Qed.

Lemma to_uint_not_nil (p : positive) : Pos.to_uint p <> Decimal.Nil.
Proof.
  intros Hnil. pose proof (DecimalPos.Unsigned.of_to p) as Hp.
  rewrite Hnil in Hp. discriminate Hp.
Qed.

(** [str(n)] of a natural number is a non-empty string of digits, and
    [int] reads it back. *)
Lemma str_of_Z_digits (n : Z) :
  0 <= n ->
  (String.length (Text.str_of_Z n) <= Text.max_str_digits)%nat ->
  Text.str_of_Z n <> ""
  /\ all_in Text.is_digit (Text.str_of_Z n) = true
  /\ Text.py_int (Text.str_of_Z n) = Some n.
Proof.
  intros Hn. unfold Text.str_of_Z.
  destruct n as [|p|p]; [intros _; repeat split; discriminate| |lia].
  cbn [Z.to_int DecimalString.NilZero.string_of_int]. unfold DecimalString.NilZero.string_of_uint.
  pose proof (to_uint_not_nil p) as Hne.
  assert (Hstr : match Pos.to_uint p with
                 | Decimal.Nil => "0"
                 | _ => DecimalString.NilEmpty.string_of_uint (Pos.to_uint p)
                 end = DecimalString.NilEmpty.string_of_uint (Pos.to_uint p)).
  { destruct (Pos.to_uint p); [congruence|reflexivity..]. }
  rewrite Hstr. intros Hlen.
  assert (Hnonempty : DecimalString.NilEmpty.string_of_uint (Pos.to_uint p) <> "").
  { destruct (Pos.to_uint p); [congruence|discriminate..]. }
  split; [exact Hnonempty|]. split; [apply string_of_uint_digits|].
  rewrite (py_int_digits _ Hnonempty (string_of_uint_digits _) Hlen).
  rewrite int_digits_uint by (right; exact Hne).
  rewrite DecimalPos.Unsigned.of_to. reflexivity.
Qed.

Lemma take_digits_app (digits rest : string) :
  all_in Text.is_digit digits = true ->
  starts_in Text.is_digit rest = false ->
  Text.take_digits (digits ++ rest) = digits.
Proof.
  intros Hd Hrest. induction digits as [|c digits IH].
  - rewrite str_app_nil_l. destruct rest as [|c rest]; [reflexivity|].
    cbn [starts_in] in Hrest. cbn [Text.take_digits]. rewrite Hrest.
    reflexivity.
  - cbn [all_in] in Hd. apply andb_true_iff in Hd as [Hc Hd].
    rewrite str_app_cons. cbn [Text.take_digits]. rewrite Hc, (IH Hd).
    reflexivity.
Qed.

Lemma search_digits_app (before digits rest : string) :
  all_in (fun c => negb (Text.is_digit c)) before = true ->
  digits <> "" ->
  all_in Text.is_digit digits = true ->
  starts_in Text.is_digit rest = false ->
  Text.search_digits (before ++ digits ++ rest) = Some digits.
Proof.
  intros Hb Hne Hd Hrest. induction before as [|c before IH].
  - rewrite str_app_nil_l. destruct digits as [|c digits]; [congruence|].
    rewrite str_app_cons. cbn [Text.search_digits].
    pose proof Hd as Hd'. cbn [all_in] in Hd'.
    apply andb_true_iff in Hd' as [Hc _]. rewrite Hc.
    rewrite <- str_app_cons, (take_digits_app _ _ Hd Hrest). reflexivity.
  - cbn [all_in] in Hb. apply andb_true_iff in Hb as [Hc Hb].
    apply negb_true_iff in Hc.
    rewrite str_app_cons. cbn [Text.search_digits]. rewrite Hc.
    apply IH, Hb.
Qed.

(** X24.  For a drive path in which a number [n] is the first run of digits
    ([/dev/sr1], say), the index that [rip_dvd] computes is [n]:
    [makemkvcon] is told to read [disc:n].  The number is one that [int]
    reads: it has no more digits than the limit of the integer
    conversion. *)
Theorem drive_id_of_numbered_drive (before rest : string) (n : Z) :
  0 <= n ->
  (String.length (Text.str_of_Z n) <= Text.max_str_digits)%nat ->
  all_in (fun c => negb (Text.is_digit c)) before = true ->
  starts_in Text.is_digit rest = false ->
  RipThread.drive_id_of (before ++ Text.str_of_Z n ++ rest) = ret n.
Proof.
  intros Hn Hlen Hb Hrest.
  destruct (str_of_Z_digits n Hn Hlen) as (Hne & Hd & Hint).
  unfold RipThread.drive_id_of.
  rewrite (search_digits_app _ _ _ Hb Hne Hd Hrest), Hint. reflexivity.
Qed.

Lemma drive_id_of_numbered_drive_witness :
  RipThread.drive_id_of ("/dev/sr" ++ Text.str_of_Z 12 ++ "") = ret 12.
Proof.
  apply (drive_id_of_numbered_drive "/dev/sr" "" 12);
    [lia|vm_compute; lia|reflexivity|reflexivity].
Defined.

(** The bound on the number of digits is needed: [int] refuses a number
    of 4301 digits, and so does the routine. *)
Lemma drive_id_of_beyond_digit_limit :
  let digits := Text.str_of_Z (10 ^ 4300) in
  String.length digits = 4301%nat
  /\ RipThread.drive_id_of ("/dev/sr" ++ digits) = raise (ValueError digits).
Proof. vm_compute. split; reflexivity. Qed.

(** * The cycle on a disc that has been ripped *)

(** The [try] around [mount] in [loop_step], asked at history [h]: the
    answers of the environment, the events, and what the registry
    gains. *)
Definition mount_answers (E : env) (h : list event) (drive : string)
  : resp * resp :=
  let mnt_path := mnt_path_of drive in
  let r_dir := E h (CMakedirs mnt_path) in
  (r_dir,
   E (h ++ [Ev (CMakedirs mnt_path) r_dir])%list
     (CCheckOutput (mount_cmd drive mnt_path) None)).

Definition mount_events (E : env) (h : list event) (drive : string)
  : list event :=
  let mnt_path := mnt_path_of drive in
  let r_dir := (mount_answers E h drive).1 in
  let r_mount := (mount_answers E h drive).2 in
  Ev (CMakedirs mnt_path) r_dir
  :: match as_unit r_dir with
     | Raise e => [ev_log DEBUG "mount error: %s" [VExn e]]
     | Ok _ =>
         Ev (CCheckOutput (mount_cmd drive mnt_path) None) r_mount
         :: match as_str r_mount with
            | Ok _ => []
            | Raise e => [ev_log DEBUG "mount error: %s" [VExn e]]
            end
     end.

Definition mount_registered (E : env) (h : list event) (drive : string)
  : list string :=
  match as_unit (mount_answers E h drive).1,
        as_str (mount_answers E h drive).2 with
  | Ok _, Ok _ => [mnt_path_of drive]
  | _, _ => []
  end.

(** [eject_unless_skipped], asked at history [h]. *)
Definition eject_events (E : env) (h : list event) (skip_eject : pyval)
           (drive : string) : list event :=
  if truthy skip_eject then []
  else [Ev (CCheckOutput (eject_cmd drive) None)
           (E h (CCheckOutput (eject_cmd drive) None))].

Definition eject_result (E : env) (h : list event) (skip_eject : pyval)
           (drive : string) : res unit :=
  if truthy skip_eject then Ok tt
  else match as_str (E h (CCheckOutput (eject_cmd drive) None)) with
       | Ok _ => Ok tt
       | Raise e => Raise e
       end.

(** The parameters that the probe gives for the drive. *)
Definition disc_params (drive blkid_out : string) : gmap string string :=
  match parse_blkid (Text.strip blkid_out) with
  | Ok blkid => default ∅ (blkid !! drive)
  | Raise _ => ∅
  end.

(** What the [except CalledProcessError] of the audio branch makes of the
    result of its body. *)
Definition no_disc_events (r : res unit) : list event :=
  match r with
  | Raise (CalledProcessError _) => [ev_log DEBUG "No disc detected" []]
  | _ => []
  end.

Definition no_disc_result (r : res unit) : res unit :=
  match r with
  | Raise (CalledProcessError _) => Ok tt
  | _ => r
  end.

Lemma try_mount_run (drive : string) (E : env) (w : world) :
  try_except (mount drive (mnt_path_of drive))
    (fun e => logging DEBUG "mount error: %s" [VExn e]) E w
  = ({| history := (history w ++ mount_events E (history w) drive)%list;
        mounts := (mounts w ++ mount_registered E (history w) drive)%list |},
     Ok tt).
Proof.
  unfold try_except, mount, mount_events, mount_registered, mount_answers.
  cbn [fst snd]. cbv zeta. run_unfold.
  rewrite bind_bind_run, bind_perform_run, bind_lift_run.
  destruct (as_unit (E (history w) (CMakedirs (mnt_path_of drive)))) as [[]|e].
  - rewrite bind_execute_capture_run. cbv zeta.
    fold (mount_cmd drive (mnt_path_of drive)). cbn [history add_events].
    destruct (as_str _) as [out|e].
    + unfold bind, ret, mounts_append, add_events. cbn [history mounts].
      rewrite <- app_assoc. reflexivity.
    + rewrite emit_run. unfold add_events. cbn [history mounts].
      rewrite <- !app_assoc, app_nil_r. reflexivity.
  - rewrite emit_run. unfold add_events. cbn [history mounts].
    rewrite <- !app_assoc, app_nil_r. reflexivity.
Qed.

Lemma eject_unless_skipped_run (self : object) (drive : string)
      (skip_eject : pyval) (E : env) (w : world) :
  self !! "drive" = Some (VStr drive) ->
  self !! "skip_eject" = Some skip_eject ->
  RipThread.eject_unless_skipped self E w
  = (add_events w (eject_events E (history w) skip_eject drive),
     eject_result E (history w) skip_eject drive).
Proof.
  intros Hdrive Hskip.
  unfold RipThread.eject_unless_skipped, eject_events, eject_result.
  rewrite (bind_getattr_run self "skip_eject" skip_eject) by exact Hskip.
  destruct (truthy skip_eject); cbn [negb].
  - rewrite ret_run, add_events_nil. reflexivity.
  - rewrite (bind_attr_str_run self "drive" drive) by exact Hdrive.
    unfold eject. rewrite bind_execute_capture_run. cbv zeta.
    fold (eject_cmd drive). destruct (as_str _); reflexivity.
Qed.

Lemma rip_dvd_without_wip_root (self : object)
      (blkid_params : gmap string string) (label uuid : string)
      (E : env) (w : world) :
  blkid_params !! "LABEL" = Some label ->
  blkid_params !! "UUID" = Some uuid ->
  self !! "wip_root" = None ->
  RipThread.rip_dvd self blkid_params E w
  = (w, Raise (AttributeError "wip_root")).
Proof.
  intros Hlabel Huuid Hwip.
  unfold RipThread.rip_dvd, dict_get, attr_str, getattr, bind.
  rewrite Hlabel, Huuid. cbn. rewrite Hwip. reflexivity.
Qed.

Lemma rip_data_disc_without_wip_root (self : object)
      (blkid_params : gmap string string) (label uuid : string)
      (E : env) (w : world) :
  blkid_params !! "LABEL" = Some label ->
  blkid_params !! "UUID" = Some uuid ->
  self !! "wip_root" = None ->
  RipThread.rip_data_disc self blkid_params E w
  = (w, Raise (AttributeError "wip_root")).
Proof.
  intros Hlabel Huuid Hwip.
  unfold RipThread.rip_data_disc, dict_get, attr_str, getattr, bind.
  rewrite Hlabel, Huuid. cbn. rewrite Hwip. reflexivity.
Qed.

Lemma rip_dvd_without_out_root (self : object)
      (blkid_params : gmap string string) (label uuid wip_root : string)
      (E : env) (w : world) :
  blkid_params !! "LABEL" = Some label ->
  blkid_params !! "UUID" = Some uuid ->
  self !! "wip_root" = Some (VStr wip_root) ->
  self !! "out_root" = None ->
  RipThread.rip_dvd self blkid_params E w
  = (w, Raise (AttributeError "out_root")).
Proof.
  intros Hlabel Huuid Hwip Hout.
  unfold RipThread.rip_dvd, dict_get, attr_str, getattr, bind.
  rewrite Hlabel, Huuid. cbn. rewrite Hwip. cbn. rewrite Hout. reflexivity.
Qed.

Lemma rip_data_disc_without_out_root (self : object)
      (blkid_params : gmap string string) (label uuid wip_root : string)
      (E : env) (w : world) :
  blkid_params !! "LABEL" = Some label ->
  blkid_params !! "UUID" = Some uuid ->
  self !! "wip_root" = Some (VStr wip_root) ->
  self !! "out_root" = None ->
  RipThread.rip_data_disc self blkid_params E w
  = (w, Raise (AttributeError "out_root")).
Proof.
  intros Hlabel Huuid Hwip Hout.
  unfold RipThread.rip_data_disc, dict_get, attr_str, getattr, bind.
  rewrite Hlabel, Huuid. cbn. rewrite Hwip. cbn. rewrite Hout. reflexivity.
Qed.

Lemma rip_data_disc_skip_run (self : object)
      (blkid_params : gmap string string)
      (label uuid wip_root out_root : string) (E : env) (w : world) :
  blkid_params !! "LABEL" = Some label ->
  blkid_params !! "UUID" = Some uuid ->
  self !! "wip_root" = Some (VStr wip_root) ->
  self !! "out_root" = Some (VStr out_root) ->
  let out_path := out_root ++ "/" ++ label ++ "-" ++ uuid ++ ".iso" in
  E (history w) (CExists out_path) = RBool true ->
  RipThread.rip_data_disc self blkid_params E w
  = (add_events w
       [Ev (CExists out_path) (RBool true);
        ev_log INFO "Output path exists: {out_path}" [VStr out_path]],
     Ok tt).
Proof.
  intros Hlabel Huuid Hwip Hout out_path Hex. unfold RipThread.rip_data_disc.
  rewrite (bind_dict_get_run blkid_params "LABEL" label) by exact Hlabel.
  rewrite (bind_dict_get_run blkid_params "UUID" uuid) by exact Huuid.
  cbv zeta.
  rewrite (bind_attr_str_run self "wip_root" wip_root) by exact Hwip.
  rewrite (bind_attr_str_run self "out_root" out_root) by exact Hout.
  fold out_path. run_unfold.
  rewrite bind_bind_run, bind_perform_run, Hex. cbn [as_bool].
  rewrite bind_lift_run, emit_run, add_events_app. reflexivity.
Qed.

Section RippedFilesystemDisc.

Context (py_hash : list Z -> Z) (E : env).
Variables (self : object) (drive : string) (skip_eject : pyval)
          (blkid_out : string) (is_dvd : bool)
          (blkid : gmap string (gmap string string))
          (blkid_params : gmap string string) (label uuid : string).
Hypothesis Hdrive : self !! "drive" = Some (VStr drive).
Hypothesis Hskip : self !! "skip_eject" = Some skip_eject.
Hypothesis Hblkid :
  forall h, E h (CCheckOutput (blkid_cmd drive) None) = RStr blkid_out.
Hypothesis Hvideo :
  forall h, E h (CExists (mnt_path_of drive ++ "/VIDEO_TS")) = RBool is_dvd.
Hypothesis Hparse : parse_blkid (Text.strip blkid_out) = Ok blkid.
Hypothesis Hparams : blkid !! drive = Some blkid_params.
Hypothesis Hlabel : blkid_params !! "LABEL" = Some label.
Hypothesis Huuid : blkid_params !! "UUID" = Some uuid.

(** The events of a cycle up to the choice of the rip routine: the
    probe, the mount, the look for [VIDEO_TS]. *)
Definition filesystem_seen (w : world) : list event :=
  (probed_events drive blkid_out blkid_params
   ++ mount_events E (history w ++ probed_events drive blkid_out blkid_params)
        drive
   ++ [Ev (CExists (mnt_path_of drive ++ "/VIDEO_TS")) (RBool is_dvd)])%list.

Definition filesystem_registry (w : world) : list string :=
  (mounts w
   ++ mount_registered E
        (history w ++ probed_events drive blkid_out blkid_params) drive)%list.

Lemma disc_params_parsed : disc_params drive blkid_out = blkid_params.
Proof. unfold disc_params. rewrite Hparse, Hparams. reflexivity. Qed.

Lemma filesystem_cycle_seen (w : world) :
  RipThread.loop_step py_hash self E w
  = ((if is_dvd then RipThread.rip_dvd self blkid_params
      else RipThread.rip_data_disc self blkid_params) ;;
     RipThread.eject_unless_skipped self) E
      {| history := (history w ++ filesystem_seen w)%list;
         mounts := filesystem_registry w |}.
Proof.
  rewrite (loop_step_probed py_hash E self drive blkid_out blkid blkid_params
             Hdrive Hblkid Hparse Hparams).
  unfold after_probe. cbv zeta. fold (mnt_path_of drive).
  unfold bind at 1. rewrite try_mount_run.
  run_unfold. rewrite bind_bind_run, bind_perform_run, Hvideo.
  cbn [as_bool]. rewrite bind_lift_run.
  unfold filesystem_seen, filesystem_registry, add_events.
  cbn [history mounts]. rewrite <- !app_assoc. reflexivity.
Qed.

Lemma ripped_filesystem_cycle_without_wip_root (w : world) :
  self !! "wip_root" = None ->
  RipThread.loop_step py_hash self E w
  = ({| history := (history w ++ filesystem_seen w)%list;
        mounts := filesystem_registry w |},
     Raise (AttributeError "wip_root")).
Proof.
  intros Hwip. rewrite filesystem_cycle_seen. unfold bind.
  destruct is_dvd.
  - rewrite (rip_dvd_without_wip_root self blkid_params label uuid)
      by assumption.
    reflexivity.
  - rewrite (rip_data_disc_without_wip_root self blkid_params label uuid)
      by assumption.
    reflexivity.
Qed.

Lemma ripped_filesystem_cycle_without_out_root (w : world)
      (wip_root : string) :
  self !! "wip_root" = Some (VStr wip_root) ->
  self !! "out_root" = None ->
  RipThread.loop_step py_hash self E w
  = ({| history := (history w ++ filesystem_seen w)%list;
        mounts := filesystem_registry w |},
     Raise (AttributeError "out_root")).
Proof.
  intros Hwip Hout. rewrite filesystem_cycle_seen. unfold bind.
  destruct is_dvd.
  - rewrite (rip_dvd_without_out_root self blkid_params label uuid wip_root)
      by assumption.
    reflexivity.
  - rewrite (rip_data_disc_without_out_root self blkid_params label uuid
               wip_root) by assumption.
    reflexivity.
Qed.

Definition filesystem_identity : string :=
  if is_dvd then label ++ "-" ++ uuid else label ++ "-" ++ uuid ++ ".iso".

(** The events up to the end of the rip routine, which finds the output
    and logs it. *)
Definition filesystem_checked (w : world) (out_root : string) : list event :=
  (filesystem_seen w
   ++ [Ev (CExists (out_root ++ "/" ++ filesystem_identity)) (RBool true);
       ev_log INFO "Output path exists: {out_path}"
         [VStr (out_root ++ "/" ++ filesystem_identity)]])%list.

Lemma ripped_filesystem_cycle_with_roots (w : world)
      (wip_root out_root : string) :
  self !! "wip_root" = Some (VStr wip_root) ->
  self !! "out_root" = Some (VStr out_root) ->
  (forall h, E h (CExists (out_root ++ "/" ++ filesystem_identity))
             = RBool true) ->
  let h := (history w ++ filesystem_checked w out_root)%list in
  RipThread.loop_step py_hash self E w
  = ({| history := (h ++ eject_events E h skip_eject drive)%list;
        mounts := filesystem_registry w |},
     eject_result E h skip_eject drive).
Proof.
  intros Hwip Hout Hpresent h. rewrite filesystem_cycle_seen. unfold bind at 1.
  set (w1 := {| history := _; mounts := _ |}).
  assert (Hrip : (if is_dvd then RipThread.rip_dvd self blkid_params
                  else RipThread.rip_data_disc self blkid_params) E w1
                 = (add_events w1
                      [Ev (CExists (out_root ++ "/" ++ filesystem_identity))
                          (RBool true);
                       ev_log INFO "Output path exists: {out_path}"
                         [VStr (out_root ++ "/" ++ filesystem_identity)]],
                    Ok tt)).
  { unfold filesystem_identity in *. destruct is_dvd.
    - apply (rip_dvd_skip_run E self wip_root out_root label uuid blkid_params
               Hlabel Huuid Hwip Hout w1).
      apply Hpresent.
    - apply (rip_data_disc_skip_run self blkid_params label uuid wip_root
               out_root E w1 Hlabel Huuid Hwip Hout).
      apply Hpresent. }
  rewrite Hrip.
  rewrite (eject_unless_skipped_run self drive skip_eject) by assumption.
  subst w1 h. unfold add_events, filesystem_checked. cbn [history mounts].
  rewrite <- !app_assoc. reflexivity.
Qed.

End RippedFilesystemDisc.

Section RippedAudioDisc.

Context (py_hash : list Z -> Z) (E : env).
Variables (self : object) (drive : string) (skip_eject : pyval)
          (toc : string) (fingerprint : Z).
Hypothesis Hdrive : self !! "drive" = Some (VStr drive).
Hypothesis Hskip : self !! "skip_eject" = Some skip_eject.
Hypothesis Hnone :
  forall h, RipThread.no_blkid_output
              (probe_result (E h (CCheckOutput (blkid_cmd drive) None)))
            = true.
Hypothesis Hcdp : forall h, E h (CCheckOutput cdparanoia_cmd None) = RStr toc.
Hypothesis Hhash : cdparanoia_hash py_hash (Text.strip toc) = Ok fingerprint.

(** The events of a cycle up to the call of [rip_redbook]. *)
Definition audio_seen (w : world) : list event :=
  (probe_events drive (E (history w) (CCheckOutput (blkid_cmd drive) None))
   ++ [ev_log DEBUG "No blkid output" [];
       Ev (CCheckOutput cdparanoia_cmd None) (RStr toc);
       ev_log INFO "Redbook disc detected" []])%list.

Lemma audio_cycle_seen (w : world) :
  RipThread.loop_step py_hash self E w
  = try_except_only is_CalledProcessError
      (RipThread.rip_redbook py_hash self (Text.strip toc) ;;
       RipThread.eject_unless_skipped self)
      (fun e => logging DEBUG "No disc detected" []) E
      (add_events w (audio_seen w)).
Proof.
  unfold RipThread.loop_step. unfold bind at 1.
  rewrite (probe_blkid_run E self drive Hdrive). cbn zeta.
  rewrite Hnone.
  fold (probe_events drive (E (history w) (CCheckOutput (blkid_cmd drive) None))).
  unfold try_except_only, try_except. run_unfold.
  rewrite bind_emit_run, bind_execute_capture_run. cbn zeta.
  fold cdparanoia_cmd. rewrite Hcdp. cbn [as_str].
  rewrite bind_emit_run, !add_events_app.
  unfold audio_seen. reflexivity.
Qed.

Lemma ripped_audio_cycle_without_out_root (w : world) :
  self !! "out_root" = None ->
  RipThread.loop_step py_hash self E w
  = (add_events w (audio_seen w), Raise (AttributeError "out_root")).
Proof.
  intros Hout. rewrite audio_cycle_seen.
  unfold try_except_only, try_except, bind at 1.
  unfold RipThread.rip_redbook.
  rewrite Hhash, bind_lift_run. cbv zeta.
  unfold attr_str, getattr, bind. rewrite Hout. reflexivity.
Qed.

(** The events up to the end of [rip_redbook], which finds the folder of
    the disc and logs it. *)
Definition audio_checked (w : world) (out_root : string)
           (folders : list string) (folder : string) : list event :=
  (audio_seen w
   ++ [Ev (CMakedirs out_root) RUnit;
       Ev (CListdir out_root) (RList folders);
       ev_log INFO "Redbook already ripped: {folder}" [VStr folder]])%list.

Lemma ripped_audio_cycle_with_out_root (w : world) (out_root : string)
      (folders : list string) (folder : string) :
  self !! "out_root" = Some (VStr out_root) ->
  E (history w ++ audio_seen w)%list (CMakedirs out_root) = RUnit ->
  E (history w ++ audio_seen w ++ [Ev (CMakedirs out_root) RUnit])%list
    (CListdir out_root) = RList folders ->
  List.find (fun folder => Text.endswith folder (Text.hex_of_abs fingerprint))
            folders = Some folder ->
  let h := (history w ++ audio_checked w out_root folders folder)%list in
  let ejected := eject_result E h skip_eject drive in
  RipThread.loop_step py_hash self E w
  = (add_events w
       (audio_checked w out_root folders folder
        ++ eject_events E h skip_eject drive
        ++ no_disc_events ejected),
     no_disc_result ejected).
Proof.
  intros Hout Hmk Hls Hfind h ejected. rewrite audio_cycle_seen.
  unfold try_except_only, try_except, bind at 1.
  set (w1 := add_events w (audio_seen w)).
  assert (Hrip : RipThread.rip_redbook py_hash self (Text.strip toc) E w1
                 = (add_events w (audio_checked w out_root folders folder),
                    Ok tt)).
  { unfold RipThread.rip_redbook.
    rewrite Hhash, bind_lift_run. cbv zeta.
    rewrite (bind_attr_str_run self "out_root" out_root) by exact Hout.
    run_unfold.
    rewrite bind_bind_run, bind_perform_run. subst w1. cbn [history add_events].
    rewrite Hmk. cbn [as_unit]. rewrite bind_lift_run.
    rewrite bind_bind_run, bind_perform_run. cbn [history add_events].
    rewrite <- app_assoc, Hls. cbn [as_list].
    rewrite bind_lift_run, Hfind, emit_run.
    unfold audio_checked, add_events. cbn [history mounts].
    rewrite <- !app_assoc. reflexivity. }
  rewrite Hrip.
  rewrite (eject_unless_skipped_run self drive skip_eject) by assumption.
  cbn [history add_events]. fold h. fold ejected.
  rewrite add_events_app.
  destruct ejected as [[]|e]; cbn [no_disc_events no_disc_result].
  - rewrite app_nil_r. reflexivity.
  - destruct e; cbn [is_CalledProcessError];
      try (rewrite raise_run, app_nil_r; reflexivity).
    unfold logging. rewrite emit_run, add_events_app, <- app_assoc.
    reflexivity.
Qed.

End RippedAudioDisc.

(** C2, amended.  With a disc in the drive whose identity has its output
    artifact in the output tree, a poll cycle starts no rip process,
    whatever the object holds.  It is not without other effects.

    For a disc with a file system the cycle logs the probe, calls [mount]
    (creates the mount point, runs the privileged mount command, appends
    the mount point to the registry when both succeeded, logs the error
    otherwise) and looks for [VIDEO_TS]; the rip routine comes after
    that.  On an object without [wip_root] or [out_root], as the
    constructor builds it, the routine raises the attribute error there:
    the output tree is not looked at and nothing is ejected.  On an
    object that holds both, the routine finds the output path, logs it,
    and the cycle ends with the eject command unless [skip_eject] is set.

    For an audio disc nothing is mounted.  After the two probes, an
    object without [out_root] raises the attribute error, which the
    handler of the branch does not catch.  An object with [out_root]
    ensures the output directory, lists it, logs the folder of the disc,
    and ejects unless [skip_eject] is set; a [CalledProcessError] of the
    eject command is caught by the handler and logged as a missing
    disc. *)
Theorem poll_cycle_on_ripped_disc_never_rips
        (py_hash : list Z -> Z) (self : object) (drive out_root : string)
        (skip_eject : pyval) (d : disc) (identity : string)
        (E : env) (w : world) :
  self !! "drive" = Some (VStr drive) ->
  self !! "skip_eject" = Some skip_eject ->
  self !! "out_root" = None \/ self !! "out_root" = Some (VStr out_root) ->
  in_drive E drive d ->
  disc_identity py_hash drive d = Some identity ->
  artifact_present E out_root d identity ->
  let run := RipThread.loop_step py_hash self E w in
  (exists t, history run.1 = (history w ++ t)%list /\ Forall no_rip t)
  /\ match d with
     | FilesystemDisc blkid_out is_dvd =>
         let probed :=
           probed_events drive blkid_out (disc_params drive blkid_out) in
         let seen :=
           (probed
            ++ mount_events E (history w ++ probed) drive
            ++ [Ev (CExists (mnt_path_of drive ++ "/VIDEO_TS"))
                   (RBool is_dvd)])%list in
         let registry :=
           (mounts w ++ mount_registered E (history w ++ probed) drive)%list in
         let checked :=
           (seen
            ++ [Ev (CExists (out_root ++ "/" ++ identity)) (RBool true);
                ev_log INFO "Output path exists: {out_path}"
                  [VStr (out_root ++ "/" ++ identity)]])%list in
         (self !! "wip_root" = None ->
          run = ({| history := (history w ++ seen)%list; mounts := registry |},
                 Raise (AttributeError "wip_root")))
         /\ (forall wip_root,
                self !! "wip_root" = Some (VStr wip_root) ->
                self !! "out_root" = None ->
                run = ({| history := (history w ++ seen)%list;
                          mounts := registry |},
                       Raise (AttributeError "out_root")))
         /\ (forall wip_root,
                self !! "wip_root" = Some (VStr wip_root) ->
                self !! "out_root" = Some (VStr out_root) ->
                let h := (history w ++ checked)%list in
                run = ({| history :=
                            (h ++ eject_events E h skip_eject drive)%list;
                          mounts := registry |},
                       eject_result E h skip_eject drive))
     | AudioDisc toc =>
         let seen :=
           (probe_events drive
              (E (history w) (CCheckOutput (blkid_cmd drive) None))
            ++ [ev_log DEBUG "No blkid output" [];
                Ev (CCheckOutput cdparanoia_cmd None) (RStr toc);
                ev_log INFO "Redbook disc detected" []])%list in
         (self !! "out_root" = None ->
          run = (add_events w seen, Raise (AttributeError "out_root")))
         /\ (forall folders,
                self !! "out_root" = Some (VStr out_root) ->
                E (history w ++ seen)%list (CMakedirs out_root) = RUnit ->
                E (history w ++ seen ++ [Ev (CMakedirs out_root) RUnit])%list
                  (CListdir out_root) = RList folders ->
                exists folder,
                  List.find (fun folder => Text.endswith folder identity)
                            folders = Some folder
                  /\ let checked :=
                       (seen
                        ++ [Ev (CMakedirs out_root) RUnit;
                            Ev (CListdir out_root) (RList folders);
                            ev_log INFO "Redbook already ripped: {folder}"
                              [VStr folder]])%list in
                     let h := (history w ++ checked)%list in
                     let ejected := eject_result E h skip_eject drive in
                     run = (add_events w
                              (checked
                               ++ eject_events E h skip_eject drive
                               ++ no_disc_events ejected),
                            no_disc_result ejected))
     end.
Proof.
  intros Hdrive Hskip Hroot Hin Hid Hpresent run. split.
  { assert (Hq : quiet E no_rip (RipThread.loop_step py_hash self)).
    { apply (cycle_without_rip py_hash E self drive Hdrive d identity Hin Hid).
      intros root Hsome. destruct Hroot as [Hnone|Hsame]; [congruence|].
      assert (root = out_root) as -> by congruence. exact Hpresent. }
    destruct (Hq w) as (t & Ht & Hall & _). exists t. auto. }
  subst run. destruct d as [blkid_out is_dvd|toc].
  - (* a disc with a file system *)
    destruct Hin as [Hblkid Hvideo].
    destruct (filesystem_identity_inv _ _ _ _ _ Hid)
      as (blkid & blkid_params & label & uuid
          & Hparse & Hparams & Hlabel & Huuid & Hidentity).
    cbv zeta.
    rewrite (disc_params_parsed drive blkid_out blkid blkid_params
               Hparse Hparams).
    split; [|split].
    + intros Hwip.
      exact (ripped_filesystem_cycle_without_wip_root py_hash E self drive
               blkid_out is_dvd blkid blkid_params label uuid Hdrive Hblkid
               Hvideo Hparse Hparams Hlabel Huuid w Hwip).
    + intros wip_root Hwip Hout.
      exact (ripped_filesystem_cycle_without_out_root py_hash E self drive
               blkid_out is_dvd blkid blkid_params label uuid Hdrive Hblkid
               Hvideo Hparse Hparams Hlabel Huuid w wip_root Hwip Hout).
    + intros wip_root Hwip Hout. subst identity.
      cbn [artifact_present] in Hpresent.
      pose proof (ripped_filesystem_cycle_with_roots py_hash E self drive
                    skip_eject blkid_out is_dvd blkid blkid_params label uuid
                    Hdrive Hskip Hblkid Hvideo Hparse Hparams Hlabel Huuid
                    w wip_root out_root Hwip Hout Hpresent) as Hrun.
      exact Hrun.
  - (* an audio disc *)
    destruct Hin as [Hnone Hcdp]. cbn [disc_identity] in Hid.
    destruct (cdparanoia_hash py_hash (Text.strip toc)) as [fingerprint|]
      eqn:Hhash; [|discriminate Hid].
    injection Hid as <-. cbv zeta. split.
    + intros Hout.
      exact (ripped_audio_cycle_without_out_root py_hash E self drive toc
               fingerprint Hdrive Hnone Hcdp Hhash w Hout).
    + intros folders Hout Hmk Hls.
      cbn [artifact_present] in Hpresent.
      destruct (Hpresent (history w
                          ++ audio_seen E drive toc w
                          ++ [Ev (CMakedirs out_root) RUnit])%list)
        as (folders' & Hls' & Hsome).
      unfold audio_seen in Hls'. rewrite Hls in Hls'. injection Hls' as <-.
      destruct (find_of_existsb _ _ Hsome) as [folder Hfind].
      exists folder. split; [exact Hfind|].
      exact (ripped_audio_cycle_with_out_root py_hash E self drive skip_eject
               toc fingerprint Hdrive Hskip Hnone Hcdp Hhash w out_root
               folders folder Hout Hmk Hls Hfind).
Qed.

Lemma poll_cycle_on_ripped_disc_never_rips_witness :
  RipThread.loop_step CPython.tuplehash Scenario.rip_thread
    Scenario.env_video_disc Scenario.w0
  = ({| history :=
          [Ev (CCheckOutput (blkid_cmd "/dev/sr0") None)
              (RStr BlkidExamples.sr0_line);
           ev_log DEBUG "blkid_str: {blkid_str}"
             [VStr BlkidExamples.sr0_line];
           ev_log DEBUG "params: {blkid_params}"
             [VDict {[ "LABEL" := "MY_DVD"; "UUID" := "1234-5678" ]}];
           Ev (CMakedirs "./mnt/dev/sr0") RUnit;
           Ev (CCheckOutput (mount_cmd "/dev/sr0" "./mnt/dev/sr0") None)
              (RStr "");
           Ev (CExists "./mnt/dev/sr0/VIDEO_TS") (RBool true)];
        mounts := ["./mnt/dev/sr0"] |},
     Raise (AttributeError "wip_root")).
Proof.
  pose proof (poll_cycle_on_ripped_disc_never_rips CPython.tuplehash
                Scenario.rip_thread "/dev/sr0" "./dvd" (VBool false)
                Scenario.video_disc "MY_DVD-1234-5678"
                Scenario.env_video_disc Scenario.w0) as H.
  destruct H as (_ & H & _).
  - reflexivity.
  - reflexivity.
  - left. reflexivity.
  - split; intros h; reflexivity.
  - vm_compute. reflexivity.
  - intros h. reflexivity.
  - rewrite H by reflexivity. vm_compute. reflexivity.
Defined.

(** The same disc and an object that holds the two roots: the routine
    finds the output directory, and the cycle ends with the eject. *)
Lemma ripped_video_disc_cycle_with_roots :
  RipThread.loop_step CPython.tuplehash Scenario.rip_thread_with_roots
    Scenario.env_video_disc Scenario.w0
  = ({| history :=
          [Ev (CCheckOutput (blkid_cmd "/dev/sr0") None)
              (RStr BlkidExamples.sr0_line);
           ev_log DEBUG "blkid_str: {blkid_str}"
             [VStr BlkidExamples.sr0_line];
           ev_log DEBUG "params: {blkid_params}"
             [VDict {[ "LABEL" := "MY_DVD"; "UUID" := "1234-5678" ]}];
           Ev (CMakedirs "./mnt/dev/sr0") RUnit;
           Ev (CCheckOutput (mount_cmd "/dev/sr0" "./mnt/dev/sr0") None)
              (RStr "");
           Ev (CExists "./mnt/dev/sr0/VIDEO_TS") (RBool true);
           Ev (CExists "./dvd/MY_DVD-1234-5678") (RBool true);
           ev_log INFO "Output path exists: {out_path}"
             [VStr "./dvd/MY_DVD-1234-5678"];
           Ev (CCheckOutput (eject_cmd "/dev/sr0") None) (RStr "")];
        mounts := ["./mnt/dev/sr0"] |},
     Ok tt).
Proof. vm_compute. reflexivity. Qed.

(** An audio disc of three tracks whose folder is in the output tree.
    The table reaches the fingerprint function stripped, as [execute]
    returns it. *)
Definition env_audio_ripped : env :=
  fun _ c =>
    match c with
    | CCheckOutput ["blkid"; _] _ => RExn (CalledProcessError 2)
    | CCheckOutput ["cdparanoia"; _] _ => RStr TocExamples.three_tracks
    | CListdir _ => RList ["Unknown Album-5452f0ee91bf0a43"]
    | _ => Scenario.answer_ok c
    end.

Lemma ripped_audio_disc_cycles :
  let seen :=
    [Ev (CCheckOutput (blkid_cmd "/dev/sr0") None)
        (RExn (CalledProcessError 2));
     ev_log DEBUG "blkid error: %s" [VExn (CalledProcessError 2)];
     ev_log DEBUG "No blkid output" [];
     Ev (CCheckOutput cdparanoia_cmd None) (RStr TocExamples.three_tracks);
     ev_log INFO "Redbook disc detected" []] in
  disc_identity CPython.tuplehash "/dev/sr0"
    (AudioDisc TocExamples.three_tracks)
  = Some "5452f0ee91bf0a43"
  /\ RipThread.loop_step CPython.tuplehash Scenario.rip_thread
       env_audio_ripped Scenario.w0
     = (add_events Scenario.w0 seen, Raise (AttributeError "out_root"))
  /\ RipThread.loop_step CPython.tuplehash Scenario.rip_thread_with_roots
       env_audio_ripped Scenario.w0
     = (add_events Scenario.w0
          (seen
           ++ [Ev (CMakedirs "./dvd") RUnit;
               Ev (CListdir "./dvd")
                  (RList ["Unknown Album-5452f0ee91bf0a43"]);
               ev_log INFO "Redbook already ripped: {folder}"
                 [VStr "Unknown Album-5452f0ee91bf0a43"];
               Ev (CCheckOutput (eject_cmd "/dev/sr0") None) (RStr "")]),
        Ok tt).
Proof. vm_compute. repeat split; reflexivity. Qed.

(** * The stability gate, answer by answer *)

Lemma bind_attr_list_run {B} (self : object) (name : string) (l : list string)
      (k : list string -> M B) (E : env) (w : world) :
  self !! name = Some (VList l) -> bind (attr_list self name) k E w = k l E w.
Proof.
  intros H. unfold attr_list, getattr. unfold bind at 1 2. rewrite H.
  reflexivity.
Qed.

Section Gated.

Variables (wip_root out_root : string) (ffmpeg_args : option (list string))
          (file_path out_path : string).
Context (E : env) (w : world).

Let self : object := TranscodeThread.init wip_root out_root ffmpeg_args.
Let cmd : list string := attempt_cmd file_path out_path ffmpeg_args.

(** The histories at which the environment is asked for the second
    sample, for the destination directory, for the transcoder and for
    the removal. *)
Definition at_second_sample (size1 : Z) : list event :=
  (history w ++ sampled_once file_path size1 ++ [ev_sleep 30])%list.

Definition at_out_dir (size : Z) : list event :=
  (history w ++ sampled_twice file_path size size)%list.

Definition at_transcoder (size : Z) : list event :=
  (history w ++ ready file_path out_path ffmpeg_args size)%list.

Definition at_removal (size : Z) (lines : list string) : list event :=
  (at_transcoder size
   ++ Ev (CPopen cmd None) (RProc lines 0)
   :: map ev_subprocess_line lines
   ++ [ev_log DEBUG "Removing file: {file_path}" [VStr file_path]])%list.

(** Two samples of the same size of 1 MiB or more, and the answers for
    the destination directory and for the transcoder that follow them. *)
Definition stable_sample (size : Z) : Prop :=
  E (history w) (CGetsize file_path) = RInt size
  /\ 1024 * 1024 <= size
  /\ E (at_second_sample size) (CGetsize file_path) = RInt size.

Definition out_dir_answer (size : Z) : resp :=
  E (at_out_dir size) (CMakedirs out_path).

Definition transcoder_answer (size : Z) : resp :=
  E (at_transcoder size) (CPopen cmd None).

Definition removal_answer (size : Z) (lines : list string) : resp :=
  E (at_removal size lines) (CRemove file_path).

Lemma transcode_file_sampled (size1 : Z) :
  E (history w) (CGetsize file_path) = RInt size1 ->
  TranscodeThread.transcode_file self file_path out_path E w
  = (if size1 <? 1024 * 1024 then
       logging DEBUG "File {file_path} is less than 1MB" [VStr file_path]
     else
       time_sleep 30 ;;
       size2 <- os_path_getsize file_path ;;
       logging DEBUG "size2: {size2}" [VInt size2] ;;
       if negb (size1 =? size2) then
         logging DEBUG
           "File {file_path} is not done being written (file size changed)"
           [VStr file_path]
       else
         os_makedirs out_path ;;
         ffmpeg_args <- attr_list self "ffmpeg_args" ;;
         let cmd := TranscodeThread.ffmpeg_cmd ffmpeg_args file_path out_path in
         logging DEBUG "Executing: {' '.join(cmd)}"
           [VStr (Text.join " " cmd)] ;;
         execute cmd false None ;;
         logging DEBUG "Removing file: {file_path}" [VStr file_path] ;;
         os_remove file_path) E
      (add_events w (sampled_once file_path size1)).
Proof.
  intros H1. unfold TranscodeThread.transcode_file. run_unfold.
  rewrite bind_bind_run, bind_perform_run, H1. cbn [as_int].
  rewrite bind_lift_run, bind_emit_run, add_events_app. reflexivity.
Qed.

Lemma transcode_file_small_run (size1 : Z) :
  E (history w) (CGetsize file_path) = RInt size1 ->
  size1 < 1024 * 1024 ->
  TranscodeThread.transcode_file self file_path out_path E w
  = (add_events w
       (sampled_once file_path size1
        ++ [ev_log DEBUG "File {file_path} is less than 1MB"
              [VStr file_path]]),
     Ok tt).
Proof.
  intros H1 Hsmall. rewrite (transcode_file_sampled size1 H1).
  apply Z.ltb_lt in Hsmall. rewrite Hsmall.
  unfold logging. rewrite emit_run, add_events_app. reflexivity.
Qed.

Lemma transcode_file_sampled_twice (size1 size2 : Z) :
  E (history w) (CGetsize file_path) = RInt size1 ->
  1024 * 1024 <= size1 ->
  E (at_second_sample size1) (CGetsize file_path) = RInt size2 ->
  TranscodeThread.transcode_file self file_path out_path E w
  = (if negb (size1 =? size2) then
       logging DEBUG
         "File {file_path} is not done being written (file size changed)"
         [VStr file_path]
     else
       os_makedirs out_path ;;
       ffmpeg_args <- attr_list self "ffmpeg_args" ;;
       let cmd := TranscodeThread.ffmpeg_cmd ffmpeg_args file_path out_path in
       logging DEBUG "Executing: {' '.join(cmd)}"
         [VStr (Text.join " " cmd)] ;;
       execute cmd false None ;;
       logging DEBUG "Removing file: {file_path}" [VStr file_path] ;;
       os_remove file_path) E
      (add_events w (sampled_twice file_path size1 size2)).
Proof.
  intros H1 Hbig H2. rewrite (transcode_file_sampled size1 H1).
  apply Z.ltb_ge in Hbig. rewrite Hbig. run_unfold.
  rewrite bind_emit_run, add_events_app.
  rewrite bind_bind_run, bind_perform_run.
  change (history (add_events w (sampled_once file_path size1 ++ [Ev (CSleep 30) RUnit])))
    with (at_second_sample size1).
  rewrite H2. cbn [as_int].
  rewrite bind_lift_run, bind_emit_run, !add_events_app.
  unfold sampled_twice, ev_sleep. rewrite <- !app_assoc. reflexivity.
Qed.

Lemma transcode_file_changing_run (size1 size2 : Z) :
  E (history w) (CGetsize file_path) = RInt size1 ->
  1024 * 1024 <= size1 ->
  E (at_second_sample size1) (CGetsize file_path) = RInt size2 ->
  size1 <> size2 ->
  TranscodeThread.transcode_file self file_path out_path E w
  = (add_events w
       (sampled_twice file_path size1 size2
        ++ [ev_log DEBUG
              "File {file_path} is not done being written (file size changed)"
              [VStr file_path]]),
     Ok tt).
Proof.
  intros H1 Hbig H2 Hne.
  rewrite (transcode_file_sampled_twice size1 size2 H1 Hbig H2).
  apply Z.eqb_neq in Hne. rewrite Hne. cbn [negb].
  unfold logging. rewrite emit_run, add_events_app. reflexivity.
Qed.

Lemma transcode_file_no_out_dir_run (size : Z) (e : exn) :
  E (history w) (CGetsize file_path) = RInt size ->
  1024 * 1024 <= size ->
  E (at_second_sample size) (CGetsize file_path) = RInt size ->
  as_unit (E (at_out_dir size) (CMakedirs out_path)) = Raise e ->
  TranscodeThread.transcode_file self file_path out_path E w
  = (add_events w
       (sampled_twice file_path size size
        ++ [Ev (CMakedirs out_path) (E (at_out_dir size) (CMakedirs out_path))]),
     Raise e).
Proof.
  intros H1 Hbig H2 Hdir.
  rewrite (transcode_file_sampled_twice size size H1 Hbig H2).
  rewrite Z.eqb_refl. cbn [negb]. run_unfold.
  rewrite bind_bind_run, bind_perform_run.
  change (history (add_events w (sampled_twice file_path size size)))
    with (at_out_dir size).
  rewrite bind_lift_run, Hdir, add_events_app. reflexivity.
Qed.

Lemma transcode_file_ready (size : Z) :
  E (history w) (CGetsize file_path) = RInt size ->
  1024 * 1024 <= size ->
  E (at_second_sample size) (CGetsize file_path) = RInt size ->
  E (at_out_dir size) (CMakedirs out_path) = RUnit ->
  TranscodeThread.transcode_file self file_path out_path E w
  = (execute cmd false None ;;
     logging DEBUG "Removing file: {file_path}" [VStr file_path] ;;
     os_remove file_path) E
      (add_events w (ready file_path out_path ffmpeg_args size)).
Proof.
  intros H1 Hbig H2 Hdir.
  rewrite (transcode_file_sampled_twice size size H1 Hbig H2).
  rewrite Z.eqb_refl. cbn [negb]. run_unfold.
  rewrite bind_bind_run, bind_perform_run.
  change (history (add_events w (sampled_twice file_path size size)))
    with (at_out_dir size).
  rewrite Hdir. cbn [as_unit]. rewrite bind_lift_run, add_events_app.
  rewrite (bind_attr_list_run self "ffmpeg_args"
             (default TranscodeThread.default_ffmpeg_args ffmpeg_args))
    by reflexivity.
  cbv zeta. fold (attempt_cmd file_path out_path ffmpeg_args). fold cmd.
  rewrite bind_emit_run, add_events_app.
  unfold ready, ev_log. rewrite <- !app_assoc. reflexivity.
Qed.

Lemma transcode_file_transcoder_run (size code : Z) (lines : list string) :
  E (history w) (CGetsize file_path) = RInt size ->
  1024 * 1024 <= size ->
  E (at_second_sample size) (CGetsize file_path) = RInt size ->
  E (at_out_dir size) (CMakedirs out_path) = RUnit ->
  E (at_transcoder size) (CPopen cmd None) = RProc lines code ->
  TranscodeThread.transcode_file self file_path out_path E w
  = if code =? 0 then
      let r := E (at_removal size lines) (CRemove file_path) in
      (add_events w
         (ready file_path out_path ffmpeg_args size
          ++ Ev (CPopen cmd None) (RProc lines 0)
          :: map ev_subprocess_line lines
          ++ [ev_log DEBUG "Removing file: {file_path}" [VStr file_path];
              Ev (CRemove file_path) r]),
       as_unit r)
    else
      (add_events w
         (ready file_path out_path ffmpeg_args size
          ++ Ev (CPopen cmd None) (RProc lines code)
          :: map ev_subprocess_line lines),
       Raise (PyException code)).
Proof.
  intros H1 Hbig H2 Hdir Hproc.
  rewrite (transcode_file_ready size H1 Hbig H2 Hdir).
  rewrite (bind_execute_stream_run cmd None _ E _ lines code) by exact Hproc.
  cbv zeta. rewrite add_events_app.
  destruct (code =? 0) eqn:Hcode; [|reflexivity].
  apply Z.eqb_eq in Hcode. subst code. run_unfold.
  rewrite bind_emit_run, add_events_app, bind_perform_run, add_events_app.
  rewrite lift_run.
  replace (history (add_events w _)) with (at_removal size lines).
  - rewrite <- !app_assoc. reflexivity.
  - unfold at_removal, at_transcoder, add_events. cbn [history].
    rewrite <- !app_assoc. reflexivity.
Qed.

Lemma transcode_file_undecodable_run (size code : Z) (lines : list string) :
  E (history w) (CGetsize file_path) = RInt size ->
  1024 * 1024 <= size ->
  E (at_second_sample size) (CGetsize file_path) = RInt size ->
  E (at_out_dir size) (CMakedirs out_path) = RUnit ->
  E (at_transcoder size) (CPopen cmd None) = RProcUndecodable lines code ->
  TranscodeThread.transcode_file self file_path out_path E w
  = (add_events w
       (ready file_path out_path ffmpeg_args size
        ++ Ev (CPopen cmd None) (RProcUndecodable lines code)
        :: map ev_subprocess_line lines),
     Raise UnicodeDecodeError).
Proof.
  intros H1 Hbig H2 Hdir Hproc.
  rewrite (transcode_file_ready size H1 Hbig H2 Hdir).
  unfold bind at 1. rewrite execute_stream_run. cbv zeta.
  change (history (add_events w (ready file_path out_path ffmpeg_args size)))
    with (at_transcoder size).
  rewrite Hproc. cbn [as_proc]. rewrite add_events_app. reflexivity.
Qed.

End Gated.

(** C4, amended.  One call of [transcode_file] on a file of the watcher,
    for every environment, by what the environment answers:
    - a first size below 1 MiB: the call logs it and returns; the file
      is neither passed to the transcoder nor removed;
    - a first size of 1 MiB or more and, after the sleep of 30 seconds,
      another size: the call logs it and returns; neither passed nor
      removed;
    - two equal sizes of 1 MiB or more, and [os.makedirs] raises on the
      destination directory: the call ends with that error; the file is
      not passed to the transcoder;
    - two equal sizes of 1 MiB or more and the destination directory
      ensured: the transcoder is started on the file, once.  When it
      exits with 0 the file is removed as the last step; when it exits
      with another code, or its output does not decode, the call raises
      and the file stays;
    and for every environment at all: the file is never passed to the
    transcoder more than once, only after two equal samples of 1 MiB or
    more taken 30 seconds apart, and it is removed at most once, as the
    last step, after the transcoder came back with exit code 0. *)
Theorem transcode_file_stability_gate
        (wip_root out_root : string) (ffmpeg_args : option (list string))
        (file_path out_path : string) (E : env) (w : world) :
  let self := TranscodeThread.init wip_root out_root ffmpeg_args in
  let cmd := attempt_cmd file_path out_path ffmpeg_args in
  let run := TranscodeThread.transcode_file self file_path out_path E w in
  let stable := stable_sample file_path E w in
  let r_dir := out_dir_answer file_path out_path E w in
  let r_cmd := transcoder_answer ffmpeg_args file_path out_path E w in
  (forall size1,
      E (history w) (CGetsize file_path) = RInt size1 ->
      size1 < 1024 * 1024 ->
      run = (add_events w
               (sampled_once file_path size1
                ++ [ev_log DEBUG "File {file_path} is less than 1MB"
                      [VStr file_path]]),
             Ok tt))
  /\ (forall size1 size2,
         E (history w) (CGetsize file_path) = RInt size1 ->
         1024 * 1024 <= size1 ->
         E (at_second_sample file_path w size1) (CGetsize file_path)
         = RInt size2 ->
         size1 <> size2 ->
         run = (add_events w
                  (sampled_twice file_path size1 size2
                   ++ [ev_log DEBUG
                         "File {file_path} is not done being written (file size changed)"
                         [VStr file_path]]),
                Ok tt))
  /\ (forall size e,
         stable size ->
         as_unit (r_dir size) = Raise e ->
         run = (add_events w
                  (sampled_twice file_path size size
                   ++ [Ev (CMakedirs out_path) (r_dir size)]),
                Raise e))
  /\ (forall size lines,
         stable size ->
         r_dir size = RUnit ->
         r_cmd size = RProc lines 0 ->
         let r := removal_answer ffmpeg_args file_path out_path E w size lines in
         run = (add_events w
                  (ready file_path out_path ffmpeg_args size
                   ++ Ev (CPopen cmd None) (RProc lines 0)
                   :: map ev_subprocess_line lines
                   ++ [ev_log DEBUG "Removing file: {file_path}"
                         [VStr file_path];
                       Ev (CRemove file_path) r]),
                as_unit r))
  /\ (forall size lines code,
         stable size ->
         r_dir size = RUnit ->
         r_cmd size = RProc lines code ->
         code <> 0 ->
         run = (add_events w
                  (ready file_path out_path ffmpeg_args size
                   ++ Ev (CPopen cmd None) (RProc lines code)
                   :: map ev_subprocess_line lines),
                Raise (PyException code)))
  /\ (forall size lines code,
         stable size ->
         r_dir size = RUnit ->
         r_cmd size = RProcUndecodable lines code ->
         run = (add_events w
                  (ready file_path out_path ffmpeg_args size
                   ++ Ev (CPopen cmd None) (RProcUndecodable lines code)
                   :: map ev_subprocess_line lines),
                Raise UnicodeDecodeError))
  /\ exists t,
       history run.1 = (history w ++ t)%list
       /\ (count (is_transcoder_call file_path) t <= 1)%nat
       /\ ((0 < count (is_transcoder_call file_path) t)%nat ->
           exists size t1 t2,
             size_samples file_path t = [size; size]
             /\ 1024 * 1024 <= size
             /\ t = (Ev (CGetsize file_path) (RInt size) :: t1
                     ++ ev_sleep 30
                     :: Ev (CGetsize file_path) (RInt size) :: t2)%list)
       /\ (count (is_removal file_path) t <= 1)%nat
       /\ (forall r,
              In (Ev (CRemove file_path) r) t ->
              exists t1 lines t2,
                t = (t1 ++ Ev (CPopen cmd None) (RProc lines 0)
                        :: t2 ++ [Ev (CRemove file_path) r])%list).
Proof.
  intros self cmd run stable r_dir r_cmd. subst run stable r_dir r_cmd.
  unfold stable_sample, out_dir_answer, transcoder_answer, removal_answer.
  split; [|split; [|split; [|split; [|split; [|split]]]]].
  - intros size1 H1 Hsmall.
    exact (transcode_file_small_run wip_root out_root ffmpeg_args file_path
             out_path E w size1 H1 Hsmall).
  - intros size1 size2 H1 Hbig H2 Hne.
    exact (transcode_file_changing_run wip_root out_root ffmpeg_args file_path
             out_path E w size1 size2 H1 Hbig H2 Hne).
  - intros size e (H1 & Hbig & H2) Hdir.
    exact (transcode_file_no_out_dir_run wip_root out_root ffmpeg_args
             file_path out_path E w size e H1 Hbig H2 Hdir).
  - intros size lines (H1 & Hbig & H2) Hdir Hproc. cbv zeta.
    pose proof (transcode_file_transcoder_run wip_root out_root ffmpeg_args
                  file_path out_path E w size 0 lines H1 Hbig H2 Hdir Hproc)
      as Hrun.
    exact Hrun.
  - intros size lines code (H1 & Hbig & H2) Hdir Hproc Hcode.
    pose proof (transcode_file_transcoder_run wip_root out_root ffmpeg_args
                  file_path out_path E w size code lines H1 Hbig H2 Hdir Hproc)
      as Hrun.
    apply Z.eqb_neq in Hcode. rewrite Hcode in Hrun. exact Hrun.
  - intros size lines code (H1 & Hbig & H2) Hdir Hproc.
    exact (transcode_file_undecodable_run wip_root out_root ffmpeg_args
             file_path out_path E w size code lines H1 Hbig H2 Hdir Hproc).
  - destruct (transcode_file_trace_bounds wip_root out_root ffmpeg_args
                file_path out_path E w)
      as (t & Ht & _ & _ & Hapart & _ & Hmost & Honly & Hrm & Hafter).
    exists t. split; [exact Ht|]. split; [exact Hmost|].
    split; [|split; [exact Hrm|exact Hafter]].
    intros Hpos. destruct (Honly Hpos) as (size & Hs & Hbig).
    destruct (Hapart size size Hs) as (t1 & t2 & Heq).
    exists size, t1, t2. auto.
Qed.

(** A file of 2 MiB that no longer grows, in an environment where every
    call succeeds: sampled twice, passed to the transcoder once, removed
    as the last step. *)
Lemma transcode_file_stability_gate_witness :
  TranscodeThread.transcode_file Scenario.transcode_thread
    Scenario.title Scenario.title_out Scenario.env_stable Scenario.w0
  = (add_events Scenario.w0
       (ready Scenario.title Scenario.title_out None 2097152
        ++ [Ev (CPopen (attempt_cmd Scenario.title Scenario.title_out None)
                  None)
               (RProc [] 0);
            ev_log DEBUG "Removing file: {file_path}" [VStr Scenario.title];
            Ev (CRemove Scenario.title) RUnit]),
     Ok tt).
Proof.
  pose proof (transcode_file_stability_gate "./wip" "./dvd" None
                Scenario.title Scenario.title_out Scenario.env_stable
                Scenario.w0) as H.
  cbv zeta in H. destruct H as (_ & _ & _ & H & _).
  unfold Scenario.transcode_thread. rewrite (H 2097152 []).
  - reflexivity.
  - split; [reflexivity|]. split; [lia|reflexivity].
  - reflexivity.
  - reflexivity.
Defined.
